(** * Trajectory-rollout planner: a shallow embedding of
    [base_local_planner/src/trajectory_planner.cpp]

    The planner's [double] values are IEEE binary64 numbers, modelled by
    Rocq's primitive floats; [int] values are integers in [Z].  The
    collaborators the planner only calls (costmap, world model, distance
    grids, libm, tf) are fields of the record [Env]. *)

From Stdlib Require Import ZArith List Bool Lia String.
From Stdlib Require Import Floats.
From Stdlib Require Uint63.
Import ListNotations.

Set Warnings "-inexact-float".

(** ** C++ numerics *)

Module Cpp.

Local Open Scope float_scope.

(** [std::max(a, b)] is [(a < b) ? b : a]. *)
Definition max (a b : float) : float := if a <? b then b else a.

(** [std::min(a, b)] is [(b < a) ? b : a]. *)
Definition min (a b : float) : float := if b <? a then b else a.

Definition fabs (a : float) : float := abs a.

(** [a >= b], [a > b] and [a != b] on doubles, through the primitives. *)
Definition geb (a b : float) : bool := b <=? a.
Definition gtb (a b : float) : bool := b <? a.
Definition neqb (a b : float) : bool := negb (a =? b).

Definition INT_MIN : Z := (- 2 ^ 31)%Z.
Definition INT_MAX : Z := (2 ^ 31 - 1)%Z.

(** [int(d)]: truncation toward zero.  C++ leaves the conversion of a NaN,
    an infinity or a value outside [int] undefined; the model gives what
    the x86-64 conversion instruction gives there, [INT_MIN]. *)
Definition double_to_int (d : float) : Z :=
  match Prim2SF d with
  | S754_zero _ => 0%Z
  | S754_finite s m e =>
      let mag := Z.shiftl (Zpos m) e in
      let v := if s then Z.opp mag else mag in
      if ((INT_MIN <=? v) && (v <=? INT_MAX))%Z then v else INT_MIN
  | _ => INT_MIN
  end.

(** [double(n)] for an [int] (or a container size) [n]. *)
Definition int_to_double (n : Z) : float :=
  if (n <? 0)%Z then - of_uint63 (Uint63.of_Z (Z.opp n))
  else of_uint63 (Uint63.of_Z n).

(** A [for] loop whose body does not read its counter: [n] iterations. *)
Fixpoint for_n {A : Type} (n : nat) (body : A -> A) (a : A) : A :=
  match n with
  | O => a
  | S k => for_n k body (body a)
  end.

(** The number of iterations of [for (int i = 0; i < n; ++i)]. *)
Definition trip_count (n : Z) : nat := Z.to_nat n.

End Cpp.

(** ** Data model *)

Local Open Scope float_scope.

(** [base_local_planner::Trajectory]: the sampled velocity, the cost, the
    two fields this planner adds, and the simulated poses. *)
Record Trajectory := mkTrajectory {
  xv_ : float;
  yv_ : float;
  thetav_ : float;
  cost_ : float;
  goal_cost_traj_ : float;
  path_dist_traj_ : float;
  points_ : list (float * float * float)
}.

Definition set_cost (c : float) (t : Trajectory) : Trajectory :=
  mkTrajectory (xv_ t) (yv_ t) (thetav_ t) c (goal_cost_traj_ t)
    (path_dist_traj_ t) (points_ t).

Definition set_goal_cost_traj (g : float) (t : Trajectory) : Trajectory :=
  mkTrajectory (xv_ t) (yv_ t) (thetav_ t) (cost_ t) g
    (path_dist_traj_ t) (points_ t).

Definition set_path_dist_traj (p : float) (t : Trajectory) : Trajectory :=
  mkTrajectory (xv_ t) (yv_ t) (thetav_ t) (cost_ t) (goal_cost_traj_ t)
    p (points_ t).

Definition set_velocity (vx vy vth : float) (t : Trajectory) : Trajectory :=
  mkTrajectory vx vy vth (cost_ t) (goal_cost_traj_ t)
    (path_dist_traj_ t) (points_ t).

Definition resetPoints (t : Trajectory) : Trajectory :=
  mkTrajectory (xv_ t) (yv_ t) (thetav_ t) (cost_ t) (goal_cost_traj_ t)
    (path_dist_traj_ t) [].

Definition addPoint (x y th : float) (t : Trajectory) : Trajectory :=
  mkTrajectory (xv_ t) (yv_ t) (thetav_ t) (cost_ t) (goal_cost_traj_ t)
    (path_dist_traj_ t) (points_ t ++ [(x, y, th)]).

(** [MapCell] and [MapGrid]: the cells of a distance grid, the anchor
    [goal_x_], [goal_y_] a grid remembers, and its obstacle sentinel. *)
Record MapCell := mkMapCell {
  target_dist : float;
  within_robot : bool
}.

Record MapGrid := mkMapGrid {
  cell : Z -> Z -> MapCell;
  goal_x_ : float;
  goal_y_ : float;
  obstacleCosts : float
}.

Record Quaternion := mkQuaternion {
  qw : float; qx : float; qy : float; qz : float
}.

(** [geometry_msgs::PoseStamped], as far as the planner reads it. *)
Record PoseStamped := mkPoseStamped {
  position_x : float;
  position_y : float;
  orientation : Quaternion
}.

(** The tunables [reconfigure] and the constructor assign. *)
Record Settings := mkSettings {
  acc_lim_x_ : float;
  acc_lim_y_ : float;
  acc_lim_theta_ : float;
  max_vel_x_ : float;
  min_vel_x_ : float;
  max_vel_y_ : float;
  min_vel_y_ : float;
  max_vel_th_ : float;
  min_vel_th_ : float;
  min_in_place_vel_th_ : float;
  sim_time_ : float;
  sim_granularity_ : float;
  angular_sim_granularity_ : float;
  pdist_scale_ : float;
  gdist_scale_ : float;
  occdist_scale_ : float;
  hdiff_scale_ : float;
  path_distance_max_ : float;
  meter_scoring_ : bool;
  oscillation_reset_dist_ : float;
  escape_reset_dist_ : float;
  escape_reset_theta_ : float;
  vx_samples_ : Z;
  vy_samples_ : Z;
  vtheta_samples_ : Z;
  heading_lookahead_ : float;
  holonomic_robot_ : bool;
  backup_vel_ : float;
  dwa_ : bool;
  heading_scoring_ : bool;
  heading_scoring_timestep_ : float;
  simple_attractor_ : bool;
  y_vels_ : list float;
  stop_time_buffer_ : float;
  sim_period_ : float
}.

(** The latched oscillation and escape state. *)
Record Guard := mkGuard {
  rotating_left : bool;
  rotating_right : bool;
  strafe_left : bool;
  strafe_right : bool;
  stuck_left : bool;
  stuck_right : bool;
  stuck_left_strafe : bool;
  stuck_right_strafe : bool;
  prev_x_ : float;
  prev_y_ : float;
  escape_x_ : float;
  escape_y_ : float;
  escape_theta_ : float;
  escaping_ : bool
}.

(** The two reusable trajectory buffers, and pointers into them. *)
Record Buffers := mkBuffers {
  traj_one : Trajectory;
  traj_two : Trajectory
}.

Inductive TrajPtr := ptr_traj_one | ptr_traj_two.

Definition load (b : Buffers) (p : TrajPtr) : Trajectory :=
  match p with
  | ptr_traj_one => traj_one b
  | ptr_traj_two => traj_two b
  end.

Definition store (p : TrajPtr) (t : Trajectory) (b : Buffers) : Buffers :=
  match p with
  | ptr_traj_one => mkBuffers t (traj_two b)
  | ptr_traj_two => mkBuffers (traj_one b) t
  end.

(** The members of [TrajectoryPlanner] the modelled functions read or
    write.  The diagnostic members [generateTrajectory] and [headingDiff]
    only write ([occ_dist_], [path_cost_], [angle1_], ...) are left out: no
    modelled function reads them. *)
Record Planner := mkPlanner {
  settings : Settings;
  global_plan_ : list PoseStamped;
  final_goal_x_ : float;
  final_goal_y_ : float;
  final_goal_position_valid_ : bool;
  path_map_ : MapGrid;
  goal_map_ : MapGrid;
  guard : Guard;
  buffers : Buffers
}.

Definition set_guard (g : Guard) (p : Planner) : Planner :=
  mkPlanner (settings p) (global_plan_ p) (final_goal_x_ p) (final_goal_y_ p)
    (final_goal_position_valid_ p) (path_map_ p) (goal_map_ p) g (buffers p).

Definition set_buffers (b : Buffers) (p : Planner) : Planner :=
  mkPlanner (settings p) (global_plan_ p) (final_goal_x_ p) (final_goal_y_ p)
    (final_goal_position_valid_ p) (path_map_ p) (goal_map_ p) (guard p) b.

Definition set_settings (s : Settings) (p : Planner) : Planner :=
  mkPlanner s (global_plan_ p) (final_goal_x_ p) (final_goal_y_ p)
    (final_goal_position_valid_ p) (path_map_ p) (goal_map_ p) (guard p)
    (buffers p).

Definition set_maps (pm gm : MapGrid) (p : Planner) : Planner :=
  mkPlanner (settings p) (global_plan_ p) (final_goal_x_ p) (final_goal_y_ p)
    (final_goal_position_valid_ p) pm gm (guard p) (buffers p).

(** ** Collaborators

    What the planner calls and this file does not define: libm and the
    [angles] and [tf] helpers, the costmap, the world model's footprint
    check (with the planner's fixed footprint and radii), the inline
    kinematics helpers and the [Trajectory] constructor of the headers,
    the [MapGrid] operations, the footprint helper, the parsing of the
    [y_vels] string, the narrowing to [float] of [Eigen::Vector3f], and
    the values found in two locals [createTrajectories] reads without
    having initialised them. *)
Record Env := mkEnv {
  hypot : float -> float -> float;
  shortest_angular_distance : float -> float -> float;
  getEulerYaw : Quaternion -> float;
  worldToMap : float -> float -> option (Z * Z);
  getCost : Z -> Z -> Z;
  getResolution : float;
  world_footprintCost : float -> float -> float -> float;
  computeNewVelocity : float -> float -> float -> float -> float;
  computeNewXPosition : float -> float -> float -> float -> float -> float;
  computeNewYPosition : float -> float -> float -> float -> float -> float;
  computeNewThetaPosition : float -> float -> float -> float;
  fresh_trajectory : Trajectory;
  indeterminate_min_vel_x : float;
  indeterminate_min_vel_y : float;
  parse_y_vels : string -> list float;
  resetPathDist : MapGrid -> MapGrid;
  setTargetCells : list PoseStamped -> MapGrid -> MapGrid;
  setLocalGoal : list PoseStamped -> MapGrid -> MapGrid;
  getFootprintCells : float -> float -> float -> list (Z * Z);
  to_single : float -> float
}.

(** ** Trajectory simulation and scoring *)

Section Simulation.

Variable env : Env.
Variable P : Planner.

Let cfg := settings P.

(** [std::vector::operator[]] on the plan and on a vector of doubles.  An
    index outside the vector is undefined behaviour in C++ (it arises only
    for an empty plan); the model reads a default element there. *)
Definition default_pose : PoseStamped :=
  mkPoseStamped 0 0 (mkQuaternion 0 0 0 0).

Definition plan_at (i : Z) : PoseStamped :=
  nth (Z.to_nat i) (global_plan_ P) default_pose.

Definition plan_size : Z := Z.of_nat (List.length (global_plan_ P)).

Fixpoint vec_set (i : nat) (v : float) (l : list float) : list float :=
  match l, i with
  | [], _ => []
  | _ :: r, O => v :: r
  | a :: r, S j => a :: vec_set j v r
  end.

Definition vec_get (i : Z) (l : list float) : float := nth (Z.to_nat i) l 0.

(** The state of the scan of [headingDiff] over the plan. *)
Record HeadingScan := mkHeadingScan {
  dist_to_goal : float;
  dist_to_goal_v : list float;
  dist_to_path_min : float;
  i_curr_loc : Z
}.

(** One iteration [i] of the scan, and the scan for [i = k - 1] down to 0. *)
Definition heading_scan_body (x y : float) (i : Z) (h : HeadingScan)
  : HeadingScan :=
  let d := dist_to_goal h +
           hypot env (position_x (plan_at i) - position_x (plan_at (i + 1)))
                     (position_y (plan_at i) - position_y (plan_at (i + 1))) in
  let v := vec_set (Z.to_nat i) d (dist_to_goal_v h) in
  let dist_to_path :=
    hypot env (position_x (plan_at i) - x) (position_y (plan_at i) - y) in
  if dist_to_path <? dist_to_path_min h
  then mkHeadingScan d v dist_to_path i
  else mkHeadingScan d v (dist_to_path_min h) (i_curr_loc h).

Fixpoint heading_scan (k : nat) (x y : float) (h : HeadingScan)
  : HeadingScan :=
  match k with
  | O => h
  | S k' =>
      heading_scan k' x y (heading_scan_body x y (Z.of_nat k') h)
  end.

(** [headingDiff]: the value returned, then the two reference arguments
    [goal_dist_traj] and [path_dist_traj]. *)
Definition headingDiff (cell_x cell_y : Z) (x y heading : float)
  : float * float * float :=
  let n := plan_size in
  let h0 := mkHeadingScan 0
              (vec_set (Z.to_nat (n - 1)) 0
                 (repeat 0 (List.length (global_plan_ P))))
              1e3 0%Z in
  let h := heading_scan (Z.to_nat (n - 1)) x y h0 in
  let look_ahead_samples := 1%Z in
  let index_plan := Z.min (i_curr_loc h + look_ahead_samples) (n - 1) in
  let yaw := getEulerYaw env (orientation (plan_at index_plan)) in
  let g := vec_get index_plan (dist_to_goal_v h) +
           Cpp.int_to_double (n - 1 - index_plan) / Cpp.int_to_double n in
  let goal_dist_traj :=
    if g =? 0
    then hypot env (position_x (plan_at (n - 1)) - x)
                   (position_y (plan_at (n - 1)) - y)
    else g in
  let path_dist_traj := dist_to_path_min h in
  (Cpp.fabs (Cpp.fabs (shortest_angular_distance env heading yaw)),
   goal_dist_traj, path_dist_traj).

Definition footprintCost (x_i y_i theta_i : float) : float :=
  world_footprintCost env x_i y_i theta_i.

(** The locals of [generateTrajectory] that live across loop iterations,
    with the output trajectory. *)
Record Sim := mkSim {
  x_i : float;
  y_i : float;
  theta_i : float;
  vx_i : float;
  vy_i : float;
  vtheta_i : float;
  path_dist : float;
  goal_dist : float;
  occ_cost : float;
  heading_diff : float;
  time : float;
  traj : Trajectory
}.

(** A loop iteration either reaches its end or returns from the function
    with the trajectory as it stands. *)
Inductive Step :=
| Next (s : Sim)
| Return (t : Trajectory).

Definition num_steps_of (vx_samp vy_samp vtheta_samp : float) : Z :=
  let vmag := hypot env vx_samp vy_samp in
  let num_steps :=
    if negb (heading_scoring_ cfg)
    then Cpp.double_to_int
           (Cpp.max ((vmag * sim_time_ cfg) / sim_granularity_ cfg)
                    (Cpp.fabs vtheta_samp / angular_sim_granularity_ cfg) + 0.5)
    else Cpp.double_to_int (sim_time_ cfg / sim_granularity_ cfg + 0.5) in
  if (num_steps =? 0)%Z then 1%Z else num_steps.

Section Body.

Variables vx_samp vy_samp vtheta_samp : float.
Variables acc_x acc_y acc_theta : float.
Variable impossible_cost : float.
Variable num_steps : Z.
Variable dt : float.

(** The end of the loop body: record the point and integrate one step. *)
Definition integrate (s : Sim) (path_dist' goal_dist' occ_cost'
    heading_diff' : float) (t : Trajectory) : Sim :=
  let t' := addPoint (x_i s) (y_i s) (theta_i s) t in
  let vx' := computeNewVelocity env vx_samp (vx_i s) acc_x dt in
  let vy' := computeNewVelocity env vy_samp (vy_i s) acc_y dt in
  let vtheta' := computeNewVelocity env vtheta_samp (vtheta_i s) acc_theta dt in
  let x' := computeNewXPosition env (x_i s) vx' vy' (theta_i s) dt in
  let y' := computeNewYPosition env (y_i s) vx' vy' (theta_i s) dt in
  let theta' := computeNewThetaPosition env (theta_i s) vtheta' dt in
  mkSim x' y' theta' vx' vy' vtheta' path_dist' goal_dist' occ_cost'
    heading_diff' (time s + dt) t'.

(** The body of the loop at counter [i].  The statement that
    [if (meter_scoring_)] governs is the assignment to
    [traj.path_dist_traj_]: the line between the two is commented out. *)
Definition sim_body (i : Z) (s : Sim) : Step :=
  match worldToMap env (x_i s) (y_i s) with
  | None => Return (set_cost (-4) (traj s))
  | Some (cell_x, cell_y) =>
      let footprint_cost := footprintCost (x_i s) (y_i s) (theta_i s) in
      if footprint_cost <? 0 then Return (set_cost (-5) (traj s))
      else
        let occ_cost' :=
          Cpp.max (Cpp.max (occ_cost s) footprint_cost)
                  (Cpp.int_to_double (getCost env cell_x cell_y)) in
        if simple_attractor_ cfg then
          let gx := position_x (plan_at (plan_size - 1)) in
          let gy := position_y (plan_at (plan_size - 1)) in
          let goal_dist' :=
            (x_i s - gx) * (x_i s - gx) + (y_i s - gy) * (y_i s - gy) in
          Next (integrate s (path_dist s) goal_dist' occ_cost'
                  (heading_diff s) (traj s))
        else
          let '(heading_diff1, goal_dist1, path_dist1, update) :=
            if ((i =? num_steps - 1)%Z && heading_scoring_ cfg)%bool then
              let '(h, g, p) :=
                headingDiff cell_x cell_y (x_i s) (y_i s) (theta_i s) in
              (h, g, p, true)
            else if negb (heading_scoring_ cfg) then
              (heading_diff s, goal_dist s, path_dist s, true)
            else (heading_diff s, goal_dist s, path_dist s, false) in
          if update then
            let '(path_dist2, goal_dist2) :=
              if negb (heading_scoring_ cfg)
              then (target_dist (cell (path_map_ P) cell_x cell_y),
                    target_dist (cell (goal_map_ P) cell_x cell_y))
              else (path_dist1, goal_dist1) in
            if ((impossible_cost <=? goal_dist2)
                || (impossible_cost <=? path_dist2))%bool
            then Return (set_cost (-2) (traj s))
            else
              let path_dist_internal := path_dist2 in
              let t :=
                if meter_scoring_ cfg
                then set_path_dist_traj path_dist_internal (traj s)
                else traj s in
              let path_dist3 :=
                if ((0 <? path_distance_max_ cfg)
                    && (path_dist_internal <=? path_distance_max_ cfg))%bool
                then 0 else path_dist2 in
              let heading_diff3 :=
                if Cpp.fabs heading_diff1 <? 0.2 then 0 else heading_diff1 in
              Next (integrate s path_dist3 goal_dist2 occ_cost'
                      heading_diff3 t)
          else
            Next (integrate s path_dist1 goal_dist1 occ_cost'
                    heading_diff1 (traj s))
  end.

(** [k] iterations of the loop from counter [i]. *)
Fixpoint sim_loop (k : nat) (i : Z) (s : Sim) : Step :=
  match k with
  | O => Next s
  | S k' =>
      match sim_body i s with
      | Next s' => sim_loop k' (i + 1)%Z s'
      | Return t => Return t
      end
  end.

End Body.

(** What follows the loop: the weighted sum, stored with the goal term
    (the member [goal_cost_] the term passes through is taken to be a
    [double], as the other cost members are). *)
Definition final_cost (s : Sim) : float :=
  if negb (heading_scoring_ cfg)
  then pdist_scale_ cfg * path_dist s + goal_dist s * gdist_scale_ cfg
       + occdist_scale_ cfg * occ_cost s
  else occdist_scale_ cfg * occ_cost s + pdist_scale_ cfg * path_dist s
       + heading_diff s * hdiff_scale_ cfg + goal_dist s * gdist_scale_ cfg.

Definition finish_trajectory (s : Sim) : Trajectory :=
  let goal_cost_ := goal_dist s * gdist_scale_ cfg in
  set_goal_cost_traj goal_cost_ (set_cost (final_cost s) (traj s)).

(** The trajectory before the loop, and the initial loop state. *)
Definition initial_sim (x y theta vx vy vtheta vx_samp vy_samp vtheta_samp
    : float) (t : Trajectory) : Sim :=
  let t1 := set_path_dist_traj (-2) t in
  let t2 := set_cost (-3) (set_velocity vx_samp vy_samp vtheta_samp
                             (resetPoints t1)) in
  mkSim x y theta vx vy vtheta 0 0 0 0 0 t2.

(** The loop of [generateTrajectory], from the locals as initialised. *)
Definition run_simulation (x y theta vx vy vtheta
    vx_samp vy_samp vtheta_samp acc_x acc_y acc_theta impossible_cost : float)
    (t : Trajectory) : Step :=
  let num_steps := num_steps_of vx_samp vy_samp vtheta_samp in
  let dt := sim_time_ cfg / Cpp.int_to_double num_steps in
  sim_loop vx_samp vy_samp vtheta_samp acc_x acc_y acc_theta
    impossible_cost num_steps dt (Cpp.trip_count num_steps) 0%Z
    (initial_sim x y theta vx vy vtheta vx_samp vy_samp vtheta_samp t).

(** [generateTrajectory]: the argument [t] is the trajectory passed by
    reference, the result is that trajectory at return. *)
Definition generateTrajectory (x y theta vx vy vtheta
    vx_samp vy_samp vtheta_samp acc_x acc_y acc_theta impossible_cost : float)
    (t : Trajectory) : Trajectory :=
  match run_simulation x y theta vx vy vtheta vx_samp vy_samp vtheta_samp
          acc_x acc_y acc_theta impossible_cost t
  with
  | Return t' => t'
  | Next s => finish_trajectory s
  end.

(** [scoreTrajectory] and [checkTrajectory]. *)
Definition scoreTrajectory (x y theta vx vy vtheta vx_samp vy_samp
    vtheta_samp : float) : float :=
  let t := fresh_trajectory env in
  let impossible_cost := obstacleCosts (path_map_ P) in
  let t' := generateTrajectory x y theta vx vy vtheta
              vx_samp vy_samp vtheta_samp
              (acc_lim_x_ cfg) (acc_lim_y_ cfg) (acc_lim_theta_ cfg)
              impossible_cost t in
  cost_ t'.

Definition checkTrajectory (x y theta vx vy vtheta vx_samp vy_samp
    vtheta_samp : float) : bool :=
  let cost := scoreTrajectory x y theta vx vy vtheta
                vx_samp vy_samp vtheta_samp in
  if Cpp.geb cost 0 then true else false.

End Simulation.

(** ** The oscillation guard *)

Definition set_rotating_left (b : bool) (g : Guard) : Guard :=
  mkGuard b (rotating_right g) (strafe_left g) (strafe_right g)
    (stuck_left g) (stuck_right g) (stuck_left_strafe g) (stuck_right_strafe g)
    (prev_x_ g) (prev_y_ g) (escape_x_ g) (escape_y_ g) (escape_theta_ g)
    (escaping_ g).

Definition set_rotating_right (b : bool) (g : Guard) : Guard :=
  mkGuard (rotating_left g) b (strafe_left g) (strafe_right g)
    (stuck_left g) (stuck_right g) (stuck_left_strafe g) (stuck_right_strafe g)
    (prev_x_ g) (prev_y_ g) (escape_x_ g) (escape_y_ g) (escape_theta_ g)
    (escaping_ g).

Definition set_strafe_left (b : bool) (g : Guard) : Guard :=
  mkGuard (rotating_left g) (rotating_right g) b (strafe_right g)
    (stuck_left g) (stuck_right g) (stuck_left_strafe g) (stuck_right_strafe g)
    (prev_x_ g) (prev_y_ g) (escape_x_ g) (escape_y_ g) (escape_theta_ g)
    (escaping_ g).

Definition set_strafe_right (b : bool) (g : Guard) : Guard :=
  mkGuard (rotating_left g) (rotating_right g) (strafe_left g) b
    (stuck_left g) (stuck_right g) (stuck_left_strafe g) (stuck_right_strafe g)
    (prev_x_ g) (prev_y_ g) (escape_x_ g) (escape_y_ g) (escape_theta_ g)
    (escaping_ g).

Definition set_stuck_left (b : bool) (g : Guard) : Guard :=
  mkGuard (rotating_left g) (rotating_right g) (strafe_left g) (strafe_right g)
    b (stuck_right g) (stuck_left_strafe g) (stuck_right_strafe g)
    (prev_x_ g) (prev_y_ g) (escape_x_ g) (escape_y_ g) (escape_theta_ g)
    (escaping_ g).

Definition set_stuck_right (b : bool) (g : Guard) : Guard :=
  mkGuard (rotating_left g) (rotating_right g) (strafe_left g) (strafe_right g)
    (stuck_left g) b (stuck_left_strafe g) (stuck_right_strafe g)
    (prev_x_ g) (prev_y_ g) (escape_x_ g) (escape_y_ g) (escape_theta_ g)
    (escaping_ g).

Definition set_stuck_left_strafe (b : bool) (g : Guard) : Guard :=
  mkGuard (rotating_left g) (rotating_right g) (strafe_left g) (strafe_right g)
    (stuck_left g) (stuck_right g) b (stuck_right_strafe g)
    (prev_x_ g) (prev_y_ g) (escape_x_ g) (escape_y_ g) (escape_theta_ g)
    (escaping_ g).

Definition set_stuck_right_strafe (b : bool) (g : Guard) : Guard :=
  mkGuard (rotating_left g) (rotating_right g) (strafe_left g) (strafe_right g)
    (stuck_left g) (stuck_right g) (stuck_left_strafe g) b
    (prev_x_ g) (prev_y_ g) (escape_x_ g) (escape_y_ g) (escape_theta_ g)
    (escaping_ g).

Definition set_prev (x y : float) (g : Guard) : Guard :=
  mkGuard (rotating_left g) (rotating_right g) (strafe_left g) (strafe_right g)
    (stuck_left g) (stuck_right g) (stuck_left_strafe g) (stuck_right_strafe g)
    x y (escape_x_ g) (escape_y_ g) (escape_theta_ g) (escaping_ g).

Definition set_escape (x y theta : float) (g : Guard) : Guard :=
  mkGuard (rotating_left g) (rotating_right g) (strafe_left g) (strafe_right g)
    (stuck_left g) (stuck_right g) (stuck_left_strafe g) (stuck_right_strafe g)
    (prev_x_ g) (prev_y_ g) x y theta (escaping_ g).

Definition set_escaping (b : bool) (g : Guard) : Guard :=
  mkGuard (rotating_left g) (rotating_right g) (strafe_left g) (strafe_right g)
    (stuck_left g) (stuck_right g) (stuck_left_strafe g) (stuck_right_strafe g)
    (prev_x_ g) (prev_y_ g) (escape_x_ g) (escape_y_ g) (escape_theta_ g) b.

(** The eight assignments of [false] that clear the guard. *)
Definition clear_flags (g : Guard) : Guard :=
  mkGuard false false false false false false false false
    (prev_x_ g) (prev_y_ g) (escape_x_ g) (escape_y_ g) (escape_theta_ g)
    (escaping_ g).

(** The classification after the sampling tiers (first occurrence in
    [createTrajectories]). *)
Definition commit_direction (best : Trajectory) (x y : float) (g : Guard)
  : Guard :=
  if negb (Cpp.gtb (xv_ best) 0) then
    let g1 :=
      if thetav_ best <? 0 then
        set_rotating_right true
          (if rotating_right g then set_stuck_right true g else g)
      else if Cpp.gtb (thetav_ best) 0 then
        set_rotating_left true
          (if rotating_left g then set_stuck_left true g else g)
      else if Cpp.gtb (yv_ best) 0 then
        set_strafe_right true
          (if strafe_right g then set_stuck_right_strafe true g else g)
      else if yv_ best <? 0 then
        set_strafe_left true
          (if strafe_left g then set_stuck_left_strafe true g else g)
      else g in
    set_prev x y g1
  else g.

(** The classification of the second occurrence, after the disabled
    [y_vels_] sweep; it sets the opposite committed flag. *)
Definition commit_direction_second (best : Trajectory) (x y : float)
    (g : Guard) : Guard :=
  if negb (Cpp.gtb (xv_ best) 0) then
    let g1 :=
      if thetav_ best <? 0 then
        set_rotating_left true
          (if rotating_right g then set_stuck_right true g else g)
      else if Cpp.gtb (thetav_ best) 0 then
        set_rotating_right true
          (if rotating_left g then set_stuck_left true g else g)
      else if Cpp.gtb (yv_ best) 0 then
        set_strafe_left true
          (if strafe_right g then set_stuck_right_strafe true g else g)
      else if yv_ best <? 0 then
        set_strafe_right true
          (if strafe_left g then set_stuck_left_strafe true g else g)
      else g in
    set_prev x y g1
  else g.

Section GuardResets.

Variable env : Env.
Variable cfg : Settings.

(** [dist = hypot(x - prev_x_, y - prev_y_)] against the reset distance. *)
Definition reset_oscillation (x y : float) (g : Guard) : Guard :=
  let dist := hypot env (x - prev_x_ g) (y - prev_y_ g) in
  if Cpp.gtb dist (oscillation_reset_dist_ cfg) then clear_flags g else g.

Definition reset_escaping (x y theta : float) (g : Guard) : Guard :=
  let dist := hypot env (x - escape_x_ g) (y - escape_y_ g) in
  if (Cpp.gtb dist (escape_reset_dist_ cfg)
      || Cpp.gtb (Cpp.fabs (shortest_angular_distance env (escape_theta_ g)
                              theta))
                 (escape_reset_theta_ cfg))%bool
  then set_escaping false g else g.

End GuardResets.

(** ** The velocity-space search *)

(** The six bounds [createTrajectories] samples between. *)
Record Window := mkWindow {
  max_vel_x : float;
  min_vel_x : float;
  max_vel_y : float;
  min_vel_y : float;
  max_vel_theta : float;
  min_vel_theta : float
}.

(** The locals of [createTrajectories] the sampling loops update: the
    three sampled velocities, the two pointers and, behind them, the two
    buffers of the planner. *)
Record Locals := mkLocals {
  vx_samp : float;
  vy_samp : float;
  vtheta_samp : float;
  best_traj : TrajPtr;
  comp_traj : TrajPtr;
  bufs : Buffers
}.

Definition set_vx_samp (v : float) (l : Locals) : Locals :=
  mkLocals v (vy_samp l) (vtheta_samp l) (best_traj l) (comp_traj l) (bufs l).

Definition set_vy_samp (v : float) (l : Locals) : Locals :=
  mkLocals (vx_samp l) v (vtheta_samp l) (best_traj l) (comp_traj l) (bufs l).

Definition set_vtheta_samp (v : float) (l : Locals) : Locals :=
  mkLocals (vx_samp l) (vy_samp l) v (best_traj l) (comp_traj l) (bufs l).

(** [swap = best_traj; best_traj = comp_traj; comp_traj = swap;] *)
Definition swap_best (l : Locals) : Locals :=
  mkLocals (vx_samp l) (vy_samp l) (vtheta_samp l) (comp_traj l) (best_traj l)
    (bufs l).

Definition best_of (l : Locals) : Trajectory := load (bufs l) (best_traj l).
Definition comp_of (l : Locals) : Trajectory := load (bufs l) (comp_traj l).

Section Search.

Variable env : Env.
Variable P : Planner.

Let cfg := settings P.

Variables x y theta vx vy vtheta acc_x acc_y acc_theta : float.

(** Lines 646-677: the velocity limits. *)
Definition velocity_window : Window :=
  let max_vel_x0 := max_vel_x_ cfg in
  let max_vel_y0 := max_vel_y_ cfg in
  let '(max_vel_x1, min_vel_x1, max_vel_y1, min_vel_y1) :=
    if final_goal_position_valid_ P then
      let final_goal_dist :=
        hypot env (final_goal_x_ P - x) (final_goal_y_ P - y) in
      let max_vel_x1 := Cpp.min max_vel_x0 (final_goal_dist / sim_time_ cfg) in
      let min_vel_x1 := Cpp.min (min_vel_x_ cfg) max_vel_x1 in
      let max_vel_y1 := Cpp.min max_vel_y0 (final_goal_dist / sim_time_ cfg) in
      let min_vel_y1 := - max_vel_y1 in
      (max_vel_x1, min_vel_x1, max_vel_y1, min_vel_y1)
    else
      (max_vel_x0, indeterminate_min_vel_x env, max_vel_y0,
       indeterminate_min_vel_y env) in
  if dwa_ cfg then
    mkWindow
      (Cpp.max (Cpp.min max_vel_x1 (vx + acc_x * sim_period_ cfg))
               (min_vel_x_ cfg))
      (Cpp.max min_vel_x1 (vx - acc_x * sim_period_ cfg))
      (Cpp.min max_vel_y1 (vx + acc_y * sim_period_ cfg))
      (Cpp.max min_vel_y1 (vx - acc_y * sim_period_ cfg))
      (Cpp.min (max_vel_th_ cfg) (vtheta + acc_theta * sim_period_ cfg))
      (Cpp.max (min_vel_th_ cfg) (vtheta - acc_theta * sim_period_ cfg))
  else
    mkWindow
      (Cpp.max (Cpp.min max_vel_x1 (vx + acc_x * sim_time_ cfg))
               (min_vel_x_ cfg))
      min_vel_x1
      max_vel_y1
      min_vel_y1
      (Cpp.min (max_vel_th_ cfg) (vtheta + acc_theta * sim_time_ cfg))
      (Cpp.max (min_vel_th_ cfg) (vtheta - acc_theta * sim_time_ cfg)).

Let W := velocity_window.

Definition dvx : float :=
  (max_vel_x W - min_vel_x W) / Cpp.int_to_double (vx_samples_ cfg - 1).
Definition dvy : float :=
  (max_vel_y W - min_vel_y W) / Cpp.int_to_double (vy_samples_ cfg - 1).
Definition dvtheta : float :=
  (max_vel_theta W - min_vel_theta W)
  / Cpp.int_to_double (vtheta_samples_ cfg - 1).

Definition impossible_cost : float := obstacleCosts (path_map_ P).

(** The reference: the trajectory of the zero sample, simulated into a
    trajectory of its own. *)
Definition current_pos_traj : Trajectory :=
  generateTrajectory env P x y theta vx vy vtheta 0 0 0
    acc_x acc_y acc_theta impossible_cost (fresh_trajectory env).

(** [generateTrajectory(..., vxs, vys, vths, ..., *comp_traj)]. *)
Definition generate_into_comp (vxs vys vths : float) (l : Locals) : Locals :=
  let t := generateTrajectory env P x y theta vx vy vtheta vxs vys vths
             acc_x acc_y acc_theta impossible_cost (comp_of l) in
  mkLocals (vx_samp l) (vy_samp l) (vtheta_samp l) (best_traj l) (comp_traj l)
    (store (comp_traj l) t (bufs l)).

(** The test of the translate/rotate and strafe sweeps. *)
Definition is_better (comp best : Trajectory) : bool :=
  (Cpp.geb (cost_ comp) 0
   && ((cost_ comp <? cost_ best) || (cost_ best <? 0))
   && (goal_cost_traj_ comp <? goal_cost_traj_ current_pos_traj))%bool.

(** The test of the in-place rotation sweep. *)
Definition is_better_in_place (vth : float) (comp best : Trajectory) : bool :=
  (Cpp.geb (cost_ comp) 0
   && (((cost_ comp <? cost_ best)
        && (goal_cost_traj_ comp <? goal_cost_traj_ best))
       || (cost_ best <? 0)
       || (Cpp.neqb (yv_ best) 0
           && (goal_cost_traj_ comp <? goal_cost_traj_ best)
           && (cost_ comp <? cost_ best)))
   && (Cpp.gtb vth dvtheta || (vth <? -1 * dvtheta))
   && (goal_cost_traj_ comp <? goal_cost_traj_ current_pos_traj))%bool.

(** Simulate the current sample into [*comp_traj]; take it if better. *)
Definition sample (l : Locals) : Locals :=
  let l1 := generate_into_comp (vx_samp l) (vy_samp l) (vtheta_samp l) l in
  if is_better (comp_of l1) (best_of l1) then swap_best l1 else l1.

(** Lines 716-761: the translate/rotate sweep. *)
Definition theta_sweep_body (l : Locals) : Locals :=
  let l1 := sample l in
  set_vtheta_samp (vtheta_samp l1 + dvtheta) l1.

Definition x_sweep_body (l : Locals) : Locals :=
  let l1 := sample (set_vtheta_samp 0 l) in
  let l2 := set_vtheta_samp (min_vel_theta W) l1 in
  let l3 := Cpp.for_n (Cpp.trip_count (vtheta_samples_ cfg - 1))
              theta_sweep_body l2 in
  set_vx_samp (vx_samp l3 + dvx) l3.

Definition translate_rotate_sweep (l : Locals) : Locals :=
  Cpp.for_n (Cpp.trip_count (vx_samples_ cfg)) x_sweep_body l.

(** Lines 763-825: the two strafe sweeps of a holonomic robot. *)
Definition y_sweep_body (l : Locals) : Locals :=
  if Cpp.fabs (vy_samp l) <? 0.01
  then set_vy_samp (vy_samp l + dvy) l
  else
    let l1 := sample l in
    set_vy_samp (vy_samp l1 + dvy) l1.

Definition xy_sweep_body (l : Locals) : Locals :=
  let l1 := set_vy_samp (min_vel_y W) (set_vtheta_samp 0 l) in
  let l2 := Cpp.for_n (Cpp.trip_count (vy_samples_ cfg - 1)) y_sweep_body l1 in
  set_vx_samp (vx_samp l2 + dvx) l2.

Definition strafe_sweeps (l : Locals) : Locals :=
  if holonomic_robot_ cfg then
    let l1 := set_vy_samp (min_vel_y W)
                (set_vx_samp 0 (set_vtheta_samp 0 l)) in
    let l2 := Cpp.for_n (Cpp.trip_count (vy_samples_ cfg - 1))
                y_sweep_body l1 in
    let l3 := set_vx_samp (min_vel_x W / 2) l2 in
    Cpp.for_n (Cpp.trip_count (Z.quot (vx_samples_ cfg) 2)) xy_sweep_body l3
  else l.

(** Lines 866-940: the in-place rotation sweep. *)
Definition in_place_body (l : Locals) : Locals :=
  let vtheta_samp_limited :=
    if Cpp.gtb (vtheta_samp l) 0
    then Cpp.max (vtheta_samp l) (min_in_place_vel_th_ cfg)
    else Cpp.min (vtheta_samp l) (-1 * min_in_place_vel_th_ cfg) in
  let l1 := generate_into_comp (vx_samp l) (vy_samp l) vtheta_samp_limited l in
  let l2 :=
    if is_better_in_place (vtheta_samp l1) (comp_of l1) (best_of l1)
    then swap_best l1 else l1 in
  set_vtheta_samp (vtheta_samp l2 + dvtheta) l2.

Definition in_place_sweep (l : Locals) : Locals :=
  let l1 := set_vy_samp 0 (set_vx_samp 0
              (set_vtheta_samp (min_vel_theta W) l)) in
  Cpp.for_n (Cpp.trip_count (vtheta_samples_ cfg)) in_place_body l1.

(** Lines 685-694: the locals before the first tier, the two buffers
    marked as holding no trajectory. *)
Definition initial_locals : Locals :=
  let b1 := store ptr_traj_one (set_cost (-1) (traj_one (buffers P)))
              (buffers P) in
  let b2 := store ptr_traj_two (set_cost (-1) (traj_two b1)) b1 in
  mkLocals (min_vel_x W) 0 (min_vel_theta W) ptr_traj_one ptr_traj_two b2.

(** The three sampling tiers, in order. *)
Definition sampling_tiers : Locals :=
  in_place_sweep (strafe_sweeps (translate_rotate_sweep initial_locals)).

(** Lines 1091-1109: the backup tier. *)
Definition backup_tier (l : Locals) : Locals :=
  let l1 := set_vy_samp 0 (set_vx_samp (backup_vel_ cfg)
              (set_vtheta_samp 0 l)) in
  let l2 := generate_into_comp (vx_samp l1) (vy_samp l1) (vtheta_samp l1) l1 in
  let l3 :=
    if (Cpp.geb (cost_ (comp_of l2)) 0
        && ((cost_ (comp_of l2) <? cost_ (best_of l2))
            || (cost_ (best_of l2) <? 0)))%bool
    then swap_best l2 else l2 in
  swap_best l3.

(** Lines 1111-1147: what follows the backup tier. *)
Definition backup_epilogue (l : Locals) : Planner * Trajectory :=
  let g1 := reset_oscillation env cfg x y (guard P) in
  let g2 :=
    if (negb (escaping_ g1) && Cpp.gtb (cost_ (best_of l)) (-2))%bool
    then set_escape x y theta g1 else g1 in
  let g3 := reset_escaping env cfg x y theta g2 in
  let b :=
    if cost_ (best_of l) =? -1
    then store (best_traj l) (set_cost 1 (best_of l)) (bufs l)
    else bufs l in
  (set_buffers b (set_guard g3 P), load b (best_traj l)).

(** [createTrajectories]: the planner after the call and the trajectory
    returned.  The sweep over [y_vels_] between the two tests of the best
    cost stands under [if (false)] and is not run. *)
Definition createTrajectories : Planner * Trajectory :=
  let l := sampling_tiers in
  if Cpp.geb (cost_ (best_of l)) 0 then
    let g1 := commit_direction (best_of l) x y (guard P) in
    let g2 := reset_oscillation env cfg x y g1 in
    let g3 := reset_escaping env cfg x y theta g2 in
    (set_buffers (bufs l) (set_guard g3 P), best_of l)
  else if Cpp.geb (cost_ (best_of l)) 0 then
    let g1 := commit_direction_second (best_of l) x y (guard P) in
    let g2 := reset_oscillation env cfg x y g1 in
    let g3 := reset_escaping env cfg x y theta g2 in
    (set_buffers (bufs l) (set_guard g3 P), best_of l)
  else
    backup_epilogue (backup_tier l).

End Search.

(** ** Configuration, plan updates and the planning cycle *)

(** The dynamic-reconfigure structure, as far as [reconfigure] reads it. *)
Module BaseLocalPlannerConfig.

Record t := mk {
  acc_lim_x : float;
  acc_lim_y : float;
  acc_lim_theta : float;
  max_vel_x : float;
  min_vel_x : float;
  max_vel_y : float;
  min_vel_y : float;
  max_vel_theta : float;
  min_vel_theta : float;
  min_in_place_vel_theta : float;
  sim_time : float;
  sim_granularity : float;
  angular_sim_granularity : float;
  pdist_scale : float;
  gdist_scale : float;
  occdist_scale : float;
  hdiff_scale : float;
  path_distance_max : float;
  oscillation_reset_dist : float;
  escape_reset_dist : float;
  escape_reset_theta : float;
  vx_samples : Z;
  vy_samples : Z;
  vtheta_samples : Z;
  heading_lookahead : float;
  holonomic_robot : bool;
  escape_vel : float;
  dwa : bool;
  heading_scoring : bool;
  heading_scoring_timestep : float;
  simple_attractor : bool;
  y_vels : string
}.

End BaseLocalPlannerConfig.

(** The two [ROS_WARN] messages of [reconfigure]. *)
Inductive Warning :=
| warn_vx_samples
| warn_vtheta_samples.

(** [reconfigure]: the planner after the call and the warnings logged.
    The argument is copied first; the corrections of the sample counts
    are made on the copy and on the members. *)
Definition reconfigure (env : Env) (P : Planner)
    (config : BaseLocalPlannerConfig.t) : Planner * list Warning :=
  let old := settings P in
  let scale (v : float) :=
    if meter_scoring_ old then v * getResolution env else v in
  let vx_samples0 := BaseLocalPlannerConfig.vx_samples config in
  let vy_samples0 := BaseLocalPlannerConfig.vy_samples config in
  let vtheta_samples0 := BaseLocalPlannerConfig.vtheta_samples config in
  let '(vx_samples1, w1) :=
    if (vx_samples0 <=? 0)%Z then (1%Z, [warn_vx_samples])
    else (vx_samples0, []) in
  let '(vtheta_samples1, w2) :=
    if (vtheta_samples0 <=? 0)%Z then (1%Z, [warn_vtheta_samples])
    else (vtheta_samples0, []) in
  let s :=
    mkSettings
      (BaseLocalPlannerConfig.acc_lim_x config)
      (BaseLocalPlannerConfig.acc_lim_y config)
      (BaseLocalPlannerConfig.acc_lim_theta config)
      (BaseLocalPlannerConfig.max_vel_x config)
      (BaseLocalPlannerConfig.min_vel_x config)
      (BaseLocalPlannerConfig.max_vel_y config)
      (BaseLocalPlannerConfig.min_vel_y config)
      (BaseLocalPlannerConfig.max_vel_theta config)
      (BaseLocalPlannerConfig.min_vel_theta config)
      (BaseLocalPlannerConfig.min_in_place_vel_theta config)
      (BaseLocalPlannerConfig.sim_time config)
      (BaseLocalPlannerConfig.sim_granularity config)
      (BaseLocalPlannerConfig.angular_sim_granularity config)
      (scale (BaseLocalPlannerConfig.pdist_scale config))
      (scale (BaseLocalPlannerConfig.gdist_scale config))
      (scale (BaseLocalPlannerConfig.occdist_scale config))
      (BaseLocalPlannerConfig.hdiff_scale config)
      (BaseLocalPlannerConfig.path_distance_max config)
      (meter_scoring_ old)
      (BaseLocalPlannerConfig.oscillation_reset_dist config)
      (BaseLocalPlannerConfig.escape_reset_dist config)
      (BaseLocalPlannerConfig.escape_reset_theta config)
      vx_samples1
      vy_samples0
      vtheta_samples1
      (BaseLocalPlannerConfig.heading_lookahead config)
      (BaseLocalPlannerConfig.holonomic_robot config)
      (BaseLocalPlannerConfig.escape_vel config)
      (BaseLocalPlannerConfig.dwa config)
      (BaseLocalPlannerConfig.heading_scoring config)
      (BaseLocalPlannerConfig.heading_scoring_timestep config)
      (BaseLocalPlannerConfig.simple_attractor config)
      (parse_y_vels env (BaseLocalPlannerConfig.y_vels config))
      (stop_time_buffer_ old)
      (sim_period_ old) in
  (set_settings s P, w1 ++ w2).

(** [updatePlan]. *)
Definition updatePlan (env : Env) (P : Planner) (new_plan : list PoseStamped)
    (compute_dists : bool) : Planner :=
  let '(gx, gy, valid) :=
    match rev new_plan with
    | final_goal_pose :: _ =>
        (position_x final_goal_pose, position_y final_goal_pose, true)
    | [] => (final_goal_x_ P, final_goal_y_ P, false)
    end in
  let '(pm, gm) :=
    if compute_dists then
      (setTargetCells env new_plan (resetPathDist env (path_map_ P)),
       setLocalGoal env new_plan (resetPathDist env (goal_map_ P)))
    else (path_map_ P, goal_map_ P) in
  mkPlanner (settings P) new_plan gx gy valid pm gm (guard P) (buffers P).

(** [path_map_(cx, cy).within_robot = true]. *)
Definition mark_within_robot (g : MapGrid) (c : Z * Z) : MapGrid :=
  mkMapGrid
    (fun a b =>
       if ((a =? fst c)%Z && (b =? snd c)%Z)%bool
       then mkMapCell (target_dist (cell g a b)) true
       else cell g a b)
    (goal_x_ g) (goal_y_ g) (obstacleCosts g).

(** Lines 1158-1177 of [findBestPath]: the two grids are reset, the cells
    under the robot are marked on the path grid, the path grid is seeded
    from the plan and the local goal is set on the goal grid. *)
Definition refresh_grids (env : Env) (P : Planner) (px py pth : float)
  : Planner :=
  let pm0 := resetPathDist env (path_map_ P) in
  let gm0 := resetPathDist env (goal_map_ P) in
  let footprint_list := getFootprintCells env px py pth in
  let pm1 := fold_left mark_within_robot footprint_list pm0 in
  let pm2 := setTargetCells env (global_plan_ P) pm1 in
  let gm1 := setLocalGoal env (global_plan_ P) gm0 in
  set_maps pm2 gm1 P.

(** [findBestPath]: the pose and the velocity arrive as [(x, y, yaw)]
    and pass through an [Eigen::Vector3f]; the result is the planner, the
    best trajectory and the drive velocities [(x, y, yaw)]. *)
Definition findBestPath (env : Env) (P : Planner)
    (global_pose global_vel : float * float * float)
  : Planner * Trajectory * (float * float * float) :=
  let '(gpx, gpy, gpth) := global_pose in
  let '(gvx, gvy, gvth) := global_vel in
  let pos0 := to_single env gpx in
  let pos1 := to_single env gpy in
  let pos2 := to_single env gpth in
  let vel0 := to_single env gvx in
  let vel1 := to_single env gvy in
  let vel2 := to_single env gvth in
  let P1 := refresh_grids env P pos0 pos1 pos2 in
  let '(P2, best) :=
    createTrajectories env P1 pos0 pos1 pos2 vel0 vel1 vel2
      (acc_lim_x_ (settings P1)) (acc_lim_y_ (settings P1))
      (acc_lim_theta_ (settings P1)) in
  if cost_ best <? 0 then (P2, best, (0, 0, 0))
  else (P2, best, (xv_ best, yv_ best, thetav_ best)).

(** [getLocalGoal]: the two reference arguments as a pair. *)
Definition getLocalGoal (P : Planner) : float * float :=
  (goal_x_ (path_map_ P), goal_y_ (path_map_ P)).

(** ** Ray tracing over the costmap *)

(** The three cell values of [costmap_2d] that [pointCost] tests for. *)
Record CostValues := mkCostValues {
  LETHAL_OBSTACLE : Z;
  INSCRIBED_INFLATED_OBSTACLE : Z;
  NO_INFORMATION : Z
}.

(** What [lineCost] fixes before its loop: the four increments, the
    denominator, the first numerator, the addend of the numerator and the
    number of pixels. *)
Record Raster := mkRaster {
  xinc1 : Z;
  xinc2 : Z;
  yinc1 : Z;
  yinc2 : Z;
  den : Z;
  num0 : Z;
  numadd : Z;
  numpixels : Z
}.

(** The loop variables [x], [y] and [num] of [lineCost]. *)
Record Pixel := mkPixel {
  pixel_x : Z;
  pixel_y : Z;
  num : Z
}.

Section RayTracing.

Variable env : Env.
Variable cv : CostValues.

(** [pointCost]: the cell value, an [unsigned char], or -1. *)
Definition pointCost (x y : Z) : float :=
  let cost := getCost env x y in
  if ((cost =? LETHAL_OBSTACLE cv) || (cost =? INSCRIBED_INFLATED_OBSTACLE cv)
      || (cost =? NO_INFORMATION cv))%Z%bool
  then -1
  else Cpp.int_to_double cost.

(** Lines 499-547 of [lineCost].  The cell coordinates are [int]s; the
    differences and sums are taken where they do not overflow. *)
Definition raster_of (x0 x1 y0 y1 : Z) : Raster :=
  let deltax := Z.abs (x1 - x0) in
  let deltay := Z.abs (y1 - y0) in
  let xinc := if (x1 >=? x0)%Z then 1%Z else (-1)%Z in
  let yinc := if (y1 >=? y0)%Z then 1%Z else (-1)%Z in
  if (deltax >=? deltay)%Z
  then mkRaster 0 xinc yinc 0 deltax (Z.quot deltax 2) deltay deltax
  else mkRaster xinc 0 0 yinc deltay (Z.quot deltay 2) deltax deltay.

(** Lines 560-567: the end of the loop body, from one pixel to the next. *)
Definition next_pixel (r : Raster) (p : Pixel) : Pixel :=
  let num1 := (num p + numadd r)%Z in
  let '(num2, x2, y2) :=
    if (num1 >=? den r)%Z
    then ((num1 - den r)%Z, (pixel_x p + xinc1 r)%Z, (pixel_y p + yinc1 r)%Z)
    else (num1, pixel_x p, pixel_y p) in
  mkPixel (x2 + xinc2 r)%Z (y2 + yinc2 r)%Z num2.

(** [k] iterations of the loop, from the pixel [p] and the cost so far. *)
Fixpoint line_loop (r : Raster) (k : nat) (p : Pixel) (line_cost : float)
  : float :=
  match k with
  | O => line_cost
  | S k' =>
      let point_cost := pointCost (pixel_x p) (pixel_y p) in
      if point_cost <? 0 then -1
      else
        let line_cost' :=
          if line_cost <? point_cost then point_cost else line_cost in
        line_loop r k' (next_pixel r p) line_cost'
  end.

(** [lineCost(x0, x1, y0, y1)]: the loop runs for [curpixel] from 0 to
    [numpixels], both included. *)
Definition lineCost (x0 x1 y0 y1 : Z) : float :=
  let r := raster_of x0 x1 y0 y1 in
  line_loop r (Cpp.trip_count (numpixels r + 1))
    (mkPixel x0 y0 (num0 r)) 0.

End RayTracing.

(** ** Construction *)

(** The members the constructor gives no value: they hold what the class
    definition, which is not in this file, leaves in them. *)
Record Unassigned := mkUnassigned {
  unassigned_max_vel_y : float;
  unassigned_min_vel_y : float;
  unassigned_vy_samples : Z;
  unassigned_meter_scoring : bool;
  unassigned_final_goal_x : float;
  unassigned_final_goal_y : float
}.

(** The constructor, with its arguments in their order but for the world
    model, the costmap and the footprint, which [Env] stands for, as it
    does for the two radii the body computes from the footprint.  Both
    grids are built by [MapGrid(size_x, size_y)] for the size of the
    costmap: [grid] is that grid.  The two buffers are default-constructed
    trajectories.  The argument [meter_scoring] initialises no member. *)
Definition TrajectoryPlanner (env : Env) (grid : MapGrid) (u : Unassigned)
    (acc_lim_x acc_lim_y acc_lim_theta sim_time sim_granularity : float)
    (vx_samples vtheta_samples : Z)
    (pdist_scale gdist_scale occdist_scale hdiff_scale heading_lookahead
     oscillation_reset_dist escape_reset_dist escape_reset_theta : float)
    (holonomic_robot : bool)
    (max_vel_x min_vel_x max_vel_th min_vel_th min_in_place_vel_th
     backup_vel : float)
    (dwa heading_scoring : bool) (heading_scoring_timestep : float)
    (meter_scoring simple_attractor : bool)
    (y_vels : list float)
    (stop_time_buffer sim_period angular_sim_granularity
     path_distance_max : float) : Planner :=
  mkPlanner
    (mkSettings acc_lim_x acc_lim_y acc_lim_theta
       max_vel_x min_vel_x
       (unassigned_max_vel_y u) (unassigned_min_vel_y u)
       max_vel_th min_vel_th min_in_place_vel_th
       sim_time sim_granularity angular_sim_granularity
       pdist_scale gdist_scale occdist_scale hdiff_scale path_distance_max
       (unassigned_meter_scoring u)
       oscillation_reset_dist escape_reset_dist escape_reset_theta
       vx_samples (unassigned_vy_samples u) vtheta_samples
       heading_lookahead holonomic_robot backup_vel dwa heading_scoring
       heading_scoring_timestep simple_attractor y_vels stop_time_buffer
       sim_period)
    []
    (unassigned_final_goal_x u) (unassigned_final_goal_y u) false
    grid grid
    (mkGuard false false false false false false false false 0 0 0 0 0 false)
    (mkBuffers (fresh_trajectory env) (fresh_trajectory env)).

(** ** Cell costs *)

(** [getCellCosts]: the value returned, then the four reference
    arguments [path_cost], [goal_cost], [occ_cost] and [total_cost] at
    return.  They are [float]s: what is assigned to them is narrowed to
    single precision.  [unreachableCellCosts] is the second sentinel of the
    path grid. *)
Definition getCellCosts (env : Env) (cv : CostValues)
    (unreachableCellCosts : float) (P : Planner) (cx cy : Z)
    (path_cost goal_cost occ_cost total_cost : float)
  : bool * (float * float * float * float) :=
  let cell_ := cell (path_map_ P) cx cy in
  let goal_cell := cell (goal_map_ P) cx cy in
  if within_robot cell_
  then (false, (path_cost, goal_cost, occ_cost, total_cost))
  else
    let occ_cost1 := to_single env (Cpp.int_to_double (getCost env cx cy)) in
    if ((target_dist cell_ =? obstacleCosts (path_map_ P))
        || (target_dist cell_ =? unreachableCellCosts)
        || Cpp.geb occ_cost1
             (Cpp.int_to_double (INSCRIBED_INFLATED_OBSTACLE cv)))%bool
    then (false, (path_cost, goal_cost, occ_cost1, total_cost))
    else
      let path_cost1 := to_single env (target_dist cell_) in
      let goal_cost1 := to_single env (target_dist goal_cell) in
      let total_cost1 :=
        to_single env
          (pdist_scale_ (settings P) * path_cost1
           + gdist_scale_ (settings P) * goal_cost1
           + occdist_scale_ (settings P) * occ_cost1) in
      (true, (path_cost1, goal_cost1, occ_cost1, total_cost1)).

(** ** Notions the statements below use *)

(** The three causes for which [generateTrajectory] gives a trajectory
    up, and the cost that reports each. *)
Inductive Cause :=
| OffMap
| Collision
| NoClearPath.

Definition sentinel (c : Cause) : float :=
  match c with
  | OffMap => -4
  | Collision => -5
  | NoClearPath => -2
  end.

Section Points.

Variable env : Env.
Variable P : Planner.

Let cfg := settings P.

(** The path and goal distance read at the point of iteration [i], when
    that iteration updates them: from the two grids at every point without
    heading scoring, from [headingDiff] at the last point with it, and never
    in simple-attractor mode. *)
Definition evaluated_distances (num_steps i : Z) (s : Sim)
  : option (float * float) :=
  match worldToMap env (x_i s) (y_i s) with
  | None => None
  | Some (cell_x, cell_y) =>
      if simple_attractor_ cfg then None
      else if negb (heading_scoring_ cfg) then
        Some (target_dist (cell (path_map_ P) cell_x cell_y),
              target_dist (cell (goal_map_ P) cell_x cell_y))
      else if (i =? num_steps - 1)%Z then
        let '(_, g, p) :=
          headingDiff env P cell_x cell_y (x_i s) (y_i s) (theta_i s) in
        Some (p, g)
      else None
  end.

(** The cause, if any, for which the point of iteration [i] is illegal. *)
Definition failure_at (impossible_cost : float) (num_steps i : Z) (s : Sim)
  : option Cause :=
  match worldToMap env (x_i s) (y_i s) with
  | None => Some OffMap
  | Some _ =>
      if footprintCost env (x_i s) (y_i s) (theta_i s) <? 0
      then Some Collision
      else
        match evaluated_distances num_steps i s with
        | Some (p, g) =>
            if ((impossible_cost <=? g) || (impossible_cost <=? p))%bool
            then Some NoClearPath else None
        | None => None
        end
  end.

(** The point of iteration [i] lies within the path-distance cap. *)
Definition within_cap (num_steps i : Z) (s : Sim) : Prop :=
  exists p g,
    evaluated_distances num_steps i s = Some (p, g) /\
    (0 <? path_distance_max_ cfg) = true /\
    (p <=? path_distance_max_ cfg) = true.

End Points.

(** A loop state, and a loop outcome, with the goal cost of its
    trajectory replaced: the one field of the output trajectory that
    [generateTrajectory] leaves as it finds it, unless it finishes. *)
Definition with_goal_cost (g : float) (s : Sim) : Sim :=
  mkSim (x_i s) (y_i s) (theta_i s) (vx_i s) (vy_i s) (vtheta_i s)
    (path_dist s) (goal_dist s) (occ_cost s) (heading_diff s) (time s)
    (set_goal_cost_traj g (traj s)).

Definition step_with_goal_cost (g : float) (r : Step) : Step :=
  match r with
  | Next s => Next (with_goal_cost g s)
  | Return t => Return (set_goal_cost_traj g t)
  end.

(** The conditions under which, by the specification, a candidate may
    take the place of the incumbent best: a legal cost, a cost strictly
    below the incumbent's unless the incumbent holds no trajectory yet,
    and a goal cost strictly below the reference's. *)
Definition may_replace (ref comp best : Trajectory) : Prop :=
  Cpp.geb (cost_ comp) 0 = true /\
  ((cost_ comp <? cost_ best) = true \/ (cost_ best <? 0) = true) /\
  (goal_cost_traj_ comp <? goal_cost_traj_ ref) = true.

(** What holds of the locals throughout the sampling tiers: either no
    candidate has been taken, the pointers are as initialised and the
    first buffer is the planner's with the cost -1; or the best is a legal
    trajectory that beats the reference on goal cost. *)
Definition search_inv (P : Planner) (ref : Trajectory) (l : Locals) : Prop :=
  (best_traj l = ptr_traj_one /\ comp_traj l = ptr_traj_two /\
   traj_one (bufs l) = set_cost (-1) (traj_one (buffers P)))
  \/
  (best_traj l <> comp_traj l /\
   Cpp.geb (cost_ (best_of l)) 0 = true /\
   (goal_cost_traj_ (best_of l) <? goal_cost_traj_ ref) = true).

(** The interval of velocities the specification calls the dynamic
    window of an axis: the limits [lo, hi] intersected with what one
    control period reaches from the velocity [v], as (lower, upper). *)
Definition reachable_window (lo hi v acc period : float) : float * float :=
  (Cpp.max lo (v - acc * period), Cpp.min hi (v + acc * period)).

(** The eight flags of the guard, committed then stuck, and its anchor. *)
Definition flags_of (g : Guard) : list bool :=
  [rotating_left g; rotating_right g; strafe_left g; strafe_right g;
   stuck_left g; stuck_right g; stuck_left_strafe g; stuck_right_strafe g].

Definition anchor_of (g : Guard) : float * float := (prev_x_ g, prev_y_ g).

(** The property of the path-distance cap as first stated: whatever point
    of the simulation lies within the cap, the path distance that enters
    the final cost is zero. *)
Definition cap_zeroes_every_point (env : Env) (P : Planner)
    (x y theta vx vy vtheta vx_samp vy_samp vtheta_samp
     acc_x acc_y acc_theta impossible_cost : float) (t : Trajectory) : Prop :=
  let num_steps := num_steps_of env P vx_samp vy_samp vtheta_samp in
  let dt := sim_time_ (settings P) / Cpp.int_to_double num_steps in
  let loop := sim_loop env P vx_samp vy_samp vtheta_samp acc_x acc_y acc_theta
                impossible_cost num_steps dt in
  let s0 := initial_sim x y theta vx vy vtheta vx_samp vy_samp vtheta_samp t in
  forall (i : nat) (si sf : Sim),
    (i < Cpp.trip_count num_steps)%nat ->
    loop i 0%Z s0 = Next si ->
    within_cap env P num_steps (Z.of_nat i) si ->
    loop (Cpp.trip_count num_steps) 0%Z s0 = Next sf ->
    path_dist sf = 0.

(** What a caller reads of the trajectory returned: the three velocity
    components and the cost. *)
Definition command_of (t : Trajectory) : float * float * float * float :=
  (xv_ t, yv_ t, thetav_ t, cost_ t).

(** The planner with other contents in its guard and its two buffers. *)
Definition with_state (g : Guard) (b : Buffers) (P : Planner) : Planner :=
  set_buffers b (set_guard g P).

(** Two runs of the sampling tiers that differ in what the buffers held
    at the start: same samples, same pointers, and either both without a
    best yet or both with the same legal best. *)
Definition same_search (l l' : Locals) : Prop :=
  vx_samp l' = vx_samp l /\ vy_samp l' = vy_samp l /\
  vtheta_samp l' = vtheta_samp l /\
  best_traj l' = best_traj l /\ comp_traj l' = comp_traj l /\
  best_traj l <> comp_traj l /\
  ((cost_ (best_of l) = -1 /\ cost_ (best_of l') = -1)
   \/ (Cpp.geb (cost_ (best_of l)) 0 = true /\ best_of l' = best_of l)).

(** ** Notions for the ray tracing *)

(** The cells [lineCost] visits when none of them stops it: the pixel of
    each of [k] iterations. *)
Fixpoint line_cells (r : Raster) (k : nat) (p : Pixel) : list (Z * Z) :=
  match k with
  | O => []
  | S k' => (pixel_x p, pixel_y p) :: line_cells r k' (next_pixel r p)
  end.

Definition ray (x0 x1 y0 y1 : Z) : list (Z * Z) :=
  let r := raster_of x0 x1 y0 y1 in
  line_cells r (Cpp.trip_count (numpixels r + 1)) (mkPixel x0 y0 (num0 r)).

(** A cell whose value is one of the three reserved ones. *)
Definition reserved_cell (env : Env) (cv : CostValues) (c : Z * Z) : bool :=
  let cost := getCost env (fst c) (snd c) in
  ((cost =? LETHAL_OBSTACLE cv) || (cost =? INSCRIBED_INFLATED_OBSTACLE cv)
   || (cost =? NO_INFORMATION cv))%Z%bool.

(** The highest value among cells, 0 for none. *)
Definition highest_cost (env : Env) (cells : list (Z * Z)) : Z :=
  fold_right (fun c m => Z.max (getCost env (fst c) (snd c)) m) 0%Z cells.

(** Each cell of the list is followed by another cell, one of its eight
    neighbours. *)
Fixpoint chain (cells : list (Z * Z)) : Prop :=
  match cells with
  | c :: (d :: _) as rest =>
      (Z.abs (fst d - fst c) <= 1)%Z /\ (Z.abs (snd d - snd c) <= 1)%Z /\
      c <> d /\ chain rest
  | _ => True
  end.

(** The values of an [unsigned char]. *)
Definition bytes : list Z := map Z.of_nat (seq 0 256).

(** The pixel [k] iterations after [p]. *)
Definition pixel_after (r : Raster) (k : nat) (p : Pixel) : Pixel :=
  Cpp.for_n k (next_pixel r) p.

(** ** Notions for [headingDiff] *)

(** The scan of [headingDiff] over the plan of [P], from the locals as
    initialised, and what it leaves in [i_curr_loc] and [index_plan]. *)
Definition heading_scan_start (P : Planner) : HeadingScan :=
  mkHeadingScan 0
    (vec_set (Z.to_nat (plan_size P - 1)) 0
       (repeat 0 (List.length (global_plan_ P))))
    1e3 0%Z.

Definition scanned (env : Env) (P : Planner) (x y : float) : HeadingScan :=
  heading_scan env P (Z.to_nat (plan_size P - 1)) x y (heading_scan_start P).

Definition nearest_index (env : Env) (P : Planner) (x y : float) : Z :=
  i_curr_loc (scanned env P x y).

Definition look_ahead_index (env : Env) (P : Planner) (x y : float) : Z :=
  Z.min (nearest_index env P x y + 1) (plan_size P - 1).

(** The distance from [(x, y)] to the pose [i] of the plan. *)
Definition distance_to_pose (env : Env) (P : Planner) (x y : float)
    (i : nat) : float :=
  let p := nth i (global_plan_ P) default_pose in
  hypot env (position_x p - x) (position_y p - y).

(** What holds of the scan once it has passed the poses [j] to [K - 1]:
    the least distance is at most 1000, none of these poses is nearer,
    and it is 1000 with the index 0, or the distance of one of these
    poses with its index. *)
Definition scan_inv (env : Env) (P : Planner) (x y : float) (K j : nat)
    (h : HeadingScan) : Prop :=
  (1e3 <? dist_to_path_min h) = false /\
  (forall i, (j <= i < K)%nat ->
     (distance_to_pose env P x y i <? dist_to_path_min h) = false) /\
  ((dist_to_path_min h = 1e3 /\ i_curr_loc h = 0%Z) \/
   exists i, (j <= i < K)%nat /\
     dist_to_path_min h = distance_to_pose env P x y i /\
     i_curr_loc h = Z.of_nat i).

(** ** Notions for the search *)

(** A trajectory that is the simulation of some sample from the pose and
    velocity of the call, with the accelerations of the call and the
    obstacle cost of the path grid as the impossible cost. *)
Definition simulated (env : Env) (P : Planner)
    (x y theta vx vy vtheta acc_x acc_y acc_theta : float) (t : Trajectory)
  : Prop :=
  exists a b c buf,
    t = generateTrajectory env P x y theta vx vy vtheta a b c
          acc_x acc_y acc_theta (obstacleCosts (path_map_ P)) buf.

(** What holds of the locals throughout the sampling tiers: the two
    pointers differ, and a best of legal cost is a simulated sample. *)
Definition best_is_simulated (env : Env) (P : Planner)
    (x y theta vx vy vtheta acc_x acc_y acc_theta : float) (l : Locals)
  : Prop :=
  best_traj l <> comp_traj l /\
  (Cpp.geb (cost_ (best_of l)) 0 = true ->
   simulated env P x y theta vx vy vtheta acc_x acc_y acc_theta (best_of l)).

(** The same call made [n] more times, each on the planner the one
    before left. *)
Fixpoint repeated_calls (env : Env) (P : Planner)
    (x y theta vx vy vtheta acc_x acc_y acc_theta : float) (n : nat)
  : Planner * Trajectory :=
  match n with
  | O => createTrajectories env P x y theta vx vy vtheta acc_x acc_y acc_theta
  | S k =>
      createTrajectories env
        (fst (repeated_calls env P x y theta vx vy vtheta
                acc_x acc_y acc_theta k))
        x y theta vx vy vtheta acc_x acc_y acc_theta
  end.

(** ** Notions for the life of a planner *)

(** The calls that change a planner, and a planner after a list of them
    in order. *)
Inductive Call :=
| call_reconfigure (config : BaseLocalPlannerConfig.t)
| call_updatePlan (new_plan : list PoseStamped) (compute_dists : bool)
| call_findBestPath (global_pose global_vel : float * float * float)
| call_createTrajectories
    (x y theta vx vy vtheta acc_x acc_y acc_theta : float).

Definition after_call (env : Env) (P : Planner) (c : Call) : Planner :=
  match c with
  | call_reconfigure config => fst (reconfigure env P config)
  | call_updatePlan new_plan compute_dists =>
      updatePlan env P new_plan compute_dists
  | call_findBestPath global_pose global_vel =>
      fst (fst (findBestPath env P global_pose global_vel))
  | call_createTrajectories x y theta vx vy vtheta acc_x acc_y acc_theta =>
      fst (createTrajectories env P x y theta vx vy vtheta
             acc_x acc_y acc_theta)
  end.

Definition after_calls (env : Env) (P : Planner) (calls : list Call)
  : Planner :=
  fold_left (after_call env) calls P.

(** Each stuck flag is set only with the committed flag of its
    direction. *)
Definition stuck_implies_committed (g : Guard) : Prop :=
  (stuck_left g = true -> rotating_left g = true) /\
  (stuck_right g = true -> rotating_right g = true) /\
  (stuck_left_strafe g = true -> strafe_left g = true) /\
  (stuck_right_strafe g = true -> strafe_right g = true).

(** Settings with other values in the five members that no function of
    the planner reads. *)
Definition with_unread (min_vel_y heading_lookahead
    heading_scoring_timestep : float) (y_vels : list float)
    (stop_time_buffer : float) (s : Settings) : Settings :=
  mkSettings (acc_lim_x_ s) (acc_lim_y_ s) (acc_lim_theta_ s)
    (max_vel_x_ s) (min_vel_x_ s) (max_vel_y_ s) min_vel_y
    (max_vel_th_ s) (min_vel_th_ s) (min_in_place_vel_th_ s)
    (sim_time_ s) (sim_granularity_ s) (angular_sim_granularity_ s)
    (pdist_scale_ s) (gdist_scale_ s) (occdist_scale_ s) (hdiff_scale_ s)
    (path_distance_max_ s) (meter_scoring_ s)
    (oscillation_reset_dist_ s) (escape_reset_dist_ s)
    (escape_reset_theta_ s)
    (vx_samples_ s) (vy_samples_ s) (vtheta_samples_ s)
    heading_lookahead (holonomic_robot_ s) (backup_vel_ s) (dwa_ s)
    (heading_scoring_ s) heading_scoring_timestep (simple_attractor_ s)
    y_vels stop_time_buffer (sim_period_ s).

(** What holds of the locals throughout the sampling tiers of a base
    that is not holonomic: the lateral sample is zero, the two pointers
    differ, and a best of legal cost has no lateral velocity. *)
Definition no_lateral_sample (l : Locals) : Prop :=
  vy_samp l = 0 /\ best_traj l <> comp_traj l /\
  (Cpp.geb (cost_ (best_of l)) 0 = true -> yv_ (best_of l) = 0).

(** ** A test world

    A ten by ten metre map of one-metre cells with no cost anywhere, a
    footprint check that answers the same cost at every pose, and the
    kinematics of the headers.  The statements proved on concrete inputs
    below run the planner in this world. *)

Module Scenario.

(** Stand-ins for libm's [cos] and [sin]: Taylor polynomials.  The
    scenarios start at heading 0 and simulate at most two steps, so that
    every pose that is scored or recorded is computed from the cosine and
    sine of 0, where the polynomials are exact. *)
Definition approx_cos (a : float) : float :=
  let a2 := a * a in
  1 - a2 / 2 * (1 - a2 / 12 * (1 - a2 / 30 * (1 - a2 / 56))).

Definition approx_sin (a : float) : float :=
  let a2 := a * a in
  a * (1 - a2 / 6 * (1 - a2 / 20 * (1 - a2 / 42 * (1 - a2 / 72)))).

(** Modelled from the spec: the inline helper [computeNewVelocity] of
    [trajectory_planner.h], which is not under src/.  Each velocity moves
    toward the sample by at most [a_max * dt]. *)
Definition spec_computeNewVelocity (vg vi a_max dt : float) : float :=
  if Cpp.geb (vg - vi) 0 then Cpp.min vg (vi + a_max * dt)
  else Cpp.max vg (vi - a_max * dt).

(** Modelled from the spec: the inline helpers [computeNewXPosition],
    [computeNewYPosition] and [computeNewThetaPosition] of
    [trajectory_planner.h], which is not under src/. *)
Definition spec_computeNewXPosition (xi vx vy theta dt : float) : float :=
  xi + (vx * approx_cos theta - vy * approx_sin theta) * dt.

Definition spec_computeNewYPosition (yi vx vy theta dt : float) : float :=
  yi + (vx * approx_sin theta + vy * approx_cos theta) * dt.

Definition spec_computeNewThetaPosition (thetai vth dt : float) : float :=
  thetai + vth * dt.

(** The costmap's [worldToMap]: origin (0, 0), resolution 1, 10 x 10. *)
Definition grid_worldToMap (wx wy : float) : option (Z * Z) :=
  if ((0 <=? wx) && (wx <? 10) && (0 <=? wy) && (wy <? 10))%bool
  then Some (Cpp.double_to_int wx, Cpp.double_to_int wy) else None.

(** [Trajectory()]: zero velocity, cost -1. *)
Definition zero_trajectory : Trajectory := mkTrajectory 0 0 0 (-1) 0 0 [].

(** Modelled from the spec: [MapGrid::setLocalGoal], which is not under
    src/.  The goal grid is seeded from the final pose of the path, which
    the grid it is called on records as its anchor.  The distances are
    left as they are: the grids of the scenarios are given as the cycle
    computes them for the scenario's map and plan, so that resetting and
    seeding them again changes nothing. *)
Definition spec_setLocalGoal (plan : list PoseStamped) (g : MapGrid)
  : MapGrid :=
  match rev plan with
  | final :: _ =>
      mkMapGrid (cell g) (position_x final) (position_y final)
        (obstacleCosts g)
  | [] => g
  end.

(** The world, with [fc] the footprint cost of every pose.  [hypot] is
    the square root of the sum of squares: exact where the scenarios
    compute with its value (one argument is then 0), and otherwise only
    compared with reset distances it is far from; the plan has the identity
    orientation, of yaw 0; the angles stay within a half turn, where the
    shortest angular distance is the difference; the poses are
    single-precision numbers, which the narrowing to [float] leaves as
    they are. *)
Definition env_of (fc : float) : Env :=
  mkEnv (fun a b => PrimFloat.sqrt (a * a + b * b)) (fun a b => b - a)
    (fun _ => 0)
    grid_worldToMap (fun _ _ => 0%Z) 1 (fun _ _ _ => fc)
    spec_computeNewVelocity spec_computeNewXPosition spec_computeNewYPosition
    spec_computeNewThetaPosition zero_trajectory 0 0 (fun _ => [])
    (fun g => g) (fun _ g => g) spec_setLocalGoal (fun _ _ _ => [])
    (fun v => v).

Definition free_world : Env := env_of 0.
Definition blocked_world : Env := env_of (-1).

(** The settings: forward velocities up to 1, three samples per axis, a
    backup speed of -0.125, a horizon of one second in steps of 0.5; with
    the dynamic window on or off, the path-distance cap and the least
    forward velocity as given. *)
Definition settings_of (dwa : bool) (path_distance_max min_vel_x : float)
  : Settings :=
  mkSettings 1 1 1  1 min_vel_x  0.5 (-0.5)  1 (-1) 0.5
    1 0.5 0.5  0.5 1 0.25 1  path_distance_max false
    0.0625 0.125 1.5  3 3 3  0.25 false (-0.125) dwa false 0 false []
    0.25 0.125.

(** A goal grid that falls toward the goal from column 4 on, and is
    level (3) on the columns before. *)
Definition plateau_grid : MapGrid :=
  mkMapGrid
    (fun cx _ =>
       mkMapCell (if (4 <=? cx)%Z then Cpp.int_to_double (10 - cx) else 3)
         false)
    0 0 100.

(** A path grid at distance 1 everywhere, and one at distance 1 on the
    columns 0 and 1 and at distance 5 beyond. *)
Definition flat_grid : MapGrid :=
  mkMapGrid (fun _ _ => mkMapCell 1 false) 0 0 100.

Definition band_grid : MapGrid :=
  mkMapGrid (fun cx _ => mkMapCell (if (cx <? 2)%Z then 1 else 5) false)
    0 0 100.

Definition goal_pose : PoseStamped :=
  mkPoseStamped 9.5 1.5 (mkQuaternion 1 0 0 0).

Definition quiet_guard (px py : float) : Guard :=
  mkGuard false false false false false false false false px py 0 0 0 false.

(** A planner with the one-pose plan [goal_pose] and fresh buffers. *)
Definition planner_of (s : Settings) (path_grid : MapGrid) (g : Guard)
  : Planner :=
  mkPlanner s [goal_pose] 9.5 1.5 true path_grid plateau_grid g
    (mkBuffers zero_trajectory zero_trajectory).

Definition planner0 : Planner :=
  planner_of (settings_of false 0 0.125) flat_grid (quiet_guard 0 0).

(** The same, with (1.5, 1.5) as the anchor of the guard. *)
Definition planner_anchored : Planner :=
  planner_of (settings_of false 0 0.125) flat_grid (quiet_guard 1.5 1.5).

(** The same as [planner0], with the dynamic window on. *)
Definition planner_dwa : Planner :=
  planner_of (settings_of true 0 0.125) flat_grid (quiet_guard 0 0).

(** The same as [planner0], with a path-distance cap of 2 and the path
    grid [band_grid]. *)
Definition planner_cap : Planner :=
  planner_of (settings_of false 2 0.125) band_grid (quiet_guard 0 0).

(** The same as [planner0], for a base that may reverse at 0.125, with
    the rotating-right flag set and (5.9375, 1.5) as the anchor. *)
Definition planner_reversing : Planner :=
  planner_of (settings_of false 0 (-0.125)) flat_grid
    (set_rotating_right true (quiet_guard 5.9375 1.5)).

(** One planning call at rest at the pose [(px, py, 0)], with unit
    acceleration limits. *)
Definition plan_at_rest (env : Env) (P : Planner) (px py : float)
  : Planner * Trajectory :=
  createTrajectories env P px py 0 0 0 0 1 1 1.

(** A configuration that asks for no sample on the lateral axis. *)
Definition config_no_y_samples : BaseLocalPlannerConfig.t :=
  BaseLocalPlannerConfig.mk 1 1 1  1 0.125  0.5 (-0.5)  1 (-1) 0.5
    1 0.5 0.5  0.5 1 0.25 1  0  0.0625 0.125 1.5  3 0 3
    0.25 true (-0.125) false false 0 false EmptyString.

End Scenario.

(** ** A costmap with an obstacle

    The world of [Scenario.free_world] with a costmap that has a lethal
    cell at (2, 1), the value 50 on the rest of column 1 and row 3 and
    no cost elsewhere. *)

Module CostmapScenario.

Definition cost_values : CostValues := mkCostValues 254 253 255.

Definition cell_cost (x y : Z) : Z :=
  if ((x =? 2) && (y =? 1))%Z%bool then 254%Z
  else if ((x =? 1) || (y =? 3))%Z%bool then 50%Z
  else 0%Z.

Definition world : Env :=
  mkEnv (hypot Scenario.free_world)
    (shortest_angular_distance Scenario.free_world)
    (getEulerYaw Scenario.free_world)
    (worldToMap Scenario.free_world) cell_cost
    (getResolution Scenario.free_world)
    (world_footprintCost Scenario.free_world)
    (computeNewVelocity Scenario.free_world)
    (computeNewXPosition Scenario.free_world)
    (computeNewYPosition Scenario.free_world)
    (computeNewThetaPosition Scenario.free_world)
    (fresh_trajectory Scenario.free_world)
    (indeterminate_min_vel_x Scenario.free_world)
    (indeterminate_min_vel_y Scenario.free_world)
    (parse_y_vels Scenario.free_world)
    (resetPathDist Scenario.free_world)
    (setTargetCells Scenario.free_world)
    (setLocalGoal Scenario.free_world)
    (getFootprintCells Scenario.free_world)
    (to_single Scenario.free_world).

End CostmapScenario.

(** ** Planners in the other scoring modes

    The planner [Scenario.planner0] with heading scoring or the simple
    attractor switched on. *)

Module ModeScenario.

Definition settings_with (heading_scoring simple_attractor : bool)
  : Settings :=
  mkSettings 1 1 1  1 0.125  0.5 (-0.5)  1 (-1) 0.5
    1 0.5 0.5  0.5 1 0.25 1  0 false
    0.0625 0.125 1.5  3 3 3  0.25 false (-0.125) false heading_scoring 0
    simple_attractor [] 0.25 0.125.

Definition planner_heading : Planner :=
  Scenario.planner_of (settings_with true false) Scenario.flat_grid
    (Scenario.quiet_guard 0 0).

Definition planner_attractor : Planner :=
  Scenario.planner_of (settings_with false true) Scenario.flat_grid
    (Scenario.quiet_guard 0 0).

End ModeScenario.

(** * Properties *)

(** ** Failure sentinels of [generateTrajectory] *)

Lemma sentinel_negative (c : Cause) : (sentinel c <? 0) = true.
Proof. destruct c; reflexivity. Qed.

Lemma sentinel_injective (c1 c2 : Cause) :
  sentinel c1 = sentinel c2 -> c1 = c2.
Proof.
  destruct c1, c2; simpl; intros H; try reflexivity;
    apply (f_equal (fun f => (f <? -4.5, f <? -3))) in H;
    vm_compute in H; discriminate.
Qed.

Section SimulationFacts.

Variable env : Env.
Variable P : Planner.
Variables vx_samp vy_samp vtheta_samp acc_x acc_y acc_theta : float.
Variable impossible_cost : float.
Variable num_steps : Z.
Variable dt : float.

Let body := sim_body env P vx_samp vy_samp vtheta_samp acc_x acc_y acc_theta
              impossible_cost num_steps dt.
Let loop := sim_loop env P vx_samp vy_samp vtheta_samp acc_x acc_y acc_theta
              impossible_cost num_steps dt.

(** An illegal point ends the simulation with the sentinel of its cause,
    on the trajectory as it stood. *)
Lemma sim_body_failure (i : Z) (s : Sim) (c : Cause) :
  failure_at env P impossible_cost num_steps i s = Some c ->
  body i s = Return (set_cost (sentinel c) (traj s)).
Proof.
  unfold failure_at, evaluated_distances, body, sim_body.
  destruct (worldToMap env (x_i s) (y_i s)) as [[cx cy]|].
  2:{ intros H; injection H as <-; reflexivity. }
  destruct (headingDiff env P cx cy (x_i s) (y_i s) (theta_i s))
    as [[h g] p].
  destruct (footprintCost env (x_i s) (y_i s) (theta_i s) <? 0).
  { intros H; injection H as <-; reflexivity. }
  destruct (simple_attractor_ (settings P)); [discriminate|].
  destruct (heading_scoring_ (settings P)); simpl.
  - rewrite andb_true_r.
    destruct (i =? num_steps - 1)%Z; [|discriminate].
    destruct ((impossible_cost <=? g) || (impossible_cost <=? p))%bool;
      [|discriminate].
    intros H; injection H as <-; reflexivity.
  - rewrite andb_false_r.
    destruct ((impossible_cost <=?
                 target_dist (cell (goal_map_ P) cx cy))
              || (impossible_cost <=?
                    target_dist (cell (path_map_ P) cx cy)))%bool;
      [|discriminate].
    intros H; injection H as <-; reflexivity.
Qed.

(** A legal point is recorded, and the simulation goes on. *)
Lemma sim_body_legal (i : Z) (s : Sim) :
  failure_at env P impossible_cost num_steps i s = None ->
  exists s', body i s = Next s' /\
    points_ (traj s') = points_ (traj s) ++ [(x_i s, y_i s, theta_i s)].
Proof.
  unfold failure_at, evaluated_distances, body, sim_body.
  destruct (worldToMap env (x_i s) (y_i s)) as [[cx cy]|]; [|discriminate].
  destruct (headingDiff env P cx cy (x_i s) (y_i s) (theta_i s))
    as [[h g] p].
  destruct (footprintCost env (x_i s) (y_i s) (theta_i s) <? 0);
    [discriminate|].
  destruct (simple_attractor_ (settings P)).
  { intros _. eexists; split; [reflexivity|reflexivity]. }
  destruct (heading_scoring_ (settings P)); simpl.
  - rewrite andb_true_r.
    destruct (i =? num_steps - 1)%Z.
    + destruct ((impossible_cost <=? g) || (impossible_cost <=? p))%bool;
        [discriminate|].
      intros _. eexists; split; [reflexivity|].
      simpl. destruct (meter_scoring_ (settings P)); reflexivity.
    + intros _. eexists; split; reflexivity.
  - rewrite andb_false_r.
    destruct ((impossible_cost <=?
                 target_dist (cell (goal_map_ P) cx cy))
              || (impossible_cost <=?
                    target_dist (cell (path_map_ P) cx cy)))%bool;
      [discriminate|].
    intros _. eexists; split; [reflexivity|].
    simpl. destruct (meter_scoring_ (settings P)); reflexivity.
Qed.

(** The loop unrolled at its last iteration. *)
Lemma sim_loop_last (k : nat) (j : Z) (s : Sim) :
  loop (S k) j s =
  match loop k j s with
  | Next s' => body (j + Z.of_nat k)%Z s'
  | Return t => Return t
  end.
Proof.
  revert j s. induction k as [|k IH]; intros j s.
  - simpl. rewrite Z.add_0_r. unfold body. destruct (sim_body _ _ _ _ _ _ _ _ _ _ _ _); reflexivity.
  - change (loop (S (S k)) j s) with
      (match body j s with
       | Next s' => loop (S k) (j + 1)%Z s'
       | Return t => Return t
       end).
    change (loop (S k) j s) with
      (match body j s with
       | Next s' => loop k (j + 1)%Z s'
       | Return t => Return t
       end).
    destruct (body j s) as [s'|t]; [|reflexivity].
    rewrite IH. replace (j + 1 + Z.of_nat k)%Z with (j + Z.of_nat (S k))%Z by lia.
    reflexivity.
Qed.

(** The loop either passes [k] legal points, or stops at the first
    illegal one with the sentinel of its cause. *)
Lemma sim_loop_outcome (k : nat) (s : Sim) :
  (exists s', loop k 0%Z s = Next s' /\
     List.length (points_ (traj s')) = (List.length (points_ (traj s)) + k)%nat /\
     forall i, (i < k)%nat -> exists si,
       loop i 0%Z s = Next si /\
       failure_at env P impossible_cost num_steps (Z.of_nat i) si = None)
  \/
  (exists i si c, (i < k)%nat /\
     loop i 0%Z s = Next si /\
     (forall j, (j < i)%nat -> exists sj,
        loop j 0%Z s = Next sj /\
        failure_at env P impossible_cost num_steps (Z.of_nat j) sj = None) /\
     failure_at env P impossible_cost num_steps (Z.of_nat i) si = Some c /\
     List.length (points_ (traj si)) = (List.length (points_ (traj s)) + i)%nat /\
     loop k 0%Z s = Return (set_cost (sentinel c) (traj si))).
Proof.
  induction k as [|k IH].
  - left. exists s. split; [reflexivity|].
    split; [lia|]. intros i Hi; lia.
  - destruct IH as [(s' & Hk & Hlen & Hall)|(i & si & c & Hi & Hsi & Hbefore & Hf & Hlen & Hk)].
    + destruct (failure_at env P impossible_cost num_steps (Z.of_nat k) s')
        as [c|] eqn:Hf.
      * right. exists k, s', c. repeat split; try assumption; try lia.
        rewrite sim_loop_last, Hk. simpl.
        now apply sim_body_failure.
      * left. destruct (sim_body_legal _ _ Hf) as (s'' & Hb & Hp).
        exists s''. split.
        { rewrite sim_loop_last, Hk. exact Hb. }
        split.
        { rewrite Hp, length_app, Hlen. simpl. lia. }
        intros i Hi. destruct (Nat.eq_dec i k) as [->|Hne].
        { exists s'. split; assumption. }
        apply Hall. lia.
    + right. exists i, si, c. repeat split; try assumption; try lia.
      rewrite sim_loop_last, Hk. reflexivity.
Qed.

End SimulationFacts.

(** C4: [generateTrajectory] is a total function that reports a failure
    through the cost of the output trajectory alone.  It returns at the
    first illegal point of the simulation, and the cost is then the
    sentinel of the cause: -4 when the pose is off the map, -5 when the
    footprint cost is negative, -2 when the path or goal distance read at
    the point reaches the impossible cost.  The three sentinels are
    negative and pairwise different.  When every point is legal the
    trajectory is finished with the weighted sum. *)
Theorem generateTrajectory_failure_sentinels (env : Env) (P : Planner)
    (x y theta vx vy vtheta vx_samp vy_samp vtheta_samp
     acc_x acc_y acc_theta impossible_cost : float) (t : Trajectory) :
  let num_steps := num_steps_of env P vx_samp vy_samp vtheta_samp in
  let dt := sim_time_ (settings P) / Cpp.int_to_double num_steps in
  let loop := sim_loop env P vx_samp vy_samp vtheta_samp acc_x acc_y acc_theta
                impossible_cost num_steps dt in
  let s0 := initial_sim x y theta vx vy vtheta vx_samp vy_samp vtheta_samp t in
  let legal_before (i : nat) :=
    forall j, (j < i)%nat -> exists sj,
      loop j 0%Z s0 = Next sj /\
      failure_at env P impossible_cost num_steps (Z.of_nat j) sj = None in
  let r := generateTrajectory env P x y theta vx vy vtheta
             vx_samp vy_samp vtheta_samp acc_x acc_y acc_theta
             impossible_cost t in
  (forall c, (sentinel c <? 0) = true) /\
  (forall c1 c2, sentinel c1 = sentinel c2 -> c1 = c2) /\
  ((exists s,
      loop (Cpp.trip_count num_steps) 0%Z s0 = Next s /\
      legal_before (Cpp.trip_count num_steps) /\
      r = finish_trajectory P s)
   \/
   (exists i si c,
      (i < Cpp.trip_count num_steps)%nat /\
      loop i 0%Z s0 = Next si /\
      legal_before i /\
      failure_at env P impossible_cost num_steps (Z.of_nat i) si = Some c /\
      r = set_cost (sentinel c) (traj si) /\
      cost_ r = sentinel c /\
      List.length (points_ r) = i)).
Proof.
  intros num_steps dt loop s0 legal_before r.
  split; [exact sentinel_negative|].
  split; [exact sentinel_injective|].
  destruct (sim_loop_outcome env P vx_samp vy_samp vtheta_samp acc_x acc_y
              acc_theta impossible_cost num_steps dt
              (Cpp.trip_count num_steps) s0)
    as [(s & Hs & _ & Hall)|(i & si & c & Hi & Hsi & Hbefore & Hf & Hlen & Hk)].
  - left. exists s. split; [exact Hs|]. split; [exact Hall|].
    unfold r, generateTrajectory, run_simulation.
    unfold loop, s0, dt, num_steps in Hs. rewrite Hs. reflexivity.
  - right. exists i, si, c.
    assert (Hr : r = set_cost (sentinel c) (traj si)).
    { unfold r, generateTrajectory, run_simulation.
      unfold loop, s0, dt, num_steps in Hk. rewrite Hk. reflexivity. }
    repeat split; try assumption.
    + rewrite Hr. reflexivity.
    + rewrite Hr. simpl. rewrite Hlen. reflexivity.
Qed.

(** ** The output trajectory and the buffer it is written to *)

Section BufferIndependence.

Variable env : Env.
Variable P : Planner.

Lemma sim_body_with_goal_cost
    (vxs vys vths ax ay ath imp : float) (n : Z) (dt g : float)
    (i : Z) (s : Sim) :
  sim_body env P vxs vys vths ax ay ath imp n dt i (with_goal_cost g s) =
  step_with_goal_cost g (sim_body env P vxs vys vths ax ay ath imp n dt i s).
Proof.
  unfold sim_body. cbn [x_i y_i theta_i with_goal_cost].
  destruct (worldToMap env (x_i s) (y_i s)) as [[cx cy]|]; [|reflexivity].
  destruct (headingDiff env P cx cy (x_i s) (y_i s) (theta_i s))
    as [[h gd] pd].
  destruct (footprintCost env (x_i s) (y_i s) (theta_i s) <? 0);
    [reflexivity|].
  destruct (simple_attractor_ (settings P)); [reflexivity|].
  destruct (heading_scoring_ (settings P)), (i =? n - 1)%Z; simpl;
    repeat match goal with
    | |- context [if ?b then _ else _] => destruct b
    end; reflexivity.
Qed.

Lemma sim_loop_with_goal_cost
    (vxs vys vths ax ay ath imp : float) (n : Z) (dt g : float)
    (k : nat) (i : Z) (s : Sim) :
  sim_loop env P vxs vys vths ax ay ath imp n dt k i (with_goal_cost g s) =
  step_with_goal_cost g
    (sim_loop env P vxs vys vths ax ay ath imp n dt k i s).
Proof.
  revert i s. induction k as [|k IH]; intros i s; [reflexivity|].
  cbn [sim_loop]. rewrite sim_body_with_goal_cost.
  destruct (sim_body env P vxs vys vths ax ay ath imp n dt i s) as [s'|t];
    [|reflexivity].
  cbn [step_with_goal_cost]. apply IH.
Qed.

Lemma initial_sim_with_goal_cost
    (x y theta vx vy vtheta vxs vys vths : float) (t t' : Trajectory) :
  initial_sim x y theta vx vy vtheta vxs vys vths t' =
  with_goal_cost (goal_cost_traj_ t')
    (initial_sim x y theta vx vy vtheta vxs vys vths t).
Proof. reflexivity. Qed.

(** A returned (unfinished) trajectory carries a sentinel, which is not a
    legal cost. *)
Lemma run_simulation_return
    (x y theta vx vy vtheta vxs vys vths ax ay ath imp : float)
    (t r : Trajectory) :
  run_simulation env P x y theta vx vy vtheta vxs vys vths ax ay ath imp t
    = Return r ->
  exists c, cost_ r = sentinel c.
Proof.
  unfold run_simulation. intros H.
  destruct (sim_loop_outcome env P vxs vys vths ax ay ath imp
              (num_steps_of env P vxs vys vths)
              (sim_time_ (settings P)
               / Cpp.int_to_double (num_steps_of env P vxs vys vths))
              (Cpp.trip_count (num_steps_of env P vxs vys vths))
              (initial_sim x y theta vx vy vtheta vxs vys vths t))
    as [(s & Hs & _)|(i & si & c & _ & _ & _ & _ & _ & Hk)].
  - rewrite Hs in H. discriminate.
  - rewrite Hk in H. injection H as <-. exists c. reflexivity.
Qed.

Lemma sentinel_not_legal (c : Cause) : Cpp.geb (sentinel c) 0 = false.
Proof. destruct c; reflexivity. Qed.

(** Written to another buffer, the output differs at most in the goal
    cost, and not at all when the cost is legal. *)
Lemma generateTrajectory_buffer
    (x y theta vx vy vtheta vxs vys vths ax ay ath imp : float)
    (t t' : Trajectory) :
  let r := generateTrajectory env P x y theta vx vy vtheta vxs vys vths
             ax ay ath imp t in
  let r' := generateTrajectory env P x y theta vx vy vtheta vxs vys vths
              ax ay ath imp t' in
  xv_ r' = xv_ r /\ yv_ r' = yv_ r /\ thetav_ r' = thetav_ r /\
  cost_ r' = cost_ r /\
  (Cpp.geb (cost_ r) 0 = true -> r' = r) /\
  (goal_cost_traj_ t' = goal_cost_traj_ t -> r' = r).
Proof.
  intros r r'.
  assert (Hrun :
    run_simulation env P x y theta vx vy vtheta vxs vys vths ax ay ath imp t'
    = step_with_goal_cost (goal_cost_traj_ t')
        (run_simulation env P x y theta vx vy vtheta vxs vys vths
           ax ay ath imp t)).
  { unfold run_simulation.
    rewrite (initial_sim_with_goal_cost x y theta vx vy vtheta vxs vys vths
               t t').
    apply sim_loop_with_goal_cost. }
  unfold r, r', generateTrajectory. rewrite Hrun.
  destruct (run_simulation env P x y theta vx vy vtheta vxs vys vths
              ax ay ath imp t) as [s|u] eqn:Hu; cbn [step_with_goal_cost].
  - repeat split; reflexivity.
  - repeat split; try reflexivity.
    + destruct (run_simulation_return _ _ _ _ _ _ _ _ _ _ _ _ _ _ _ Hu)
        as [c Hc].
      rewrite Hc, sentinel_not_legal. discriminate.
    + intros Hg.
      assert (Hgu : goal_cost_traj_ u = goal_cost_traj_ t).
      { revert Hu. unfold run_simulation.
        generalize (initial_sim_with_goal_cost x y theta vx vy vtheta
                      vxs vys vths
                      (set_goal_cost_traj 0 t) t).
        intros Hinit.
        rewrite Hinit, sim_loop_with_goal_cost.
        destruct (sim_loop _ _ _ _ _ _ _ _ _ _ _ _ _ _) as [s|w];
          cbn [step_with_goal_cost]; [discriminate|].
        intros H; injection H as <-. reflexivity. }
      rewrite Hg, <- Hgu. destruct u; reflexivity.
Qed.

End BufferIndependence.

(** ** [checkTrajectory] and [scoreTrajectory] *)

(** C10: [checkTrajectory] answers true exactly when [scoreTrajectory]
    on the same arguments is at least zero, and [scoreTrajectory] is the
    cost [generateTrajectory] assigns, with the planner's stored
    acceleration limits and the obstacle cost of the path grid as the
    impossible cost, to a fresh trajectory: indeed to any trajectory it is
    handed. *)
Theorem checkTrajectory_scoreTrajectory (env : Env) (P : Planner)
    (x y theta vx vy vtheta vx_samp vy_samp vtheta_samp : float) :
  (checkTrajectory env P x y theta vx vy vtheta vx_samp vy_samp vtheta_samp
   = true
   <-> Cpp.geb (scoreTrajectory env P x y theta vx vy vtheta
                  vx_samp vy_samp vtheta_samp) 0 = true) /\
  scoreTrajectory env P x y theta vx vy vtheta vx_samp vy_samp vtheta_samp
  = cost_ (generateTrajectory env P x y theta vx vy vtheta
             vx_samp vy_samp vtheta_samp
             (acc_lim_x_ (settings P)) (acc_lim_y_ (settings P))
             (acc_lim_theta_ (settings P))
             (obstacleCosts (path_map_ P)) (fresh_trajectory env)) /\
  forall t : Trajectory,
    scoreTrajectory env P x y theta vx vy vtheta vx_samp vy_samp vtheta_samp
    = cost_ (generateTrajectory env P x y theta vx vy vtheta
               vx_samp vy_samp vtheta_samp
               (acc_lim_x_ (settings P)) (acc_lim_y_ (settings P))
               (acc_lim_theta_ (settings P))
               (obstacleCosts (path_map_ P)) t).
Proof.
  split; [|split].
  - unfold checkTrajectory.
    destruct (Cpp.geb (scoreTrajectory env P x y theta vx vy vtheta
                         vx_samp vy_samp vtheta_samp) 0);
      split; intros H; (reflexivity || discriminate).
  - reflexivity.
  - intros t. unfold scoreTrajectory.
    symmetry.
    apply (generateTrajectory_buffer env P x y theta vx vy vtheta
             vx_samp vy_samp vtheta_samp
             (acc_lim_x_ (settings P)) (acc_lim_y_ (settings P))
             (acc_lim_theta_ (settings P)) (obstacleCosts (path_map_ P))
             (fresh_trajectory env) t).
Qed.

(** ** The sampling tiers *)

Lemma load_store_same (p : TrajPtr) (t : Trajectory) (b : Buffers) :
  load (store p t b) p = t.
Proof. destruct p; reflexivity. Qed.

Lemma load_store_other (p q : TrajPtr) (t : Trajectory) (b : Buffers) :
  p <> q -> load (store p t b) q = load b q.
Proof. destruct p, q; intros H; try reflexivity; now elim H. Qed.

Lemma for_n_invariant {A : Type} (I : A -> Prop) (body : A -> A) :
  (forall a, I a -> I (body a)) ->
  forall n a, I a -> I (Cpp.for_n n body a).
Proof.
  intros Hbody n. induction n as [|n IH]; intros a Ha; simpl.
  - exact Ha.
  - apply IH, Hbody, Ha.
Qed.

Section SearchFacts.

Variable env : Env.
Variable P : Planner.
Variables x y theta vx vy vtheta acc_x acc_y acc_theta : float.

Let ref := current_pos_traj env P x y theta vx vy vtheta acc_x acc_y acc_theta.
Let inv := search_inv P ref.
Let gen := generate_into_comp env P x y theta vx vy vtheta
             acc_x acc_y acc_theta.

Lemma gen_pointers (a b c : float) (l : Locals) :
  best_traj (gen a b c l) = best_traj l /\
  comp_traj (gen a b c l) = comp_traj l /\
  vx_samp (gen a b c l) = vx_samp l /\
  vy_samp (gen a b c l) = vy_samp l /\
  vtheta_samp (gen a b c l) = vtheta_samp l.
Proof. repeat split. Qed.

Lemma gen_best (a b c : float) (l : Locals) :
  best_traj l <> comp_traj l -> best_of (gen a b c l) = best_of l.
Proof.
  intros H. unfold best_of, gen, generate_into_comp. cbn [bufs best_traj].
  apply load_store_other. congruence.
Qed.

Lemma gen_comp (a b c : float) (l : Locals) :
  comp_of (gen a b c l) =
  generateTrajectory env P x y theta vx vy vtheta a b c acc_x acc_y acc_theta
    (impossible_cost P) (comp_of l).
Proof.
  unfold comp_of, gen, generate_into_comp. cbn [bufs comp_traj].
  apply load_store_same.
Qed.

Lemma is_better_may_replace (comp best : Trajectory) :
  is_better env P x y theta vx vy vtheta acc_x acc_y acc_theta comp best
  = true ->
  may_replace ref comp best.
Proof.
  unfold is_better, may_replace. intros H.
  apply andb_prop in H as [H Hg]. apply andb_prop in H as [Hc Hb].
  apply orb_prop in Hb. auto.
Qed.

Lemma is_better_in_place_may_replace (vth : float)
    (comp best : Trajectory) :
  is_better_in_place env P x y theta vx vy vtheta acc_x acc_y acc_theta
    vth comp best = true ->
  may_replace ref comp best.
Proof.
  unfold is_better_in_place, may_replace. intros H.
  apply andb_prop in H as [H Hg]. apply andb_prop in H as [H _].
  apply andb_prop in H as [Hc Hb].
  split; [exact Hc|]. split; [|exact Hg].
  apply orb_prop in Hb as [Hb|Hb].
  - apply orb_prop in Hb as [Hb|Hb]; [|now right].
    apply andb_prop in Hb as [Hb _]. now left.
  - apply andb_prop in Hb as [_ Hb]. now left.
Qed.

(** A step of the translate/rotate and strafe sweeps: the best stays, or
    the candidate just simulated replaces it under [may_replace]. *)
Lemma sample_step (l : Locals) :
  best_traj l <> comp_traj l ->
  let l' := sample env P x y theta vx vy vtheta acc_x acc_y acc_theta l in
  (best_traj l' = best_traj l /\ comp_traj l' = comp_traj l /\
   best_of l' = best_of l)
  \/
  (best_traj l' = comp_traj l /\ comp_traj l' = best_traj l /\
   best_of l' = generateTrajectory env P x y theta vx vy vtheta
                  (vx_samp l) (vy_samp l) (vtheta_samp l)
                  acc_x acc_y acc_theta (impossible_cost P) (comp_of l) /\
   may_replace ref (best_of l') (best_of l)).
Proof.
  intros Hne l'. unfold l', sample.
  fold (gen (vx_samp l) (vy_samp l) (vtheta_samp l) l).
  pose proof (gen_best (vx_samp l) (vy_samp l) (vtheta_samp l) l Hne) as Hb.
  pose proof (gen_comp (vx_samp l) (vy_samp l) (vtheta_samp l) l) as Hc.
  destruct (is_better _ _ _ _ _ _ _ _ _ _ _ _ _) eqn:Hbetter.
  - right. apply is_better_may_replace in Hbetter.
    rewrite Hb in Hbetter.
    change (best_of (swap_best (gen (vx_samp l) (vy_samp l)
                                  (vtheta_samp l) l)))
      with (comp_of (gen (vx_samp l) (vy_samp l) (vtheta_samp l) l)).
    repeat split; try assumption; apply Hbetter.
  - left. repeat split. exact Hb.
Qed.

(** A step of the in-place rotation sweep, likewise. *)
Lemma in_place_step (l : Locals) :
  best_traj l <> comp_traj l ->
  let l' := in_place_body env P x y theta vx vy vtheta
              acc_x acc_y acc_theta l in
  (best_traj l' = best_traj l /\ comp_traj l' = comp_traj l /\
   best_of l' = best_of l)
  \/
  (best_traj l' = comp_traj l /\ comp_traj l' = best_traj l /\
   (exists vth,
      best_of l' = generateTrajectory env P x y theta vx vy vtheta
                     (vx_samp l) (vy_samp l) vth
                     acc_x acc_y acc_theta (impossible_cost P) (comp_of l)) /\
   may_replace ref (best_of l') (best_of l)).
Proof.
  intros Hne l'. unfold l', in_place_body.
  set (vth := if Cpp.gtb (vtheta_samp l) 0 then _ else _).
  fold (gen (vx_samp l) (vy_samp l) vth l).
  pose proof (gen_best (vx_samp l) (vy_samp l) vth l Hne) as Hb.
  pose proof (gen_comp (vx_samp l) (vy_samp l) vth l) as Hc.
  destruct (is_better_in_place _ _ _ _ _ _ _ _ _ _ _ _ _ _) eqn:Hbetter.
  - right. apply is_better_in_place_may_replace in Hbetter.
    rewrite Hb in Hbetter.
    change (best_of (set_vtheta_samp ?v (swap_best ?m)))
      with (comp_of m).
    repeat split; try assumption; try apply Hbetter.
    exists vth. exact Hc.
  - left. repeat split. exact Hb.
Qed.

Lemma search_inv_distinct (l : Locals) :
  inv l -> best_traj l <> comp_traj l.
Proof.
  intros [(Hb & Hc & _)|(H & _)]; [|exact H].
  rewrite Hb, Hc. discriminate.
Qed.

Lemma gen_inv_unset (a b c : float) (l : Locals) :
  best_traj l = ptr_traj_one -> comp_traj l = ptr_traj_two ->
  traj_one (bufs (gen a b c l)) = traj_one (bufs l).
Proof.
  intros Hb Hc. unfold gen, generate_into_comp. cbn [bufs].
  rewrite Hc. reflexivity.
Qed.

Lemma gen_inv (a b c : float) (l : Locals) : inv l -> inv (gen a b c l).
Proof.
  intros H. pose proof (search_inv_distinct _ H) as Hne.
  destruct H as [(Hb & Hc & Ht)|(_ & Hcost & Hgoal)].
  - left. repeat split; try assumption.
    rewrite gen_inv_unset; assumption.
  - right. rewrite gen_best by exact Hne. repeat split; assumption.
Qed.

Lemma swap_inv (l : Locals) :
  best_traj l <> comp_traj l ->
  Cpp.geb (cost_ (comp_of l)) 0 = true ->
  (goal_cost_traj_ (comp_of l) <? goal_cost_traj_ ref) = true ->
  inv (swap_best l).
Proof.
  intros Hne Hc Hg. right. repeat split; try assumption.
  cbn [swap_best best_traj comp_traj]. congruence.
Qed.

Lemma sample_inv (l : Locals) :
  inv l -> inv (sample env P x y theta vx vy vtheta acc_x acc_y acc_theta l).
Proof.
  intros H. unfold sample.
  fold (gen (vx_samp l) (vy_samp l) (vtheta_samp l) l).
  pose proof (gen_inv (vx_samp l) (vy_samp l) (vtheta_samp l) l H) as H1.
  destruct (is_better _ _ _ _ _ _ _ _ _ _ _ _ _) eqn:Hbetter; [|exact H1].
  apply is_better_may_replace in Hbetter as (Hc & _ & Hg).
  apply swap_inv; try assumption.
  apply (search_inv_distinct _ H1).
Qed.

Lemma in_place_body_inv (l : Locals) :
  inv l ->
  inv (in_place_body env P x y theta vx vy vtheta acc_x acc_y acc_theta l).
Proof.
  intros H. unfold in_place_body.
  set (vth := if Cpp.gtb (vtheta_samp l) 0 then _ else _).
  fold (gen (vx_samp l) (vy_samp l) vth l).
  pose proof (gen_inv (vx_samp l) (vy_samp l) vth l H) as H1.
  destruct (is_better_in_place _ _ _ _ _ _ _ _ _ _ _ _ _ _) eqn:Hbetter;
    [|exact H1].
  apply is_better_in_place_may_replace in Hbetter as (Hc & _ & Hg).
  assert (Hs : inv (swap_best (gen (vx_samp l) (vy_samp l) vth l))).
  { apply swap_inv; try assumption. apply (search_inv_distinct _ H1). }
  exact Hs.
Qed.

Lemma theta_sweep_body_inv (l : Locals) :
  inv l ->
  inv (theta_sweep_body env P x y theta vx vy vtheta acc_x acc_y acc_theta l).
Proof. intros H. apply (sample_inv _ H). Qed.

Lemma x_sweep_body_inv (l : Locals) :
  inv l ->
  inv (x_sweep_body env P x y theta vx vy vtheta acc_x acc_y acc_theta l).
Proof.
  intros H. unfold x_sweep_body.
  set (l1 := sample _ _ _ _ _ _ _ _ _ _ _ (set_vtheta_samp 0 l)).
  assert (H1 : inv l1) by (apply sample_inv; exact H).
  set (l2 := set_vtheta_samp _ l1).
  assert (H2 : inv l2) by exact H1.
  apply (@for_n_invariant _ inv _ theta_sweep_body_inv _ _ H2).
Qed.

Lemma y_sweep_body_inv (l : Locals) :
  inv l ->
  inv (y_sweep_body env P x y theta vx vy vtheta acc_x acc_y acc_theta l).
Proof.
  intros H. unfold y_sweep_body.
  destruct (Cpp.fabs (vy_samp l) <? 0.01); [exact H|].
  apply (sample_inv _ H).
Qed.

Lemma xy_sweep_body_inv (l : Locals) :
  inv l ->
  inv (xy_sweep_body env P x y theta vx vy vtheta acc_x acc_y acc_theta l).
Proof.
  intros H. unfold xy_sweep_body.
  set (l1 := set_vy_samp _ (set_vtheta_samp 0 l)).
  assert (H1 : inv l1) by exact H.
  apply (@for_n_invariant _ inv _ y_sweep_body_inv _ _ H1).
Qed.

Lemma initial_locals_inv :
  inv (initial_locals env P x y vx vtheta acc_x acc_y acc_theta).
Proof. left. repeat split. Qed.

(** The invariant holds after the three sampling tiers. *)
Lemma sampling_tiers_inv :
  inv (sampling_tiers env P x y theta vx vy vtheta acc_x acc_y acc_theta).
Proof.
  unfold sampling_tiers, in_place_sweep, strafe_sweeps,
    translate_rotate_sweep.
  set (l0 := initial_locals env P x y vx vtheta acc_x acc_y acc_theta).
  pose proof initial_locals_inv as H0. fold l0 in H0.
  set (l1 := Cpp.for_n _ _ l0).
  assert (H1 : inv l1)
    by apply (@for_n_invariant _ inv _ x_sweep_body_inv _ _ H0).
  apply (@for_n_invariant _ inv _ in_place_body_inv).
  change (inv (if holonomic_robot_ (settings P)
               then Cpp.for_n
                      (Cpp.trip_count (Z.quot (vx_samples_ (settings P)) 2))
                      (xy_sweep_body env P x y theta vx vy vtheta
                         acc_x acc_y acc_theta)
                      (set_vx_samp
                         (min_vel_x (velocity_window env P x y vx vtheta
                                       acc_x acc_y acc_theta) / 2)
                         (Cpp.for_n
                            (Cpp.trip_count (vy_samples_ (settings P) - 1))
                            (y_sweep_body env P x y theta vx vy vtheta
                               acc_x acc_y acc_theta)
                            (set_vy_samp
                               (min_vel_y (velocity_window env P x y vx
                                             vtheta acc_x acc_y acc_theta))
                               (set_vx_samp 0 (set_vtheta_samp 0 l1)))))
               else l1)).
  destruct (holonomic_robot_ (settings P)); [|exact H1].
  apply (@for_n_invariant _ inv _ xy_sweep_body_inv).
  change (inv (Cpp.for_n
                 (Cpp.trip_count (vy_samples_ (settings P) - 1))
                 (y_sweep_body env P x y theta vx vy vtheta
                    acc_x acc_y acc_theta)
                 (set_vy_samp
                    (min_vel_y (velocity_window env P x y vx
                                  vtheta acc_x acc_y acc_theta))
                    (set_vx_samp 0 (set_vtheta_samp 0 l1))))).
  apply (@for_n_invariant _ inv _ y_sweep_body_inv).
  exact H1.
Qed.

(** When the tiers took no candidate, the best is the first buffer with
    the cost -1. *)
Lemma search_inv_unset (l : Locals) :
  inv l -> Cpp.geb (cost_ (best_of l)) 0 = false ->
  best_traj l = ptr_traj_one /\ comp_traj l = ptr_traj_two /\
  traj_one (bufs l) = set_cost (-1) (traj_one (buffers P)).
Proof.
  intros [H|(_ & Hc & _)] Hneg; [exact H|congruence].
Qed.

End SearchFacts.

(** Comparisons of doubles: the order of two doubles read one way is
    the opposite of the order read the other way. *)
Lemma SFcompare_antisym (f1 f2 : spec_float) :
  SFcompare f2 f1 =
  match SFcompare f1 f2 with
  | Some c => Some (CompOpp c)
  | None => None
  end.
Proof.
  destruct f1 as [s1|s1| |s1 m1 e1], f2 as [s2|s2| |s2 m2 e2]; simpl;
    try reflexivity;
    try (destruct s1, s2; reflexivity);
    try (destruct s1; reflexivity);
    try (destruct s2; reflexivity).
  destruct s1, s2; simpl; try reflexivity;
    rewrite (Z.compare_antisym e1 e2);
    destruct (e1 ?= e2)%Z; simpl; try reflexivity;
    change (Pos.compare_cont Eq m2 m1)
      with (Pos.compare_cont (CompOpp Eq) m2 m1);
    rewrite <- (Pos.compare_cont_antisym m1 m2 Eq);
    destruct (Pos.compare_cont Eq m1 m2); reflexivity.
Qed.

(** A double strictly below another is not at or above it. *)
Lemma ltb_not_geb (a b : float) : (a <? b) = true -> Cpp.geb a b = false.
Proof.
  unfold Cpp.geb. rewrite ltb_spec, leb_spec. unfold SFltb, SFleb.
  rewrite (SFcompare_antisym (Prim2SF a) (Prim2SF b)).
  destruct (SFcompare (Prim2SF a) (Prim2SF b)) as [[| |]|];
    simpl; congruence.
Qed.

(** C2: in every sampling tier a candidate replaces the incumbent best
    only if its cost is legal, its cost is strictly below the incumbent's
    (or the incumbent is still unset, with a negative cost), and its goal
    cost is strictly below that of the reference, the trajectory of the
    zero sample simulated once from the current pose and velocity.  Hence
    the best the tiers end with, when legal, beats the reference on goal
    cost (its goal cost is not at or above the reference's), and is what
    [createTrajectories] returns; otherwise no candidate was taken and the
    best cost is still -1. *)
Theorem candidate_replaces_only_if (env : Env) (P : Planner)
    (x y theta vx vy vtheta acc_x acc_y acc_theta : float) :
  let ref :=
    current_pos_traj env P x y theta vx vy vtheta acc_x acc_y acc_theta in
  let tiers :=
    sampling_tiers env P x y theta vx vy vtheta acc_x acc_y acc_theta in
  ref = generateTrajectory env P x y theta vx vy vtheta 0 0 0
          acc_x acc_y acc_theta (obstacleCosts (path_map_ P))
          (fresh_trajectory env) /\
  (forall l, best_traj l <> comp_traj l ->
     let l' := sample env P x y theta vx vy vtheta acc_x acc_y acc_theta l in
     best_traj l' <> best_traj l ->
     may_replace ref (best_of l') (best_of l)) /\
  (forall l, best_traj l <> comp_traj l ->
     let l' := in_place_body env P x y theta vx vy vtheta
                 acc_x acc_y acc_theta l in
     best_traj l' <> best_traj l ->
     may_replace ref (best_of l') (best_of l)) /\
  (Cpp.geb (cost_ (best_of tiers)) 0 = true ->
     (goal_cost_traj_ (best_of tiers) <? goal_cost_traj_ ref) = true /\
     Cpp.geb (goal_cost_traj_ (best_of tiers)) (goal_cost_traj_ ref) = false /\
     snd (createTrajectories env P x y theta vx vy vtheta
            acc_x acc_y acc_theta) = best_of tiers) /\
  (Cpp.geb (cost_ (best_of tiers)) 0 = false ->
     cost_ (best_of tiers) = -1).
Proof.
  intros ref tiers.
  split; [reflexivity|]. split; [|split; [|split]].
  - intros l Hne l' Hchanged.
    destruct (sample_step env P x y theta vx vy vtheta acc_x acc_y acc_theta
                l Hne) as [(Hb & _)|(_ & _ & _ & Hm)].
    + now elim Hchanged.
    + exact Hm.
  - intros l Hne l' Hchanged.
    destruct (in_place_step env P x y theta vx vy vtheta
                acc_x acc_y acc_theta l Hne) as [(Hb & _)|(_ & _ & _ & Hm)].
    + now elim Hchanged.
    + exact Hm.
  - intros Hlegal.
    pose proof (sampling_tiers_inv env P x y theta vx vy vtheta
                  acc_x acc_y acc_theta) as Hinv.
    fold tiers in Hinv.
    assert (Hbar : (goal_cost_traj_ (best_of tiers) <? goal_cost_traj_ ref)
                   = true).
    { destruct Hinv as [(Hb & _ & Ht)|(_ & _ & Hg)]; [|exact Hg].
      unfold best_of in Hlegal. rewrite Hb in Hlegal. cbn [load] in Hlegal.
      rewrite Ht in Hlegal. discriminate. }
    split; [exact Hbar|]. split; [exact (ltb_not_geb _ _ Hbar)|].
    unfold createTrajectories. fold tiers. rewrite Hlegal. reflexivity.
  - intros Hneg.
    pose proof (sampling_tiers_inv env P x y theta vx vy vtheta
                  acc_x acc_y acc_theta) as Hinv.
    fold tiers in Hinv.
    destruct (@search_inv_unset env P x y theta vx vy vtheta acc_x acc_y
                acc_theta tiers Hinv Hneg) as (Hb & _ & Ht).
    unfold best_of. rewrite Hb. cbn [load]. rewrite Ht. reflexivity.
Qed.

(** ** The backup tier *)

(** When the sampling tiers took no candidate, the backup trajectory is
    simulated once, at [backup_vel_] with no lateral or angular velocity,
    into the second buffer.  What is returned is: the first buffer as the
    earlier cycles left it, with the cost 1, when the backup trajectory is
    legal; the backup trajectory with its own cost otherwise (with 1 in
    place of a cost of exactly -1). *)
Lemma createTrajectories_backup (env : Env) (P : Planner)
    (x y theta vx vy vtheta acc_x acc_y acc_theta : float) :
  let tiers :=
    sampling_tiers env P x y theta vx vy vtheta acc_x acc_y acc_theta in
  let backup :=
    generateTrajectory env P x y theta vx vy vtheta
      (backup_vel_ (settings P)) 0 0 acc_x acc_y acc_theta
      (obstacleCosts (path_map_ P)) (traj_two (bufs tiers)) in
  Cpp.geb (cost_ (best_of tiers)) 0 = false ->
  snd (createTrajectories env P x y theta vx vy vtheta acc_x acc_y acc_theta)
  = if Cpp.geb (cost_ backup) 0 then set_cost 1 (traj_one (buffers P))
    else if cost_ backup =? -1 then set_cost 1 backup
    else backup.
Proof.
  intros tiers backup Hneg.
  pose proof (sampling_tiers_inv env P x y theta vx vy vtheta
                acc_x acc_y acc_theta) as Hinv.
  fold tiers in Hinv.
  destruct (@search_inv_unset env P x y theta vx vy vtheta acc_x acc_y
                acc_theta tiers Hinv Hneg) as (Hb & Hc & Ht).
  unfold createTrajectories. fold tiers. rewrite Hneg.
  unfold backup_epilogue, backup_tier, generate_into_comp, best_of, comp_of.
  cbn [bufs best_traj comp_traj vx_samp vy_samp vtheta_samp
       set_vx_samp set_vy_samp set_vtheta_samp].
  rewrite Hb, Hc. cbn [load store traj_one traj_two].
  fold (impossible_cost P). unfold impossible_cost. fold backup.
  rewrite Ht. cbn [cost_ set_cost].
  replace (-1 <? 0) with true by reflexivity.
  rewrite orb_true_r, andb_true_r.
  destruct (Cpp.geb (cost_ backup) 0);
    cbn [swap_best best_traj comp_traj bufs load store traj_one traj_two
         snd cost_ set_cost].
  - replace (-1 =? -1) with true by reflexivity.
    cbn [load store traj_one traj_two]. destruct (traj_one (buffers P));
      reflexivity.
  - destruct (cost_ backup =? -1); reflexivity.
Qed.

(** ** The oscillation guard *)

(** A double above zero is not below zero. *)
Lemma ltb_zero_asym (a : float) : (0 <? a) = true -> (a <? 0) = false.
Proof.
  rewrite !ltb_spec. change (Prim2SF 0) with (S754_zero false).
  unfold SFltb, SFcompare.
  destruct (Prim2SF a) as [s|s| |s m e]; try discriminate;
    destruct s; (discriminate || reflexivity).
Qed.

Lemma reset_escaping_keeps (env : Env) (cfg : Settings) (x y theta : float)
    (g : Guard) :
  flags_of (reset_escaping env cfg x y theta g) = flags_of g /\
  anchor_of (reset_escaping env cfg x y theta g) = anchor_of g.
Proof.
  unfold reset_escaping.
  destruct (_ || _)%bool; split; reflexivity.
Qed.

Lemma reset_oscillation_anchor (env : Env) (cfg : Settings) (x y : float)
    (g : Guard) :
  anchor_of (reset_oscillation env cfg x y g) = anchor_of g.
Proof.
  unfold reset_oscillation. destruct (Cpp.gtb _ _); reflexivity.
Qed.

Lemma reset_oscillation_flags (env : Env) (cfg : Settings) (x y : float)
    (g : Guard) :
  flags_of (reset_oscillation env cfg x y g) =
  if Cpp.gtb (hypot env (x - prev_x_ g) (y - prev_y_ g))
       (oscillation_reset_dist_ cfg)
  then [false; false; false; false; false; false; false; false]
  else flags_of g.
Proof.
  unfold reset_oscillation. destruct (Cpp.gtb _ _); reflexivity.
Qed.

Lemma commit_direction_anchor (best : Trajectory) (x y : float) (g : Guard) :
  Cpp.gtb (xv_ best) 0 = false ->
  anchor_of (commit_direction best x y g) = (x, y).
Proof. unfold commit_direction. intros ->. reflexivity. Qed.

(** The flags after the classification, for a best trajectory that does
    not move forward. *)
Lemma commit_direction_flags (best : Trajectory) (x y : float) (g : Guard) :
  Cpp.gtb (xv_ best) 0 = false ->
  let g1 := commit_direction best x y g in
  (Cpp.gtb (thetav_ best) 0 = true ->
     rotating_left g1 = true /\
     (rotating_left g = true -> stuck_left g1 = true)) /\
  ((thetav_ best <? 0) = true ->
     rotating_right g1 = true /\
     (rotating_right g = true -> stuck_right g1 = true)) /\
  ((thetav_ best <? 0) = false -> Cpp.gtb (thetav_ best) 0 = false ->
     (Cpp.gtb (yv_ best) 0 = true ->
        strafe_right g1 = true /\
        (strafe_right g = true -> stuck_right_strafe g1 = true)) /\
     ((yv_ best <? 0) = true ->
        strafe_left g1 = true /\
        (strafe_left g = true -> stuck_left_strafe g1 = true))).
Proof.
  intros Hx g1. unfold g1, commit_direction. rewrite Hx. cbn [negb].
  split; [|split].
  - intros Hpos. pose proof (ltb_zero_asym _ Hpos) as Hneg.
    rewrite Hneg, Hpos. split; [reflexivity|]. intros ->. reflexivity.
  - intros Hneg. rewrite Hneg. split; [reflexivity|]. intros ->. reflexivity.
  - intros Hneg Hpos. rewrite Hneg, Hpos. split.
    + intros Hy. rewrite Hy. split; [reflexivity|]. intros ->. reflexivity.
    + intros Hy.
      assert (Hy' : Cpp.gtb (yv_ best) 0 = false).
      { unfold Cpp.gtb. destruct (0 <? yv_ best) eqn:E; [|reflexivity].
        apply ltb_zero_asym in E. congruence. }
      rewrite Hy', Hy. split; [reflexivity|]. intros ->. reflexivity.
Qed.

(** C5 (amended): after a call in which the sampling tiers select a best
    trajectory with a legal cost and no forward velocity, that trajectory
    is returned and the current position is the anchor.  If the distance
    from the anchor then exceeds [oscillation_reset_dist_], the eight flags
    are all cleared.  Otherwise the committed flag of the direction is
    set, and the stuck flag of the direction too when the committed flag
    was set before the call: rotating left for a positive angular
    velocity, rotating right for a negative one; and, when the angular
    velocity is neither, strafing right for a positive lateral velocity,
    strafing left for a negative one. *)
Theorem oscillation_guard_after_selection (env : Env) (P : Planner)
    (x y theta vx vy vtheta acc_x acc_y acc_theta : float) :
  let best :=
    best_of (sampling_tiers env P x y theta vx vy vtheta
               acc_x acc_y acc_theta) in
  let r :=
    createTrajectories env P x y theta vx vy vtheta acc_x acc_y acc_theta in
  let g := guard P in
  let g' := guard (fst r) in
  let moved :=
    Cpp.gtb (hypot env (x - prev_x_ g') (y - prev_y_ g'))
      (oscillation_reset_dist_ (settings P)) in
  Cpp.geb (cost_ best) 0 = true ->
  Cpp.gtb (xv_ best) 0 = false ->
  snd r = best /\
  anchor_of g' = (x, y) /\
  (moved = true ->
     flags_of g' = [false; false; false; false; false; false; false; false])
  /\
  (moved = false ->
     (Cpp.gtb (thetav_ best) 0 = true ->
        rotating_left g' = true /\
        (rotating_left g = true -> stuck_left g' = true)) /\
     ((thetav_ best <? 0) = true ->
        rotating_right g' = true /\
        (rotating_right g = true -> stuck_right g' = true)) /\
     ((thetav_ best <? 0) = false -> Cpp.gtb (thetav_ best) 0 = false ->
        (Cpp.gtb (yv_ best) 0 = true ->
           strafe_right g' = true /\
           (strafe_right g = true -> stuck_right_strafe g' = true)) /\
        ((yv_ best <? 0) = true ->
           strafe_left g' = true /\
           (strafe_left g = true -> stuck_left_strafe g' = true)))).
Proof.
  intros best r g g' moved Hlegal Hx.
  set (g1 := commit_direction best x y g).
  set (g2 := reset_oscillation env (settings P) x y g1).
  assert (Hr : r = (set_buffers
                      (bufs (sampling_tiers env P x y theta vx vy vtheta
                               acc_x acc_y acc_theta))
                      (set_guard
                         (reset_escaping env (settings P) x y theta g2) P),
                    best)).
  { unfold r, createTrajectories. fold best. rewrite Hlegal. reflexivity. }
  assert (Hg' : g' = reset_escaping env (settings P) x y theta g2).
  { unfold g'. rewrite Hr. reflexivity. }
  destruct (reset_escaping_keeps env (settings P) x y theta g2)
    as [Hflags Hanchor].
  rewrite <- Hg' in Hflags, Hanchor.
  pose proof (reset_oscillation_anchor env (settings P) x y g1) as Hanchor2.
  fold g2 in Hanchor2.
  pose proof (commit_direction_anchor best x y g Hx) as Hanchor1.
  fold g1 in Hanchor1.
  assert (Ha : anchor_of g' = (x, y)) by congruence.
  assert (Hprev : prev_x_ g' = prev_x_ g1 /\ prev_y_ g' = prev_y_ g1).
  { unfold anchor_of in *. split; congruence. }
  pose proof (reset_oscillation_flags env (settings P) x y g1) as Hflags2.
  fold g2 in Hflags2.
  destruct Hprev as [Hpx Hpy].
  unfold moved. rewrite Hpx, Hpy.
  split; [rewrite Hr; reflexivity|]. split; [exact Ha|]. split.
  - intros Hm. rewrite Hm in Hflags2. congruence.
  - intros Hm. rewrite Hm in Hflags2.
    assert (Hfl : flags_of g' = flags_of g1) by congruence.
    unfold flags_of in Hfl.
    injection Hfl as E1 E2 E3 E4 E5 E6 E7 E8.
    rewrite E1, E2, E3, E4, E5, E6, E7, E8.
    exact (commit_direction_flags best x y g Hx).
Qed.

Lemma float_neq (a b : float) :
  (a =? b) = false -> (a =? a) = true -> a <> b.
Proof. intros Hab Haa ->. congruence. Qed.

(** The amended statement at work: a base that may reverse, moving at
    1 m/s toward the goal, is told to reverse while turning right; the
    rotating-right flag was set, so the stuck-right flag is raised, and the
    pose becomes the anchor. *)
Lemma oscillation_guard_after_selection_witness :
  let r := createTrajectories Scenario.free_world Scenario.planner_reversing
             5.9375 1.5 0 1 0 0 1 1 1 in
  command_of (snd r) = (-0.125, 0, -1, 4.5) /\
  anchor_of (guard (fst r)) = (5.9375, 1.5) /\
  rotating_right (guard (fst r)) = true /\
  stuck_right (guard (fst r)) = true.
Proof.
  intros r.
  destruct (oscillation_guard_after_selection Scenario.free_world
              Scenario.planner_reversing 5.9375 1.5 0 1 0 0 1 1 1)
    as (Hbest & Hanchor & _ & Hflags).
  - vm_compute. reflexivity.
  - vm_compute. reflexivity.
  - split; [vm_compute; reflexivity|]. split; [exact Hanchor|].
    destruct Hflags as (_ & Hright & _); [vm_compute; reflexivity|].
    destruct Hright as [Hset Hstuck]; [vm_compute; reflexivity|].
    split; [exact Hset|]. apply Hstuck. reflexivity.
Defined.

(** C5, as stated, fails on calls that return through the backup tier.
    From (1.5, 1.5) at rest the planner returns a trajectory of cost 1
    with no forward velocity, and the anchor stays at (0, 0).  After a
    detour to (5.9375, 1.5) a planner anchored at (1.5, 1.5), back at
    (1.5, 1.5), returns a trajectory of cost 1 with no forward velocity
    and a positive angular velocity; the rotating-left flag is not set by
    the call, and no flag is, although the robot stands on the anchor. *)
Lemma oscillation_guard_backup_counterexample :
  let r0 := Scenario.plan_at_rest Scenario.free_world Scenario.planner0
              1.5 1.5 in
  let P1 := fst (Scenario.plan_at_rest Scenario.free_world
                   Scenario.planner_anchored 5.9375 1.5) in
  let r := Scenario.plan_at_rest Scenario.free_world P1 1.5 1.5 in
  (Cpp.geb (cost_ (snd r0)) 0 = true /\
   Cpp.gtb (xv_ (snd r0)) 0 = false /\
   anchor_of (guard (fst r0)) = (0, 0) /\
   prev_x_ (guard (fst r0)) <> 1.5) /\
  (Cpp.geb (cost_ (snd r)) 0 = true /\
   Cpp.gtb (xv_ (snd r)) 0 = false /\
   Cpp.gtb (thetav_ (snd r)) 0 = true /\
   anchor_of (guard P1) = (1.5, 1.5) /\
   Cpp.gtb (hypot Scenario.free_world (1.5 - prev_x_ (guard (fst r)))
              (1.5 - prev_y_ (guard (fst r))))
     (oscillation_reset_dist_ (settings P1)) = false /\
   rotating_left (guard (fst r)) = false /\
   flags_of (guard (fst r))
   = [false; false; false; false; false; false; false; false]).
Proof.
  intros r0 P1 r. split.
  - repeat split; try (vm_compute; reflexivity).
    apply float_neq; vm_compute; reflexivity.
  - vm_compute. repeat split.
Qed.

(** ** The backup tier on concrete inputs *)

(** C1 at a failing input: every pose collides, so every candidate of the
    sampling tiers is illegal and the best cost is still -1; the backup
    trajectory is simulated at (-0.125, 0, 0), the footprint check rejects
    its first pose, and it is returned with the collision sentinel -5, a
    negative cost. *)
Theorem backup_collision_returns_negative_cost :
  let tiers :=
    sampling_tiers Scenario.blocked_world Scenario.planner0
      1.5 1.5 0 0 0 0 1 1 1 in
  let r := snd (Scenario.plan_at_rest Scenario.blocked_world
                  Scenario.planner0 1.5 1.5) in
  cost_ (best_of tiers) = -1 /\
  command_of r = (backup_vel_ (settings Scenario.planner0), 0, 0, -5)
  /\ cost_ r = sentinel Collision
  /\ Cpp.geb (cost_ r) 0 = false.
Proof. vm_compute. repeat split. Qed.

(** The other outcome of the backup tier: with no obstacle anywhere the
    backup trajectory is legal (cost 3.5) and is left in the second
    buffer; the trajectory returned is the first buffer, with the zero
    velocity it held before the call and the cost 1. *)
Lemma backup_legal_returns_first_buffer :
  let r := Scenario.plan_at_rest Scenario.free_world Scenario.planner0
             1.5 1.5 in
  command_of (traj_two (buffers (fst r))) = (-0.125, 0, 0, 3.5) /\
  command_of (snd r) = (0, 0, 0, 1) /\
  snd r = traj_one (buffers (fst r)).
Proof. vm_compute. repeat split. Qed.

(** ** Repeated calls *)

(** C6 at a failing input: three calls on one planner, with no change of
    configuration or plan.  The first and the third have the same
    arguments, the pose (1.5, 1.5) at rest; the second plans at
    (5.9375, 1.5).  The first returns the zero velocity, the third an
    angular velocity of 1: what the second call left in the first
    buffer. *)
Theorem identical_calls_different_commands :
  let env := Scenario.free_world in
  let call1 := Scenario.plan_at_rest env Scenario.planner0 1.5 1.5 in
  let call2 := Scenario.plan_at_rest env (fst call1) 5.9375 1.5 in
  let call3 := Scenario.plan_at_rest env (fst call2) 1.5 1.5 in
  settings (fst call2) = settings Scenario.planner0 /\
  global_plan_ (fst call2) = global_plan_ Scenario.planner0 /\
  command_of (snd call1) = (0, 0, 0, 1) /\
  command_of (snd call3) = (0, 0, 1, 1) /\
  thetav_ (snd call3) <> thetav_ (snd call1).
Proof.
  intros env call1 call2 call3.
  repeat split; try (vm_compute; reflexivity).
  apply float_neq; vm_compute; reflexivity.
Qed.

(** [createTrajectories] writes the guard and the buffers, nothing else. *)
Lemma createTrajectories_frame (env : Env) (P : Planner)
    (x y theta vx vy vtheta acc_x acc_y acc_theta : float) :
  let P' := fst (createTrajectories env P x y theta vx vy vtheta
                   acc_x acc_y acc_theta) in
  settings P' = settings P /\ global_plan_ P' = global_plan_ P /\
  final_goal_x_ P' = final_goal_x_ P /\ final_goal_y_ P' = final_goal_y_ P /\
  final_goal_position_valid_ P' = final_goal_position_valid_ P /\
  path_map_ P' = path_map_ P /\ goal_map_ P' = goal_map_ P.
Proof.
  unfold createTrajectories.
  destruct (Cpp.geb _ 0); repeat split.
Qed.

(** ** The velocity window *)

(** C3 (amended): in dynamic-window mode the window of the angular
    velocity is the intersection of the configured limits with what one
    control period reaches from the current angular velocity.  With a
    final goal known, the window of the forward velocity is that
    intersection taken with the upper limit lowered to the speed that
    reaches the goal within the horizon, and the lower limit lowered to
    that upper limit; its upper bound is then raised to the configured
    minimum.  When the goal is too far to lower the upper limit, and the
    configured limits are in order, the forward window is the intersection
    of the configured limits with the reachable interval, its upper bound
    raised to the configured minimum. *)
Theorem dynamic_window_bounds (env : Env) (P : Planner)
    (x y vx vtheta acc_x acc_y acc_theta : float) :
  let cfg := settings P in
  let W := velocity_window env P x y vx vtheta acc_x acc_y acc_theta in
  let goal_speed :=
    hypot env (final_goal_x_ P - x) (final_goal_y_ P - y) / sim_time_ cfg in
  let hi_x := Cpp.min (max_vel_x_ cfg) goal_speed in
  let lo_x := Cpp.min (min_vel_x_ cfg) hi_x in
  dwa_ cfg = true ->
  (min_vel_theta W, max_vel_theta W)
  = reachable_window (min_vel_th_ cfg) (max_vel_th_ cfg) vtheta acc_theta
      (sim_period_ cfg) /\
  (final_goal_position_valid_ P = true ->
   min_vel_x W = fst (reachable_window lo_x hi_x vx acc_x (sim_period_ cfg)) /\
   max_vel_x W
   = Cpp.max (snd (reachable_window lo_x hi_x vx acc_x (sim_period_ cfg)))
       (min_vel_x_ cfg)) /\
  (final_goal_position_valid_ P = true ->
   (goal_speed <? max_vel_x_ cfg) = false ->
   (max_vel_x_ cfg <? min_vel_x_ cfg) = false ->
   min_vel_x W
   = fst (reachable_window (min_vel_x_ cfg) (max_vel_x_ cfg) vx acc_x
            (sim_period_ cfg)) /\
   max_vel_x W
   = Cpp.max (snd (reachable_window (min_vel_x_ cfg) (max_vel_x_ cfg) vx
                     acc_x (sim_period_ cfg)))
       (min_vel_x_ cfg)).
Proof.
  intros cfg W goal_speed hi_x lo_x Hdwa.
  unfold W, velocity_window. fold cfg. rewrite Hdwa.
  split; [|split].
  - destruct (final_goal_position_valid_ P); reflexivity.
  - intros ->. split; reflexivity.
  - intros -> Hfar Hlim.
    assert (Hhi : hi_x = max_vel_x_ cfg).
    { unfold hi_x, Cpp.min. fold goal_speed. rewrite Hfar. reflexivity. }
    assert (Hlo : lo_x = min_vel_x_ cfg).
    { unfold lo_x, Cpp.min at 1. rewrite Hhi, Hlim. reflexivity. }
    fold goal_speed. fold hi_x. fold lo_x. rewrite Hlo, Hhi.
    split; reflexivity.
Qed.

(** The amended statement at work: a quarter of a metre from the goal,
    at 0.5 m/s, with the dynamic window on. *)
Lemma dynamic_window_bounds_witness :
  let W := velocity_window Scenario.free_world Scenario.planner_dwa
             9.25 1.5 0.5 0 1 1 1 in
  (min_vel_theta W, max_vel_theta W) = (-0.125, 0.125) /\
  (min_vel_x W, max_vel_x W) = (0.375, 0.25).
Proof.
  intros W.
  destruct (dynamic_window_bounds Scenario.free_world Scenario.planner_dwa
              9.25 1.5 0.5 0 1 1 1) as (Hth & Hx & _).
  - reflexivity.
  - destruct Hx as [Hlo Hhi]; [reflexivity|].
    split.
    + etransitivity; [exact Hth|]. vm_compute. reflexivity.
    + unfold W. rewrite Hlo, Hhi. vm_compute. reflexivity.
Defined.

(** C3, as stated, fails on the forward and on the lateral axis: a
    quarter of a metre from the goal, at 0.5 m/s forward and no lateral
    velocity, the forward window ends at 0.25 and not at the reachable
    0.625, and the lateral window is taken around the forward velocity. *)
Lemma dynamic_window_counterexample :
  let P := Scenario.planner_dwa in
  let cfg := settings P in
  let W := velocity_window Scenario.free_world P 9.25 1.5 0.5 0 1 1 1 in
  (min_vel_x W, max_vel_x W)
  <> reachable_window (min_vel_x_ cfg) (max_vel_x_ cfg) 0.5 1
       (sim_period_ cfg) /\
  (min_vel_y W, max_vel_y W)
  <> reachable_window (min_vel_y_ cfg) (max_vel_y_ cfg) 0 1
       (sim_period_ cfg).
Proof.
  intros P cfg W. split; intros H.
  - apply (f_equal (fun p => snd p =? 0.25)) in H. vm_compute in H.
    discriminate.
  - apply (f_equal (fun p => snd p =? 0.25)) in H. vm_compute in H.
    discriminate.
Qed.

(** ** The path-distance cap *)

(** A legal point within the cap is recorded with a path distance of
    zero, and with the goal distance as read. *)
Lemma sim_body_within_cap (env : Env) (P : Planner)
    (vxs vys vths ax ay ath imp : float) (n : Z) (dt : float)
    (i : Z) (s : Sim) :
  failure_at env P imp n i s = None ->
  within_cap env P n i s ->
  exists s' p g,
    sim_body env P vxs vys vths ax ay ath imp n dt i s = Next s' /\
    evaluated_distances env P n i s = Some (p, g) /\
    path_dist s' = 0 /\ goal_dist s' = g.
Proof.
  intros Hlegal (p & g & Hread & Hpos & Hcap).
  exists (match sim_body env P vxs vys vths ax ay ath imp n dt i s with
          | Next s' => s'
          | Return _ => s
          end), p, g.
  revert Hlegal Hread.
  unfold failure_at, evaluated_distances, sim_body.
  destruct (worldToMap env (x_i s) (y_i s)) as [[cx cy]|]; [|discriminate].
  destruct (headingDiff env P cx cy (x_i s) (y_i s) (theta_i s))
    as [[h gd] pd].
  destruct (footprintCost env (x_i s) (y_i s) (theta_i s) <? 0);
    [discriminate|].
  destruct (simple_attractor_ (settings P)); [discriminate|].
  destruct (heading_scoring_ (settings P)); simpl.
  - rewrite andb_true_r.
    destruct (i =? n - 1)%Z; [|discriminate].
    destruct ((imp <=? gd) || (imp <=? pd))%bool; [discriminate|].
    intros _ H. injection H as -> ->.
    rewrite Hpos, Hcap. repeat split.
  - rewrite andb_false_r.
    destruct ((imp <=? target_dist (cell (goal_map_ P) cx cy))
              || (imp <=? target_dist (cell (path_map_ P) cx cy)))%bool;
      [discriminate|].
    intros _ H. injection H as <- <-.
    rewrite Hpos, Hcap. repeat split.
Qed.

(** C7 (amended): a point at which the path and goal distances are
    updated, and which lies within a strictly positive cap, is not
    rejected on that account: the simulation goes on with a path distance
    of zero and the goal distance as read.  When that point is the last
    one of the simulation, the path distance that enters the final cost is
    zero. *)
Theorem path_distance_cap_last_point (env : Env) (P : Planner)
    (x y theta vx vy vtheta vx_samp vy_samp vtheta_samp
     acc_x acc_y acc_theta impossible_cost : float) (t : Trajectory)
    (k : nat) (sk : Sim) :
  let cfg := settings P in
  let num_steps := num_steps_of env P vx_samp vy_samp vtheta_samp in
  let dt := sim_time_ cfg / Cpp.int_to_double num_steps in
  let body := sim_body env P vx_samp vy_samp vtheta_samp acc_x acc_y acc_theta
                impossible_cost num_steps dt in
  let loop := sim_loop env P vx_samp vy_samp vtheta_samp acc_x acc_y acc_theta
                impossible_cost num_steps dt in
  let s0 := initial_sim x y theta vx vy vtheta vx_samp vy_samp vtheta_samp t in
  let r := generateTrajectory env P x y theta vx vy vtheta
             vx_samp vy_samp vtheta_samp acc_x acc_y acc_theta
             impossible_cost t in
  Cpp.trip_count num_steps = S k ->
  loop k 0%Z s0 = Next sk ->
  failure_at env P impossible_cost num_steps (Z.of_nat k) sk = None ->
  within_cap env P num_steps (Z.of_nat k) sk ->
  (forall i s,
     failure_at env P impossible_cost num_steps i s = None ->
     within_cap env P num_steps i s ->
     exists s' p g,
       body i s = Next s' /\
       evaluated_distances env P num_steps i s = Some (p, g) /\
       path_dist s' = 0 /\ goal_dist s' = g) /\
  exists sf,
    loop (Cpp.trip_count num_steps) 0%Z s0 = Next sf /\
    path_dist sf = 0 /\
    r = finish_trajectory P sf /\
    cost_ r =
      if negb (heading_scoring_ cfg)
      then pdist_scale_ cfg * 0 + goal_dist sf * gdist_scale_ cfg
           + occdist_scale_ cfg * occ_cost sf
      else occdist_scale_ cfg * occ_cost sf + pdist_scale_ cfg * 0
           + heading_diff sf * hdiff_scale_ cfg
           + goal_dist sf * gdist_scale_ cfg.
Proof.
  intros cfg num_steps dt body loop s0 r Hcount Hk Hlegal Hcap.
  split.
  { intros i s. apply sim_body_within_cap. }
  destruct (@sim_body_within_cap env P vx_samp vy_samp vtheta_samp
              acc_x acc_y acc_theta impossible_cost num_steps dt
              (Z.of_nat k) sk Hlegal Hcap)
    as (sf & p & g & Hbody & _ & Hzero & _).
  assert (Hloop : loop (Cpp.trip_count num_steps) 0%Z s0 = Next sf).
  { rewrite Hcount. unfold loop. rewrite sim_loop_last.
    fold loop. rewrite Hk. exact Hbody. }
  exists sf. split; [exact Hloop|]. split; [exact Hzero|].
  assert (Hr : r = finish_trajectory P sf).
  { unfold r, generateTrajectory, run_simulation.
    unfold loop, s0, dt, num_steps, cfg in Hloop. rewrite Hloop.
    reflexivity. }
  split; [exact Hr|].
  rewrite Hr. unfold finish_trajectory, final_cost. cbn [cost_ set_cost set_goal_cost_traj].
  fold cfg. rewrite Hzero. reflexivity.
Qed.

(** The amended statement at work: from (1.9375, 1.5) the sample of
    0.125 m/s scores one point, on column 1 at path distance 1, within the
    cap of 2. *)
Lemma path_distance_cap_last_point_witness :
  exists sf,
    run_simulation Scenario.free_world Scenario.planner_cap
      1.9375 1.5 0 0 0 0 0.125 0 0 1 1 1 100 Scenario.zero_trajectory
    = Next sf /\
    path_dist sf = 0.
Proof.
  destruct (@path_distance_cap_last_point Scenario.free_world
              Scenario.planner_cap 1.9375 1.5 0 0 0 0 0.125 0 0 1 1 1 100
              Scenario.zero_trajectory 0%nat
              (initial_sim 1.9375 1.5 0 0 0 0 0.125 0 0
                 Scenario.zero_trajectory))
    as (_ & sf & Hloop & Hzero & _).
  - vm_compute. reflexivity.
  - reflexivity.
  - vm_compute. reflexivity.
  - exists 1, 3. vm_compute. repeat split.
  - exists sf. split; [exact Hloop|exact Hzero].
Defined.

(** C7, as stated, fails when a point before the last lies within the cap
    and the last does not: from (1.9375, 1.5) the sample of 1 m/s scores
    two points, the first on column 1 at path distance 1, within the cap
    of 2, the second on column 2 at path distance 5; the path distance
    that enters the final cost is 5. *)
Lemma path_distance_cap_counterexample :
  ~ cap_zeroes_every_point Scenario.free_world Scenario.planner_cap
      1.9375 1.5 0 0 0 0 1 0 0 1 1 1 100 Scenario.zero_trajectory.
Proof.
  unfold cap_zeroes_every_point. intros H.
  assert (Hlast : exists sf,
            sim_loop Scenario.free_world Scenario.planner_cap 1 0 0 1 1 1 100
              (num_steps_of Scenario.free_world Scenario.planner_cap 1 0 0)
              (sim_time_ (settings Scenario.planner_cap)
               / Cpp.int_to_double
                   (num_steps_of Scenario.free_world Scenario.planner_cap
                      1 0 0))
              (Cpp.trip_count
                 (num_steps_of Scenario.free_world Scenario.planner_cap
                    1 0 0))
              0%Z
              (initial_sim 1.9375 1.5 0 0 0 0 1 0 0 Scenario.zero_trajectory)
            = Next sf /\ (path_dist sf =? 5) = true).
  { vm_compute. eexists. split; reflexivity. }
  destruct Hlast as (sf & Hloop & Hfive).
  specialize (H 0%nat
                (initial_sim 1.9375 1.5 0 0 0 0 1 0 0 Scenario.zero_trajectory)
                sf).
  rewrite H in Hfive.
  - vm_compute in Hfive. discriminate.
  - vm_compute. lia.
  - reflexivity.
  - exists 1, 3. vm_compute. repeat split.
  - exact Hloop.
Qed.

(** ** The local goal *)

(** After a planning cycle [getLocalGoal] answers the anchor the path
    grid has once seeded from the plan; the goal grid plays no part. *)
Lemma getLocalGoal_after_findBestPath (env : Env) (P : Planner)
    (px py pth vx vy vth : float) :
  let P' := fst (fst (findBestPath env P (px, py, pth) (vx, vy, vth))) in
  let seeded :=
    setTargetCells env (global_plan_ P)
      (fold_left mark_within_robot
         (getFootprintCells env (to_single env px) (to_single env py)
            (to_single env pth))
         (resetPathDist env (path_map_ P))) in
  getLocalGoal P' = (goal_x_ seeded, goal_y_ seeded).
Proof.
  intros P' seeded. unfold P', findBestPath.
  set (P1 := refresh_grids env P (to_single env px) (to_single env py)
               (to_single env pth)).
  pose proof (createTrajectories_frame env P1 (to_single env px)
                (to_single env py) (to_single env pth)
                (to_single env vx) (to_single env vy) (to_single env vth)
                (acc_lim_x_ (settings P1)) (acc_lim_y_ (settings P1))
                (acc_lim_theta_ (settings P1)))
    as (_ & _ & _ & _ & _ & Hpm & _).
  destruct (createTrajectories env P1 _ _ _ _ _ _ _ _ _) as [P2 best].
  cbn [fst] in Hpm.
  destruct (cost_ best <? 0); cbn [fst]; unfold getLocalGoal; rewrite Hpm;
    reflexivity.
Qed.

(** C8 at a failing input: one planning cycle in the test world, where
    [setLocalGoal] records the final pose of the plan, (9.5, 1.5), as the
    anchor of the goal grid.  [getLocalGoal] answers (0, 0), the anchor
    the path grid was constructed with. *)
Theorem getLocalGoal_reads_path_grid :
  let r := findBestPath Scenario.free_world Scenario.planner0
             (1.5, 1.5, 0) (0, 0, 0) in
  let P' := fst (fst r) in
  (goal_x_ (goal_map_ P'), goal_y_ (goal_map_ P')) = (9.5, 1.5) /\
  getLocalGoal P' = (0, 0) /\
  fst (getLocalGoal P') <> goal_x_ (goal_map_ P').
Proof.
  intros r P'. repeat split; try (vm_compute; reflexivity).
  apply float_neq; vm_compute; reflexivity.
Qed.

(** ** Sample counts *)

(** [reconfigure] leaves at least one sample on the forward and on the
    angular axis, and the lateral count as configured. *)
Lemma reconfigure_sample_counts (env : Env) (P : Planner)
    (config : BaseLocalPlannerConfig.t) :
  let s := settings (fst (reconfigure env P config)) in
  (1 <= vx_samples_ s)%Z /\ (1 <= vtheta_samples_ s)%Z /\
  vy_samples_ s = BaseLocalPlannerConfig.vy_samples config.
Proof.
  unfold reconfigure.
  destruct (BaseLocalPlannerConfig.vx_samples config <=? 0)%Z eqn:Ex;
    destruct (BaseLocalPlannerConfig.vtheta_samples config <=? 0)%Z eqn:Et;
    cbn [fst settings set_settings vx_samples_ vtheta_samples_ vy_samples_];
    repeat split; lia.
Qed.

(** C9 at a failing input: a configuration with no sample on the lateral
    axis, for a holonomic robot.  [reconfigure] stores the count of zero
    and logs no warning. *)
Theorem reconfigure_keeps_zero_vy_samples :
  let r := reconfigure Scenario.free_world Scenario.planner0
             Scenario.config_no_y_samples in
  BaseLocalPlannerConfig.vy_samples Scenario.config_no_y_samples = 0%Z /\
  vy_samples_ (settings (fst r)) = 0%Z /\
  holonomic_robot_ (settings (fst r)) = true /\
  snd r = [].
Proof. vm_compute. repeat split. Qed.

(** ** What the result owes to the buffers *)

Lemma for_n_related {A : Type} (R : A -> A -> Prop) (body : A -> A) :
  (forall a a', R a a' -> R (body a) (body a')) ->
  forall n a a', R a a' -> R (Cpp.for_n n body a) (Cpp.for_n n body a').
Proof.
  intros Hbody n. induction n as [|n IH]; intros a a' H; simpl.
  - exact H.
  - apply IH, Hbody, H.
Qed.

Lemma same_search_best_cost (l l' : Locals) :
  same_search l l' -> cost_ (best_of l') = cost_ (best_of l).
Proof.
  intros (_ & _ & _ & _ & _ & _ & [[H1 H2]|[_ H]]); congruence.
Qed.

Lemma same_search_legal (l l' : Locals) :
  same_search l l' ->
  Cpp.geb (cost_ (best_of l)) 0 = true -> best_of l' = best_of l.
Proof.
  intros (_ & _ & _ & _ & _ & _ & [[H1 H2]|[_ H]]) Hlegal; [|exact H].
  rewrite H1 in Hlegal. discriminate.
Qed.

Lemma same_search_set_vx (v : float) (l l' : Locals) :
  same_search l l' -> same_search (set_vx_samp v l) (set_vx_samp v l').
Proof. intros (H1 & H2 & H3 & H); repeat split; try assumption; apply H. Qed.

Lemma same_search_set_vy (v : float) (l l' : Locals) :
  same_search l l' -> same_search (set_vy_samp v l) (set_vy_samp v l').
Proof. intros (H1 & H2 & H3 & H); repeat split; try assumption; apply H. Qed.

Lemma same_search_set_vtheta (v : float) (l l' : Locals) :
  same_search l l' ->
  same_search (set_vtheta_samp v l) (set_vtheta_samp v l').
Proof. intros (H1 & H2 & H3 & H); repeat split; try assumption; apply H. Qed.

Section BuffersCarriedOver.

Variable env : Env.
Variable P : Planner.
Variables x y theta vx vy vtheta acc_x acc_y acc_theta : float.

Let gen := generate_into_comp env P x y theta vx vy vtheta
             acc_x acc_y acc_theta.

(** Simulating the same sample in both runs keeps them related; the two
    candidates have the same cost and, when it is legal, are equal. *)
Lemma gen_same (a b c : float) (l l' : Locals) :
  same_search l l' ->
  same_search (gen a b c l) (gen a b c l') /\
  cost_ (comp_of (gen a b c l')) = cost_ (comp_of (gen a b c l)) /\
  (Cpp.geb (cost_ (comp_of (gen a b c l))) 0 = true ->
   comp_of (gen a b c l') = comp_of (gen a b c l)).
Proof.
  intros (Hvx & Hvy & Hvt & Hb & Hc & Hne & Hbest).
  assert (Hne' : best_traj l' <> comp_traj l') by congruence.
  pose proof (@gen_best env P x y theta vx vy vtheta acc_x acc_y acc_theta
                a b c l Hne) as Hbl.
  pose proof (@gen_best env P x y theta vx vy vtheta acc_x acc_y acc_theta
                a b c l' Hne') as Hbl'.
  pose proof (@gen_comp env P x y theta vx vy vtheta acc_x acc_y acc_theta
                a b c l) as Hcl.
  pose proof (@gen_comp env P x y theta vx vy vtheta acc_x acc_y acc_theta
                a b c l') as Hcl'.
  fold gen in Hbl, Hbl', Hcl, Hcl'.
  pose proof (generateTrajectory_buffer env P x y theta vx vy vtheta a b c
                acc_x acc_y acc_theta (impossible_cost P)
                (comp_of l) (comp_of l')) as (_ & _ & _ & Hcost & Hlegal & _).
  rewrite <- Hcl, <- Hcl' in Hcost, Hlegal.
  split; [|split; assumption].
  repeat split; try assumption.
  rewrite Hbl, Hbl'. exact Hbest.
Qed.

Lemma is_better_same (c c' b b' : Trajectory) :
  cost_ c' = cost_ c ->
  (Cpp.geb (cost_ c) 0 = true -> c' = c) ->
  cost_ b' = cost_ b ->
  is_better env P x y theta vx vy vtheta acc_x acc_y acc_theta c' b'
  = is_better env P x y theta vx vy vtheta acc_x acc_y acc_theta c b.
Proof.
  intros Hcost Hlegal Hb. unfold is_better. rewrite Hcost, Hb.
  destruct (Cpp.geb (cost_ c) 0) eqn:E; [|reflexivity].
  rewrite (Hlegal eq_refl). reflexivity.
Qed.

Lemma is_better_in_place_same (vth : float) (c c' b b' : Trajectory) :
  cost_ c' = cost_ c ->
  (Cpp.geb (cost_ c) 0 = true -> c' = c) ->
  (cost_ b = -1 /\ cost_ b' = -1) \/ b' = b ->
  is_better_in_place env P x y theta vx vy vtheta acc_x acc_y acc_theta
    vth c' b'
  = is_better_in_place env P x y theta vx vy vtheta acc_x acc_y acc_theta
      vth c b.
Proof.
  intros Hcost Hlegal Hb. unfold is_better_in_place. rewrite Hcost.
  destruct (Cpp.geb (cost_ c) 0) eqn:E; [|reflexivity].
  rewrite (Hlegal eq_refl).
  destruct Hb as [[H1 H2]| ->]; [|reflexivity].
  rewrite H1, H2. replace (-1 <? 0) with true by reflexivity.
  rewrite !orb_true_r. reflexivity.
Qed.

Lemma swap_same (l l' : Locals) :
  same_search l l' ->
  Cpp.geb (cost_ (comp_of l)) 0 = true ->
  comp_of l' = comp_of l ->
  same_search (swap_best l) (swap_best l').
Proof.
  intros (Hvx & Hvy & Hvt & Hb & Hc & Hne & _) Hlegal Hcomp.
  repeat split; try assumption.
  - cbn [swap_best best_traj comp_traj]. congruence.
  - right. split; assumption.
Qed.

Lemma sample_same (l l' : Locals) :
  same_search l l' ->
  same_search
    (sample env P x y theta vx vy vtheta acc_x acc_y acc_theta l)
    (sample env P x y theta vx vy vtheta acc_x acc_y acc_theta l').
Proof.
  intros H. unfold sample.
  pose proof H as (Hvx & Hvy & Hvt & _).
  rewrite Hvx, Hvy, Hvt.
  fold (gen (vx_samp l) (vy_samp l) (vtheta_samp l) l).
  fold (gen (vx_samp l) (vy_samp l) (vtheta_samp l) l').
  destruct (gen_same (vx_samp l) (vy_samp l) (vtheta_samp l) l l' H)
    as (Hm & Hcost & Hlegal).
  rewrite (is_better_same _ _ _ _ Hcost Hlegal (same_search_best_cost _ _ Hm)).
  destruct (is_better _ _ _ _ _ _ _ _ _ _ _ _ _) eqn:Hbetter; [|exact Hm].
  apply andb_prop in Hbetter as [Hbetter _].
  apply andb_prop in Hbetter as [Hc _].
  apply (swap_same _ _ Hm Hc (Hlegal Hc)).
Qed.

Lemma in_place_body_same (l l' : Locals) :
  same_search l l' ->
  same_search
    (in_place_body env P x y theta vx vy vtheta acc_x acc_y acc_theta l)
    (in_place_body env P x y theta vx vy vtheta acc_x acc_y acc_theta l').
Proof.
  intros H. unfold in_place_body.
  pose proof H as (Hvx & Hvy & Hvt & _).
  rewrite Hvx, Hvy, Hvt.
  set (vth := if Cpp.gtb (vtheta_samp l) 0 then _ else _).
  fold (gen (vx_samp l) (vy_samp l) vth l).
  fold (gen (vx_samp l) (vy_samp l) vth l').
  destruct (gen_same (vx_samp l) (vy_samp l) vth l l' H) as (Hm & Hcost & Hlegal).
  assert (Hvt' : vtheta_samp (gen (vx_samp l) (vy_samp l) vth l')
                 = vtheta_samp (gen (vx_samp l) (vy_samp l) vth l))
    by exact Hvt.
  rewrite Hvt'.
  assert (Hbest :
    (cost_ (best_of (gen (vx_samp l) (vy_samp l) vth l)) = -1 /\
     cost_ (best_of (gen (vx_samp l) (vy_samp l) vth l')) = -1)
    \/ best_of (gen (vx_samp l) (vy_samp l) vth l')
       = best_of (gen (vx_samp l) (vy_samp l) vth l)).
  { destruct Hm as (_ & _ & _ & _ & _ & _ & [Hu|[_ He]]);
      [left; exact Hu|right; exact He]. }
  rewrite (is_better_in_place_same _ _ _ _ _ Hcost Hlegal Hbest).
  destruct (is_better_in_place _ _ _ _ _ _ _ _ _ _ _ _ _ _) eqn:Hbetter.
  - apply andb_prop in Hbetter as [Hbetter _].
    apply andb_prop in Hbetter as [Hbetter _].
    apply andb_prop in Hbetter as [Hc _].
    pose proof (swap_same _ _ Hm Hc (Hlegal Hc)) as Hs.
    destruct Hs as (Hs1 & Hs2 & Hs3 & Hs).
    repeat split; try assumption; try apply Hs.
    exact (f_equal
             (fun v => v + dvtheta env P x y vx vtheta acc_x acc_y acc_theta)
             Hvt').
  - destruct Hm as (Hs1 & Hs2 & Hs3 & Hs).
    repeat split; try assumption; try apply Hs.
    exact (f_equal
             (fun v => v + dvtheta env P x y vx vtheta acc_x acc_y acc_theta)
             Hvt').
Qed.

Lemma theta_sweep_body_same (l l' : Locals) :
  same_search l l' ->
  same_search
    (theta_sweep_body env P x y theta vx vy vtheta acc_x acc_y acc_theta l)
    (theta_sweep_body env P x y theta vx vy vtheta acc_x acc_y acc_theta l').
Proof.
  intros H. unfold theta_sweep_body.
  pose proof (sample_same l l' H) as H1.
  pose proof H1 as (_ & _ & Hvt & _). rewrite Hvt.
  apply same_search_set_vtheta, H1.
Qed.

Lemma x_sweep_body_same (l l' : Locals) :
  same_search l l' ->
  same_search
    (x_sweep_body env P x y theta vx vy vtheta acc_x acc_y acc_theta l)
    (x_sweep_body env P x y theta vx vy vtheta acc_x acc_y acc_theta l').
Proof.
  intros H. unfold x_sweep_body.
  pose proof (sample_same _ _ (same_search_set_vtheta 0 l l' H)) as H1.
  pose proof (for_n_related same_search _ theta_sweep_body_same
                (Cpp.trip_count (vtheta_samples_ (settings P) - 1)) _ _
                (same_search_set_vtheta
                   (min_vel_theta
                      (velocity_window env P x y vx vtheta
                         acc_x acc_y acc_theta)) _ _ H1)) as H3.
  pose proof H3 as (Hvx & _). rewrite Hvx.
  apply same_search_set_vx, H3.
Qed.

Lemma y_sweep_body_same (l l' : Locals) :
  same_search l l' ->
  same_search
    (y_sweep_body env P x y theta vx vy vtheta acc_x acc_y acc_theta l)
    (y_sweep_body env P x y theta vx vy vtheta acc_x acc_y acc_theta l').
Proof.
  intros H. unfold y_sweep_body.
  pose proof H as (_ & Hvy & _). rewrite Hvy.
  destruct (Cpp.fabs (vy_samp l) <? 0.01).
  - apply same_search_set_vy, H.
  - pose proof (sample_same l l' H) as H1.
    pose proof H1 as (_ & Hvy1 & _). rewrite Hvy1.
    apply same_search_set_vy, H1.
Qed.

Lemma xy_sweep_body_same (l l' : Locals) :
  same_search l l' ->
  same_search
    (xy_sweep_body env P x y theta vx vy vtheta acc_x acc_y acc_theta l)
    (xy_sweep_body env P x y theta vx vy vtheta acc_x acc_y acc_theta l').
Proof.
  intros H. unfold xy_sweep_body.
  pose proof (for_n_related same_search _ y_sweep_body_same
                (Cpp.trip_count (vy_samples_ (settings P) - 1)) _ _
                (same_search_set_vy
                   (min_vel_y
                      (velocity_window env P x y vx vtheta
                         acc_x acc_y acc_theta)) _ _
                   (same_search_set_vtheta 0 l l' H))) as H2.
  pose proof H2 as (Hvx & _). rewrite Hvx.
  apply same_search_set_vx, H2.
Qed.

(** The three tiers, run from related locals, end in related locals. *)
Lemma tiers_same (l l' : Locals) :
  same_search l l' ->
  same_search
    (in_place_sweep env P x y theta vx vy vtheta acc_x acc_y acc_theta
       (strafe_sweeps env P x y theta vx vy vtheta acc_x acc_y acc_theta
          (translate_rotate_sweep env P x y theta vx vy vtheta
             acc_x acc_y acc_theta l)))
    (in_place_sweep env P x y theta vx vy vtheta acc_x acc_y acc_theta
       (strafe_sweeps env P x y theta vx vy vtheta acc_x acc_y acc_theta
          (translate_rotate_sweep env P x y theta vx vy vtheta
             acc_x acc_y acc_theta l'))).
Proof.
  intros H.
  assert (H1 : same_search
                 (translate_rotate_sweep env P x y theta vx vy vtheta
                    acc_x acc_y acc_theta l)
                 (translate_rotate_sweep env P x y theta vx vy vtheta
                    acc_x acc_y acc_theta l')).
  { unfold translate_rotate_sweep.
    apply (for_n_related same_search _ x_sweep_body_same), H. }
  assert (H2 : same_search
                 (strafe_sweeps env P x y theta vx vy vtheta
                    acc_x acc_y acc_theta
                    (translate_rotate_sweep env P x y theta vx vy vtheta
                       acc_x acc_y acc_theta l))
                 (strafe_sweeps env P x y theta vx vy vtheta
                    acc_x acc_y acc_theta
                    (translate_rotate_sweep env P x y theta vx vy vtheta
                       acc_x acc_y acc_theta l'))).
  { unfold strafe_sweeps.
    destruct (holonomic_robot_ (settings P)); [|exact H1].
    apply (for_n_related same_search _ xy_sweep_body_same).
    apply same_search_set_vx.
    apply (for_n_related same_search _ y_sweep_body_same).
    apply same_search_set_vy, same_search_set_vx, same_search_set_vtheta.
    exact H1. }
  unfold in_place_sweep.
  apply (for_n_related same_search _ in_place_body_same).
  apply same_search_set_vy, same_search_set_vx, same_search_set_vtheta.
  exact H2.
Qed.

End BuffersCarriedOver.

(** The sampling tiers of a planner and of the same planner with other
    contents in its guard and buffers end in related locals. *)
Lemma sampling_tiers_same (env : Env) (P : Planner) (g' : Guard)
    (b' : Buffers) (x y theta vx vy vtheta acc_x acc_y acc_theta : float) :
  same_search
    (sampling_tiers env P x y theta vx vy vtheta acc_x acc_y acc_theta)
    (sampling_tiers env (with_state g' b' P) x y theta vx vy vtheta
       acc_x acc_y acc_theta).
Proof.
  unfold sampling_tiers.
  assert (Hframe :
    forall l,
      in_place_sweep env (with_state g' b' P) x y theta vx vy vtheta
        acc_x acc_y acc_theta
        (strafe_sweeps env (with_state g' b' P) x y theta vx vy vtheta
           acc_x acc_y acc_theta
           (translate_rotate_sweep env (with_state g' b' P) x y theta
              vx vy vtheta acc_x acc_y acc_theta l))
      = in_place_sweep env P x y theta vx vy vtheta acc_x acc_y acc_theta
          (strafe_sweeps env P x y theta vx vy vtheta acc_x acc_y acc_theta
             (translate_rotate_sweep env P x y theta vx vy vtheta
                acc_x acc_y acc_theta l))).
  { intros l. destruct P. reflexivity. }
  rewrite Hframe. apply tiers_same.
  destruct P. repeat split.
  - discriminate.
  - left. split; reflexivity.
Qed.

Lemma createTrajectories_with_state (env : Env) (P : Planner)
    (x y theta vx vy vtheta acc_x acc_y acc_theta : float) :
  let P' := fst (createTrajectories env P x y theta vx vy vtheta
                   acc_x acc_y acc_theta) in
  P' = with_state (guard P') (buffers P') P.
Proof.
  unfold createTrajectories. destruct (Cpp.geb _ 0); reflexivity.
Qed.

(** After a call that ends in the backup tier with a legal backup
    trajectory, the first buffer is as before the call, with the cost 1. *)
Lemma createTrajectories_backup_first_buffer (env : Env) (P : Planner)
    (x y theta vx vy vtheta acc_x acc_y acc_theta : float) :
  let tiers :=
    sampling_tiers env P x y theta vx vy vtheta acc_x acc_y acc_theta in
  let backup :=
    generateTrajectory env P x y theta vx vy vtheta
      (backup_vel_ (settings P)) 0 0 acc_x acc_y acc_theta
      (obstacleCosts (path_map_ P)) (traj_two (bufs tiers)) in
  Cpp.geb (cost_ (best_of tiers)) 0 = false ->
  Cpp.geb (cost_ backup) 0 = true ->
  traj_one (buffers (fst (createTrajectories env P x y theta vx vy vtheta
                            acc_x acc_y acc_theta)))
  = set_cost 1 (traj_one (buffers P)).
Proof.
  intros tiers backup Hneg Hlegal.
  pose proof (sampling_tiers_inv env P x y theta vx vy vtheta
                acc_x acc_y acc_theta) as Hinv.
  fold tiers in Hinv.
  destruct (search_inv_unset env P x y theta vx vy vtheta acc_x acc_y
              acc_theta tiers Hinv Hneg) as (Hb & Hc & Ht).
  unfold createTrajectories. fold tiers. rewrite Hneg.
  unfold backup_epilogue, backup_tier, generate_into_comp, best_of, comp_of.
  cbn [bufs best_traj comp_traj vx_samp vy_samp vtheta_samp
       set_vx_samp set_vy_samp set_vtheta_samp].
  rewrite Hb, Hc. cbn [load store traj_one traj_two].
  fold (impossible_cost P). unfold impossible_cost. fold backup.
  rewrite Ht. cbn [cost_ set_cost].
  replace (-1 <? 0) with true by reflexivity.
  rewrite orb_true_r, andb_true_r, Hlegal.
  cbn [swap_best best_traj comp_traj bufs load store traj_one traj_two
       fst cost_ set_cost].
  replace (-1 =? -1) with true by reflexivity.
  cbn [load store traj_one traj_two set_buffers buffers].
  destruct (traj_one (buffers P)); reflexivity.
Qed.

(** What the trajectory returned owes to the contents of the guard and
    of the buffers at the call: nothing when the sampling tiers select a
    trajectory; nothing in velocity and cost when the backup trajectory is
    illegal; and, when the backup trajectory is legal, everything but the
    cost, as the first buffer is returned with the cost 1. *)
Lemma createTrajectories_other_buffers (env : Env) (P : Planner)
    (g' : Guard) (b' : Buffers)
    (x y theta vx vy vtheta acc_x acc_y acc_theta : float) :
  let r := snd (createTrajectories env P x y theta vx vy vtheta
                  acc_x acc_y acc_theta) in
  let r' := snd (createTrajectories env (with_state g' b' P)
                   x y theta vx vy vtheta acc_x acc_y acc_theta) in
  let tiers :=
    sampling_tiers env P x y theta vx vy vtheta acc_x acc_y acc_theta in
  let backup :=
    generateTrajectory env P x y theta vx vy vtheta
      (backup_vel_ (settings P)) 0 0 acc_x acc_y acc_theta
      (obstacleCosts (path_map_ P)) (traj_two (bufs tiers)) in
  (Cpp.geb (cost_ (best_of tiers)) 0 = true -> r' = r) /\
  (Cpp.geb (cost_ (best_of tiers)) 0 = false ->
   Cpp.geb (cost_ backup) 0 = false ->
   command_of r' = command_of r) /\
  (Cpp.geb (cost_ (best_of tiers)) 0 = false ->
   Cpp.geb (cost_ backup) 0 = true ->
   r = set_cost 1 (traj_one (buffers P)) /\
   r' = set_cost 1 (traj_one b')).
Proof.
  intros r r' tiers backup.
  set (P' := with_state g' b' P).
  set (tiers' := sampling_tiers env P' x y theta vx vy vtheta
                   acc_x acc_y acc_theta).
  pose proof (sampling_tiers_same env P g' b' x y theta vx vy vtheta
                acc_x acc_y acc_theta) as Hsame.
  fold tiers in Hsame. fold P' in Hsame. fold tiers' in Hsame.
  pose proof (same_search_best_cost _ _ Hsame) as Hcost.
  set (backup' :=
         generateTrajectory env P' x y theta vx vy vtheta
           (backup_vel_ (settings P')) 0 0 acc_x acc_y acc_theta
           (obstacleCosts (path_map_ P')) (traj_two (bufs tiers'))).
  assert (Hframe :
    backup' = generateTrajectory env P x y theta vx vy vtheta
                (backup_vel_ (settings P)) 0 0 acc_x acc_y acc_theta
                (obstacleCosts (path_map_ P)) (traj_two (bufs tiers'))).
  { unfold backup', P'. clearbody tiers'. clear. destruct P. reflexivity. }
  pose proof (generateTrajectory_buffer env P x y theta vx vy vtheta
                (backup_vel_ (settings P)) 0 0 acc_x acc_y acc_theta
                (obstacleCosts (path_map_ P))
                (traj_two (bufs tiers)) (traj_two (bufs tiers')))
    as (Hxv & Hyv & Hth & Hc & _).
  rewrite <- Hframe in Hxv, Hyv, Hth, Hc. fold backup in Hxv, Hyv, Hth, Hc.
  split; [|split].
  - intros Hlegal.
    unfold r, r', createTrajectories. fold P'. fold tiers. fold tiers'.
    rewrite Hcost, Hlegal. cbn [snd].
    apply (same_search_legal _ _ Hsame Hlegal).
  - intros Hneg Hbad.
    unfold r, r'. fold P'.
    rewrite (createTrajectories_backup env P x y theta vx vy vtheta
               acc_x acc_y acc_theta Hneg).
    rewrite (createTrajectories_backup env P' x y theta vx vy vtheta
               acc_x acc_y acc_theta)
      by (fold tiers'; rewrite Hcost; exact Hneg).
    fold tiers. fold tiers'. fold backup. fold backup'.
    rewrite Hc, Hbad.
    destruct (cost_ backup =? -1); unfold command_of; cbn [xv_ yv_ thetav_
      cost_ set_cost]; congruence.
  - intros Hneg Hgood.
    unfold r, r'. fold P'.
    rewrite (createTrajectories_backup env P x y theta vx vy vtheta
               acc_x acc_y acc_theta Hneg).
    rewrite (createTrajectories_backup env P' x y theta vx vy vtheta
               acc_x acc_y acc_theta)
      by (fold tiers'; rewrite Hcost; exact Hneg).
    fold tiers. fold tiers'. fold backup. fold backup'.
    rewrite Hc, Hgood. split; reflexivity.
Qed.

(** Two calls in a row with the same arguments return the same velocity
    and cost.  The stale first buffer that a legal backup trajectory
    brings out is the same in both calls; calls apart are not covered. *)
Lemma back_to_back_calls_agree (env : Env) (P : Planner)
    (x y theta vx vy vtheta acc_x acc_y acc_theta : float) :
  let call1 := createTrajectories env P x y theta vx vy vtheta
                 acc_x acc_y acc_theta in
  let call2 := createTrajectories env (fst call1) x y theta vx vy vtheta
                 acc_x acc_y acc_theta in
  command_of (snd call2) = command_of (snd call1).
Proof.
  intros call1 call2.
  set (tiers := sampling_tiers env P x y theta vx vy vtheta
                  acc_x acc_y acc_theta).
  set (backup :=
         generateTrajectory env P x y theta vx vy vtheta
           (backup_vel_ (settings P)) 0 0 acc_x acc_y acc_theta
           (obstacleCosts (path_map_ P)) (traj_two (bufs tiers))).
  pose proof (createTrajectories_with_state env P x y theta vx vy vtheta
                acc_x acc_y acc_theta) as Hstate.
  cbv zeta in Hstate. fold call1 in Hstate.
  destruct (createTrajectories_other_buffers env P (guard (fst call1))
              (buffers (fst call1)) x y theta vx vy vtheta
              acc_x acc_y acc_theta) as (Hsel & Hbad & Hgood).
  rewrite <- Hstate in Hsel, Hbad, Hgood.
  fold call1 in Hsel, Hbad, Hgood. fold call2 in Hsel, Hbad, Hgood.
  fold tiers in Hsel, Hbad, Hgood. fold backup in Hbad, Hgood.
  destruct (Cpp.geb (cost_ (best_of tiers)) 0) eqn:Htiers.
  - rewrite (Hsel eq_refl). reflexivity.
  - destruct (Cpp.geb (cost_ backup) 0) eqn:Hbackup.
    + destruct (Hgood eq_refl eq_refl) as [H1 H2].
      rewrite H1, H2. unfold call1.
      rewrite (createTrajectories_backup_first_buffer env P x y theta
                 vx vy vtheta acc_x acc_y acc_theta Htiers Hbackup).
      reflexivity.
    + apply (Hbad eq_refl eq_refl).
Qed.

(** ** The velocity a trajectory records *)

(** The velocity of the trajectory in a loop state or outcome. *)
Lemma sim_body_velocity (env : Env) (P : Planner)
    (vxs vys vths ax ay ath imp : float) (n : Z) (dt : float)
    (i : Z) (s : Sim) :
  match sim_body env P vxs vys vths ax ay ath imp n dt i s with
  | Next s' =>
      xv_ (traj s') = xv_ (traj s) /\ yv_ (traj s') = yv_ (traj s) /\
      thetav_ (traj s') = thetav_ (traj s)
  | Return t =>
      xv_ t = xv_ (traj s) /\ yv_ t = yv_ (traj s) /\
      thetav_ t = thetav_ (traj s)
  end.
Proof.
  unfold sim_body.
  destruct (worldToMap env (x_i s) (y_i s)) as [[cx cy]|];
    [|repeat split].
  destruct (headingDiff env P cx cy (x_i s) (y_i s) (theta_i s))
    as [[h gd] pd].
  destruct (footprintCost env (x_i s) (y_i s) (theta_i s) <? 0);
    [repeat split|].
  destruct (simple_attractor_ (settings P)); [repeat split|].
  destruct (heading_scoring_ (settings P)), (i =? n - 1)%Z; simpl;
    repeat match goal with
    | |- context [if ?b then _ else _] => destruct b
    end; repeat split.
Qed.

Lemma sim_loop_velocity (env : Env) (P : Planner)
    (vxs vys vths ax ay ath imp : float) (n : Z) (dt : float)
    (k : nat) (i : Z) (s : Sim) :
  match sim_loop env P vxs vys vths ax ay ath imp n dt k i s with
  | Next s' =>
      xv_ (traj s') = xv_ (traj s) /\ yv_ (traj s') = yv_ (traj s) /\
      thetav_ (traj s') = thetav_ (traj s)
  | Return t =>
      xv_ t = xv_ (traj s) /\ yv_ t = yv_ (traj s) /\
      thetav_ t = thetav_ (traj s)
  end.
Proof.
  revert i s. induction k as [|k IH]; intros i s; [repeat split|].
  cbn [sim_loop].
  pose proof (sim_body_velocity env P vxs vys vths ax ay ath imp n dt i s)
    as Hb.
  destruct (sim_body env P vxs vys vths ax ay ath imp n dt i s) as [s'|t];
    [|exact Hb].
  specialize (IH (i + 1)%Z s').
  destruct (sim_loop env P vxs vys vths ax ay ath imp n dt k (i + 1) s');
    destruct Hb as (H1 & H2 & H3), IH as (I1 & I2 & I3);
    repeat split; congruence.
Qed.

(** [generateTrajectory] records the sampled velocity, whatever the
    outcome. *)
Lemma generateTrajectory_velocity (env : Env) (P : Planner)
    (x y theta vx vy vtheta vxs vys vths ax ay ath imp : float)
    (t : Trajectory) :
  let r := generateTrajectory env P x y theta vx vy vtheta vxs vys vths
             ax ay ath imp t in
  xv_ r = vxs /\ yv_ r = vys /\ thetav_ r = vths.
Proof.
  intros r. unfold r, generateTrajectory, run_simulation.
  pose proof (sim_loop_velocity env P vxs vys vths ax ay ath imp
                (num_steps_of env P vxs vys vths)
                (sim_time_ (settings P)
                 / Cpp.int_to_double (num_steps_of env P vxs vys vths))
                (Cpp.trip_count (num_steps_of env P vxs vys vths)) 0%Z
                (initial_sim x y theta vx vy vtheta vxs vys vths t)) as H.
  destruct (sim_loop _ _ _ _ _ _ _ _ _ _ _ _ _) as [s|u]; exact H.
Qed.

(** The backup tier runs exactly when the sampling tiers took no
    candidate.  It then simulates one trajectory, at [backup_vel_] with no
    lateral and no angular velocity, into the second buffer; otherwise the
    buffers are returned as the tiers left them. *)
Lemma backup_tier_generation (env : Env) (P : Planner)
    (x y theta vx vy vtheta acc_x acc_y acc_theta : float) :
  let tiers :=
    sampling_tiers env P x y theta vx vy vtheta acc_x acc_y acc_theta in
  let r := createTrajectories env P x y theta vx vy vtheta
             acc_x acc_y acc_theta in
  (Cpp.geb (cost_ (best_of tiers)) 0 = true ->
   buffers (fst r) = bufs tiers /\ snd r = best_of tiers) /\
  (Cpp.geb (cost_ (best_of tiers)) 0 = false ->
   r = backup_epilogue env P x y theta
         (backup_tier env P x y theta vx vy vtheta acc_x acc_y acc_theta
            tiers) /\
   xv_ (traj_two (buffers (fst r))) = backup_vel_ (settings P) /\
   yv_ (traj_two (buffers (fst r))) = 0 /\
   thetav_ (traj_two (buffers (fst r))) = 0).
Proof.
  intros tiers r. split.
  - intros Hlegal. unfold r, createTrajectories. fold tiers.
    rewrite Hlegal. split; reflexivity.
  - intros Hneg.
    assert (Hr : r = backup_epilogue env P x y theta
                       (backup_tier env P x y theta vx vy vtheta
                          acc_x acc_y acc_theta tiers)).
    { unfold r, createTrajectories. fold tiers. rewrite Hneg. reflexivity. }
    split; [exact Hr|].
    pose proof (sampling_tiers_inv env P x y theta vx vy vtheta
                  acc_x acc_y acc_theta) as Hinv.
    fold tiers in Hinv.
    destruct (search_inv_unset env P x y theta vx vy vtheta acc_x acc_y
                acc_theta tiers Hinv Hneg) as (Hb & Hc & Ht).
    pose proof (generateTrajectory_velocity env P x y theta vx vy vtheta
                  (backup_vel_ (settings P)) 0 0 acc_x acc_y acc_theta
                  (impossible_cost P) (traj_two (bufs tiers)))
      as (Hxv & Hyv & Hth).
    rewrite Hr.
    unfold backup_epilogue, backup_tier, generate_into_comp, best_of, comp_of.
    cbn [bufs best_traj comp_traj vx_samp vy_samp vtheta_samp
         set_vx_samp set_vy_samp set_vtheta_samp].
    rewrite Hb, Hc. cbn [load store traj_one traj_two].
    rewrite Ht. cbn [cost_ set_cost].
    destruct (Cpp.geb _ 0 && _)%bool;
      cbn [swap_best best_traj comp_traj bufs load store traj_one traj_two
           fst cost_ set_cost];
      match goal with
      | |- context [if ?c then _ else _] => destruct c
      end;
      cbn [fst set_buffers buffers traj_two store load xv_ yv_ thetav_
           set_cost traj_one];
      repeat split; assumption.
Qed.

(** A call that ends in the backup tier leaves the anchor of the guard
    where it was, and its flags as they were or all cleared. *)
Lemma backup_return_keeps_guard (env : Env) (P : Planner)
    (x y theta vx vy vtheta acc_x acc_y acc_theta : float) :
  let tiers :=
    sampling_tiers env P x y theta vx vy vtheta acc_x acc_y acc_theta in
  let g' := guard (fst (createTrajectories env P x y theta vx vy vtheta
                          acc_x acc_y acc_theta)) in
  Cpp.geb (cost_ (best_of tiers)) 0 = false ->
  anchor_of g' = anchor_of (guard P) /\
  flags_of g' =
    if Cpp.gtb (hypot env (x - prev_x_ (guard P)) (y - prev_y_ (guard P)))
         (oscillation_reset_dist_ (settings P))
    then [false; false; false; false; false; false; false; false]
    else flags_of (guard P).
Proof.
  intros tiers g' Hneg.
  unfold g', createTrajectories. fold tiers. rewrite Hneg.
  unfold backup_epilogue. cbn [fst guard set_buffers set_guard].
  set (g1 := reset_oscillation env (settings P) x y (guard P)).
  set (g2 := if (negb (escaping_ g1) && _)%bool then _ else g1).
  destruct (reset_escaping_keeps env (settings P) x y theta g2)
    as [Hflags Hanchor].
  rewrite Hflags, Hanchor.
  assert (H2 : flags_of g2 = flags_of g1 /\ anchor_of g2 = anchor_of g1).
  { unfold g2. destruct (negb (escaping_ g1) && _)%bool; split; reflexivity. }
  destruct H2 as [-> ->].
  split.
  - apply reset_oscillation_anchor.
  - apply reset_oscillation_flags.
Qed.

(** * Further properties *)

(** ** Ray tracing *)

Lemma in_bytes (a : Z) : (0 <= a <= 255)%Z -> In a bytes.
Proof.
  intros H. unfold bytes. rewrite <- (Z2Nat.id a) by lia.
  apply in_map, in_seq. lia.
Qed.

(** On the values of an [unsigned char], the conversion to [double]
    keeps the order, and gives no negative number. *)
Lemma byte_order_table :
  forallb (fun a =>
    forallb (fun b =>
      Bool.eqb (Cpp.int_to_double a <? Cpp.int_to_double b) (a <? b)%Z)
      bytes) bytes = true.
Proof. vm_compute. reflexivity. Qed.

Lemma byte_ltb (a b : Z) :
  (0 <= a <= 255)%Z -> (0 <= b <= 255)%Z ->
  (Cpp.int_to_double a <? Cpp.int_to_double b) = (a <? b)%Z.
Proof.
  intros Ha Hb. pose proof byte_order_table as H.
  rewrite forallb_forall in H. specialize (H a (in_bytes a Ha)).
  rewrite forallb_forall in H. specialize (H b (in_bytes b Hb)).
  apply Bool.eqb_prop in H. exact H.
Qed.

Lemma byte_not_negative (a : Z) :
  (0 <= a <= 255)%Z -> (Cpp.int_to_double a <? 0) = false.
Proof.
  intros Ha. change 0 with (Cpp.int_to_double 0).
  rewrite (byte_ltb a 0 Ha) by lia. apply Z.ltb_ge. lia.
Qed.

Section RayFacts.

Variable env : Env.
Variable cv : CostValues.

Hypothesis getCost_byte : forall x y, (0 <= getCost env x y <= 255)%Z.

Lemma highest_cost_byte (cells : list (Z * Z)) :
  (0 <= highest_cost env cells <= 255)%Z.
Proof.
  induction cells as [|c cells IH]; simpl; [lia|].
  pose proof (getCost_byte (fst c) (snd c)). lia.
Qed.

Lemma line_loop_highest (r : Raster) (k : nat) (p : Pixel) (a : Z) :
  (0 <= a <= 255)%Z ->
  line_loop env cv r k p (Cpp.int_to_double a) =
  if existsb (reserved_cell env cv) (line_cells r k p) then -1
  else Cpp.int_to_double (Z.max a (highest_cost env (line_cells r k p))).
Proof.
  revert p a. induction k as [|k IH]; intros p a Ha.
  - simpl. rewrite Z.max_l by lia. reflexivity.
  - cbn [line_loop line_cells existsb highest_cost fold_right].
    unfold pointCost, reserved_cell. cbn [fst snd].
    pose proof (getCost_byte (pixel_x p) (pixel_y p)) as Hc.
    destruct (_ || _ || _)%bool.
    + reflexivity.
    + rewrite (byte_not_negative _ Hc). cbn [orb].
      rewrite (byte_ltb _ _ Ha Hc).
      fold (highest_cost env (line_cells r k (next_pixel r p))).
      pose proof (highest_cost_byte (line_cells r k (next_pixel r p))) as Hh.
      destruct (a <? getCost env (pixel_x p) (pixel_y p))%Z eqn:E.
      * apply Z.ltb_lt in E. rewrite (IH _ _ Hc).
        destruct (existsb _ _); [reflexivity|]. f_equal. lia.
      * apply Z.ltb_ge in E. rewrite (IH _ _ Ha).
        destruct (existsb _ _); [reflexivity|]. f_equal. lia.
Qed.

End RayFacts.

Lemma for_n_end {A : Type} (f : A -> A) (k : nat) (a : A) :
  Cpp.for_n (S k) f a = f (Cpp.for_n k f a).
Proof.
  revert a. induction k as [|k IH]; intros a; [reflexivity|].
  change (Cpp.for_n (S (S k)) f a) with (Cpp.for_n (S k) f (f a)).
  rewrite IH. reflexivity.
Qed.

Lemma line_cells_length (r : Raster) (k : nat) (p : Pixel) :
  List.length (line_cells r k p) = k.
Proof.
  revert p. induction k as [|k IH]; intros p; simpl; [|rewrite IH];
    reflexivity.
Qed.

Lemma line_cells_In (r : Raster) (k : nat) (p : Pixel) (c : Z * Z) :
  In c (line_cells r k p) ->
  exists j, (j < k)%nat /\
    c = (pixel_x (pixel_after r j p), pixel_y (pixel_after r j p)).
Proof.
  revert p. induction k as [|k IH]; intros p; simpl; [tauto|].
  intros [<-|H].
  - exists O. split; [lia|reflexivity].
  - destruct (IH _ H) as (j & Hj & ->). exists (S j). split; [lia|].
    reflexivity.
Qed.

Lemma line_cells_last (r : Raster) (k : nat) (p : Pixel) (d : Z * Z) :
  last (line_cells r (S k) p) d =
  (pixel_x (pixel_after r k p), pixel_y (pixel_after r k p)).
Proof.
  revert p. induction k as [|k IH]; intros p; [reflexivity|].
  change (line_cells r (S (S k)) p)
    with ((pixel_x p, pixel_y p) :: line_cells r (S k) (next_pixel r p)).
  change (last (?a :: line_cells r (S k) ?q) d)
    with (last (line_cells r (S k) q) d).
  rewrite IH. reflexivity.
Qed.

(** Where the pixel is after [k] iterations: [q] counts the iterations
    in which the numerator reached the denominator. *)
Lemma pixel_after_position (r : Raster) (p0 : Pixel) :
  (0 < den r)%Z -> (0 <= numadd r <= den r)%Z -> (0 <= num p0 < den r)%Z ->
  forall k, exists q,
    let p := pixel_after r k p0 in
    (0 <= q)%Z /\
    pixel_x p = (pixel_x p0 + Z.of_nat k * xinc2 r + q * xinc1 r)%Z /\
    pixel_y p = (pixel_y p0 + Z.of_nat k * yinc2 r + q * yinc1 r)%Z /\
    (den r * q + num p = num p0 + Z.of_nat k * numadd r)%Z /\
    (0 <= num p < den r)%Z.
Proof.
  intros Hden Hadd Hnum k. induction k as [|k (q & Hq & Hx & Hy & Hn & Hr)].
  - exists 0%Z. cbn. repeat split; lia.
  - unfold pixel_after in *. rewrite for_n_end.
    set (p := Cpp.for_n k (next_pixel r) p0) in *. cbv zeta in *.
    unfold next_pixel.
    destruct (num p + numadd r >=? den r)%Z eqn:E.
    + exists (q + 1)%Z. cbn [pixel_x pixel_y num].
      apply Z.geb_le in E. repeat split; try lia; nia.
    + exists q. cbn [pixel_x pixel_y num].
      rewrite Z.geb_leb in E. apply Z.leb_gt in E.
      repeat split; try lia; nia.
Qed.

Lemma next_pixel_neighbour (x0 x1 y0 y1 : Z) (p : Pixel) :
  let r := raster_of x0 x1 y0 y1 in
  let p' := next_pixel r p in
  (Z.abs (pixel_x p' - pixel_x p) <= 1)%Z /\
  (Z.abs (pixel_y p' - pixel_y p) <= 1)%Z /\
  (pixel_x p, pixel_y p) <> (pixel_x p', pixel_y p').
Proof.
  unfold raster_of, next_pixel.
  destruct (Z.abs (x1 - x0) >=? Z.abs (y1 - y0))%Z;
    destruct (x1 >=? x0)%Z, (y1 >=? y0)%Z;
    cbn [xinc1 xinc2 yinc1 yinc2 den numadd];
    destruct (_ >=? _)%Z; cbn [pixel_x pixel_y];
    (split; [lia|split; [lia|intros H; injection H; lia]]).
Qed.

Lemma line_cells_chain (x0 x1 y0 y1 : Z) (k : nat) (p : Pixel) :
  chain (line_cells (raster_of x0 x1 y0 y1) k p).
Proof.
  revert p. induction k as [|k IH]; intros p; [exact I|].
  destruct k as [|k]; [exact I|].
  change (line_cells ?r (S (S k)) p)
    with ((pixel_x p, pixel_y p) ::
          (pixel_x (next_pixel r p), pixel_y (next_pixel r p)) ::
          line_cells r k (next_pixel r (next_pixel r p))).
  cbn [chain fst snd].
  destruct (next_pixel_neighbour x0 x1 y0 y1 p) as (Hx & Hy & Hne).
  repeat split; try assumption.
  apply (IH (next_pixel (raster_of x0 x1 y0 y1) p)).
Qed.

(** X1: the cells [lineCost] visits, as long as none stops it, run from
    the cell (x0, y0) to the cell (x1, y1): there are one more of them than
    the larger of the two coordinate differences, the first is (x0, y0),
    the last is (x1, y1), each is a different cell among the eight
    neighbours of the one before, and all lie in the rectangle the two end
    cells span. *)
Theorem ray_joins_end_cells (x0 x1 y0 y1 : Z) :
  let cells := ray x0 x1 y0 y1 in
  List.length cells
  = S (Z.to_nat (Z.max (Z.abs (x1 - x0)) (Z.abs (y1 - y0)))) /\
  (exists rest, cells = (x0, y0) :: rest) /\
  last cells (x0, y0) = (x1, y1) /\
  chain cells /\
  forall c, In c cells ->
    (Z.min x0 x1 <= fst c <= Z.max x0 x1)%Z /\
    (Z.min y0 y1 <= snd c <= Z.max y0 y1)%Z.
Proof.
  intros cells.
  set (r := raster_of x0 x1 y0 y1).
  set (n := Z.to_nat (Z.max (Z.abs (x1 - x0)) (Z.abs (y1 - y0)))).
  assert (Hpix : numpixels r = Z.max (Z.abs (x1 - x0)) (Z.abs (y1 - y0))
                 /\ den r = numpixels r).
  { unfold r, raster_of.
    destruct (Z.abs (x1 - x0) >=? Z.abs (y1 - y0))%Z eqn:E;
      cbn [numpixels den]; rewrite Z.geb_leb in E;
      [apply Z.leb_le in E|apply Z.leb_gt in E]; lia. }
  destruct Hpix as (Hpix & Hden).
  assert (Hk : Cpp.trip_count (numpixels r + 1) = S n).
  { unfold Cpp.trip_count, n. rewrite Hpix. lia. }
  assert (Hcells : cells = line_cells r (S n) (mkPixel x0 y0 (num0 r))).
  { unfold cells, ray. fold r. rewrite Hk. reflexivity. }
  (* where the pixel is after [j <= n] iterations *)
  assert (Hpos : forall j, (j <= n)%nat ->
    let p := pixel_after r j (mkPixel x0 y0 (num0 r)) in
    (Z.min x0 x1 <= pixel_x p <= Z.max x0 x1)%Z /\
    (Z.min y0 y1 <= pixel_y p <= Z.max y0 y1)%Z /\
    (j = n -> pixel_x p = x1 /\ pixel_y p = y1)).
  { intros j Hj.
    destruct (Z.eq_dec (den r) 0) as [Hz|Hnz].
    { assert (Hn : n = O) by (unfold n; lia).
      assert (Hj0 : j = O) by lia. subst j.
      unfold pixel_after. cbn [Cpp.for_n pixel_x pixel_y]. lia. }
    assert (Hd : (0 < den r)%Z) by lia.
    assert (Hn0 : (0 <= num0 r < den r)%Z /\ (0 <= numadd r <= den r)%Z).
    { revert Hd. unfold r, raster_of.
      destruct (Z.abs (x1 - x0) >=? Z.abs (y1 - y0))%Z eqn:E;
        cbn [num0 den numadd]; rewrite Z.geb_leb in E;
        [apply Z.leb_le in E|apply Z.leb_gt in E]; intros Hd;
        (split; [split; [apply Z.quot_pos; lia|apply Z.quot_lt; lia]|lia]). }
    destruct Hn0 as (Hn0 & Hadd).
    destruct (pixel_after_position r (mkPixel x0 y0 (num0 r)) Hd Hadd Hn0 j)
      as (q & Hq & Hx & Hy & Hnum & Hr).
    cbv zeta in *. cbn [pixel_x pixel_y num] in Hx, Hy, Hnum.
    set (p := pixel_after r j (mkPixel x0 y0 (num0 r))) in *.
    assert (HjZ : (Z.of_nat j <= den r)%Z) by (unfold n in Hj; lia).
    assert (Hqle : (q <= numadd r)%Z) by nia.
    assert (Hqn : j = n -> q = numadd r).
    { intros ->. assert (Z.of_nat n = den r) by (unfold n; lia). nia. }
    revert Hx Hy Hqle Hqn HjZ Hadd. unfold r, raster_of.
    destruct (Z.abs (x1 - x0) >=? Z.abs (y1 - y0))%Z eqn:E;
      destruct (x1 >=? x0)%Z eqn:Ex, (y1 >=? y0)%Z eqn:Ey;
      cbn [xinc1 xinc2 yinc1 yinc2 den numadd];
      rewrite Z.geb_leb in E, Ex, Ey;
      [apply Z.leb_le in E|apply Z.leb_le in E|apply Z.leb_le in E
      |apply Z.leb_le in E|apply Z.leb_gt in E|apply Z.leb_gt in E
      |apply Z.leb_gt in E|apply Z.leb_gt in E];
      [apply Z.leb_le in Ex|apply Z.leb_le in Ex|apply Z.leb_gt in Ex
      |apply Z.leb_gt in Ex|apply Z.leb_le in Ex|apply Z.leb_le in Ex
      |apply Z.leb_gt in Ex|apply Z.leb_gt in Ex];
      [apply Z.leb_le in Ey|apply Z.leb_gt in Ey|apply Z.leb_le in Ey
      |apply Z.leb_gt in Ey|apply Z.leb_le in Ey|apply Z.leb_gt in Ey
      |apply Z.leb_le in Ey|apply Z.leb_gt in Ey];
      intros Hx Hy Hqle Hqn HjZ Hadd;
      (split; [lia|split; [lia|]]);
      intros Hjn; specialize (Hqn Hjn);
      assert (Z.of_nat j = Z.max (Z.abs (x1 - x0)) (Z.abs (y1 - y0)))
        by (subst j; unfold n; lia);
      lia. }
  split; [rewrite Hcells; apply line_cells_length|].
  split; [exists (line_cells r n (next_pixel r (mkPixel x0 y0 (num0 r))));
          rewrite Hcells; reflexivity|].
  split.
  { rewrite Hcells, line_cells_last.
    destruct (Hpos n (Nat.le_refl n)) as (_ & _ & H).
    destruct (H eq_refl) as (-> & ->). reflexivity. }
  split; [rewrite Hcells; apply line_cells_chain|].
  intros c Hc. rewrite Hcells in Hc.
  apply line_cells_In in Hc as (j & Hj & ->). cbn [fst snd].
  destruct (Hpos j) as (Hx & Hy & _); [lia|]. split; assumption.
Qed.

(** X2: on a costmap of [unsigned char] values, [lineCost] is -1 when
    one of the cells of the ray holds a reserved value (lethal, inscribed
    or unknown), and otherwise the highest value among the cells of the
    ray, as a double; so it is negative exactly when a cell of the ray is
    reserved. *)
Theorem lineCost_highest_cost (env : Env) (cv : CostValues)
    (x0 x1 y0 y1 : Z) :
  (forall x y, (0 <= getCost env x y <= 255)%Z) ->
  lineCost env cv x0 x1 y0 y1
  = (if existsb (reserved_cell env cv) (ray x0 x1 y0 y1) then -1
     else Cpp.int_to_double (highest_cost env (ray x0 x1 y0 y1))) /\
  (lineCost env cv x0 x1 y0 y1 <? 0)
  = existsb (reserved_cell env cv) (ray x0 x1 y0 y1).
Proof.
  intros Hbyte.
  assert (H : lineCost env cv x0 x1 y0 y1
    = if existsb (reserved_cell env cv) (ray x0 x1 y0 y1) then -1
      else Cpp.int_to_double (highest_cost env (ray x0 x1 y0 y1))).
  { unfold lineCost, ray. change 0 with (Cpp.int_to_double 0).
    rewrite (line_loop_highest env cv Hbyte) by lia.
    destruct (existsb _ _); [reflexivity|]. f_equal.
    pose proof (highest_cost_byte env Hbyte
                  (line_cells (raster_of x0 x1 y0 y1)
                     (Cpp.trip_count (numpixels (raster_of x0 x1 y0 y1) + 1))
                     (mkPixel x0 y0 (num0 (raster_of x0 x1 y0 y1))))).
    lia. }
  split; [exact H|]. rewrite H.
  destruct (existsb _ _); [reflexivity|].
  apply byte_not_negative, highest_cost_byte, Hbyte.
Qed.

Lemma lineCost_highest_cost_witness :
  lineCost CostmapScenario.world CostmapScenario.cost_values 0 3 0 1 = -1 /\
  lineCost CostmapScenario.world CostmapScenario.cost_values 0 0 0 4 = 50.
Proof.
  assert (H : forall x y,
            (0 <= getCost CostmapScenario.world x y <= 255)%Z).
  { intros x y. cbn. unfold CostmapScenario.cell_cost.
    destruct (_ && _)%bool; [lia|]. destruct (_ || _)%bool; lia. }
  split.
  - rewrite (proj1 (lineCost_highest_cost CostmapScenario.world
                      CostmapScenario.cost_values 0 3 0 1 H)).
    reflexivity.
  - rewrite (proj1 (lineCost_highest_cost CostmapScenario.world
                      CostmapScenario.cost_values 0 0 0 4 H)).
    reflexivity.
Defined.

(** ** [headingDiff] *)

(** The order of doubles is transitive. *)
Lemma SFcompare_lt_trans (f1 f2 f3 : spec_float) :
  SFcompare f1 f2 = Some Lt -> SFcompare f2 f3 = Some Lt ->
  SFcompare f1 f3 = Some Lt.
Proof.
  destruct f1 as [s1|s1| |s1 m1 e1], f2 as [s2|s2| |s2 m2 e2],
    f3 as [s3|s3| |s3 m3 e3]; simpl;
    try discriminate; try reflexivity;
    try (destruct s1; (discriminate || reflexivity));
    try (destruct s1, s2; (discriminate || reflexivity));
    try (destruct s1, s3; (discriminate || reflexivity));
    try (destruct s2, s3; (discriminate || reflexivity));
    try (destruct s1, s2, s3; (discriminate || reflexivity)).
  all: try (destruct s1, s2, s3; simpl; try discriminate; try reflexivity;
    change (Pos.compare_cont Eq) with Pos.compare;
    destruct (Z.compare_spec e1 e2), (Z.compare_spec e2 e3),
      (Z.compare_spec e1 e3);
    try discriminate; try reflexivity; try lia; subst;
    destruct (Pos.compare_spec m1 m2), (Pos.compare_spec m2 m3),
      (Pos.compare_spec m1 m3);
    simpl; try discriminate; try reflexivity; lia).
Qed.

Lemma ltb_trans (a b c : float) :
  (a <? b) = true -> (b <? c) = true -> (a <? c) = true.
Proof.
  rewrite !ltb_spec. unfold SFltb.
  destruct (SFcompare (Prim2SF a) (Prim2SF b)) as [[| |]|] eqn:E1;
    try discriminate.
  destruct (SFcompare (Prim2SF b) (Prim2SF c)) as [[| |]|] eqn:E2;
    try discriminate.
  rewrite (SFcompare_lt_trans _ _ _ E1 E2). reflexivity.
Qed.

Lemma ltb_irrefl (a : float) : (a <? a) = false.
Proof.
  destruct (a <? a) eqn:E; [|reflexivity].
  pose proof (ltb_not_geb _ _ E) as H. unfold Cpp.geb in H.
  rewrite leb_spec in H. rewrite ltb_spec in E. unfold SFltb in E.
  unfold SFleb in H.
  destruct (SFcompare (Prim2SF a) (Prim2SF a)) as [[| |]|]; discriminate.
Qed.

(** A double that is not below [m] is not below a double under [m]. *)
Lemma not_ltb_below (d m m' : float) :
  (d <? m) = false -> (m' <? m) = true -> (d <? m') = false.
Proof.
  intros H1 H2. destruct (d <? m') eqn:E; [|reflexivity].
  rewrite (ltb_trans _ _ _ E H2) in H1. discriminate.
Qed.

Section HeadingFacts.

Variable env : Env.
Variable P : Planner.
Variables x y : float.

Lemma heading_scan_body_inv (K j : nat) (h : HeadingScan) :
  (j < K)%nat ->
  scan_inv env P x y K (S j) h ->
  scan_inv env P x y K j (heading_scan_body env P x y (Z.of_nat j) h).
Proof.
  intros Hj (Hcap & Hall & Hmin). unfold heading_scan_body.
  assert (Hd : hypot env (position_x (plan_at P (Z.of_nat j)) - x)
                 (position_y (plan_at P (Z.of_nat j)) - y)
               = distance_to_pose env P x y j).
  { unfold distance_to_pose, plan_at. rewrite Nat2Z.id. reflexivity. }
  rewrite Hd.
  destruct (distance_to_pose env P x y j <? dist_to_path_min h) eqn:E;
    cbn [dist_to_path_min i_curr_loc].
  - split; [exact (not_ltb_below _ _ _ Hcap E)|]. split.
    + intros i Hi. destruct (Nat.eq_dec i j) as [->|Hne].
      * apply ltb_irrefl.
      * apply (not_ltb_below _ _ _ (Hall i ltac:(lia)) E).
    + right. exists j. repeat split; lia.
  - split; [exact Hcap|]. split.
    + intros i Hi. destruct (Nat.eq_dec i j) as [->|Hne]; [exact E|].
      apply Hall. lia.
    + destruct Hmin as [Hmin|(i & Hi & Hm)]; [left; exact Hmin|].
      right. exists i. split; [lia|exact Hm].
Qed.

Lemma heading_scan_inv (K k : nat) (h : HeadingScan) :
  (k <= K)%nat ->
  scan_inv env P x y K k h ->
  scan_inv env P x y K 0 (heading_scan env P k x y h).
Proof.
  revert h. induction k as [|k IH]; intros h Hk H; [exact H|].
  cbn [heading_scan]. apply IH; [lia|].
  apply heading_scan_body_inv; [lia|exact H].
Qed.

Lemma scanned_inv :
  scan_inv env P x y (List.length (global_plan_ P) - 1) 0 (scanned env P x y).
Proof.
  unfold scanned.
  assert (HK : Z.to_nat (plan_size P - 1)
               = (List.length (global_plan_ P) - 1)%nat)
    by (unfold plan_size; lia).
  rewrite HK. apply heading_scan_inv; [lia|].
  split; [reflexivity|]. split; [intros i Hi; lia|].
  left. split; reflexivity.
Qed.

End HeadingFacts.

(** X3: for a plan that is not empty, the pose whose orientation
    [headingDiff] compares the heading with is a pose of the plan: the one
    after the nearest of the poses scanned, or the last pose.  The last
    pose is never the nearest found, and the pose compared with is never
    the first of a plan of two poses or more. *)
Theorem headingDiff_reference_pose (env : Env) (P : Planner)
    (cell_x cell_y : Z) (x y heading : float) :
  let n := Z.of_nat (List.length (global_plan_ P)) in
  let k := look_ahead_index env P x y in
  global_plan_ P <> [] ->
  (0 <= nearest_index env P x y <= Z.max 0 (n - 2))%Z /\
  (0 <= k <= n - 1)%Z /\
  (2 <= n -> 1 <= k)%Z /\
  fst (fst (headingDiff env P cell_x cell_y x y heading))
  = Cpp.fabs (Cpp.fabs
      (shortest_angular_distance env heading
         (getEulerYaw env
            (orientation (nth (Z.to_nat k) (global_plan_ P) default_pose))))).
Proof.
  intros n k Hne.
  assert (Hn : (1 <= n)%Z).
  { unfold n. destruct (global_plan_ P); [now elim Hne|]. cbn [List.length]. lia. }
  assert (Hloc : (0 <= nearest_index env P x y <= Z.max 0 (n - 2))%Z).
  { destruct (scanned_inv env P x y) as (_ & _ & [(_ & H)|(i & Hi & _ & H)]);
      unfold nearest_index; rewrite H; unfold n; lia. }
  split; [exact Hloc|].
  unfold k, look_ahead_index, plan_size. fold n.
  split; [lia|]. split; [lia|]. reflexivity.
Qed.

Lemma headingDiff_reference_pose_witness :
  fst (fst (headingDiff Scenario.free_world Scenario.planner0 1 1 1.5 1.5 0.5))
  = 0.5.
Proof.
  assert (Hne : global_plan_ Scenario.planner0 <> []) by discriminate.
  destruct (headingDiff_reference_pose Scenario.free_world Scenario.planner0
              1 1 1.5 1.5 0.5 Hne) as (_ & _ & _ & H).
  rewrite H. reflexivity.
Defined.

(** X4: the path distance [headingDiff] hands back is at most 1000, and
    no pose of the plan but the last is nearer to the position than it: it
    is 1000, or the distance to one of the poses before the last.  The
    last pose of the plan is not measured. *)
Theorem headingDiff_path_distance (env : Env) (P : Planner)
    (cell_x cell_y : Z) (x y heading : float) :
  let p := snd (headingDiff env P cell_x cell_y x y heading) in
  (1e3 <? p) = false /\
  (forall i, (S i < List.length (global_plan_ P))%nat ->
     (distance_to_pose env P x y i <? p) = false) /\
  (p = 1e3 \/
   exists i, (S i < List.length (global_plan_ P))%nat /\
     p = distance_to_pose env P x y i).
Proof.
  intros p.
  change p with (dist_to_path_min (scanned env P x y)).
  destruct (scanned_inv env P x y) as (Hcap & Hall & Hmin).
  split; [exact Hcap|]. split.
  - intros i Hi. apply Hall. lia.
  - destruct Hmin as [(H & _)|(i & Hi & H & _)]; [left; exact H|].
    right. exists i. split; [lia|exact H].
Qed.

(** ** The sampling tiers, once more *)

(** A property of the locals that the assignments to the three samples,
    a step of the sweeps and a step of the in-place sweep all keep, holds
    after the three tiers if it holds before. *)
Section TierInduction.

Variable env : Env.
Variable P : Planner.
Variables x y theta vx vy vtheta acc_x acc_y acc_theta : float.
Variable I : Locals -> Prop.

Hypothesis I_vx : forall v l, I l -> I (set_vx_samp v l).
Hypothesis I_vy : forall v l,
  v = 0 \/ holonomic_robot_ (settings P) = true ->
  I l -> I (set_vy_samp v l).
Hypothesis I_vtheta : forall v l, I l -> I (set_vtheta_samp v l).
Hypothesis I_sample : forall l, I l ->
  I (sample env P x y theta vx vy vtheta acc_x acc_y acc_theta l).
Hypothesis I_in_place : forall l, I l ->
  I (in_place_body env P x y theta vx vy vtheta acc_x acc_y acc_theta l).

Lemma theta_sweep_body_keeps (l : Locals) :
  I l ->
  I (theta_sweep_body env P x y theta vx vy vtheta acc_x acc_y acc_theta l).
Proof. intros H. apply I_vtheta, I_sample, H. Qed.

Lemma x_sweep_body_keeps (l : Locals) :
  I l ->
  I (x_sweep_body env P x y theta vx vy vtheta acc_x acc_y acc_theta l).
Proof.
  intros H. apply I_vx.
  apply (@for_n_invariant _ I _ theta_sweep_body_keeps).
  apply I_vtheta, I_sample, I_vtheta, H.
Qed.

Lemma y_sweep_body_keeps (l : Locals) :
  holonomic_robot_ (settings P) = true ->
  I l ->
  I (y_sweep_body env P x y theta vx vy vtheta acc_x acc_y acc_theta l).
Proof.
  intros Hh H. unfold y_sweep_body.
  destruct (Cpp.fabs (vy_samp l) <? 0.01).
  - apply I_vy; [now right|exact H].
  - apply I_vy; [now right|]. apply I_sample, H.
Qed.

Lemma xy_sweep_body_keeps (l : Locals) :
  holonomic_robot_ (settings P) = true ->
  I l ->
  I (xy_sweep_body env P x y theta vx vy vtheta acc_x acc_y acc_theta l).
Proof.
  intros Hh H. apply I_vx.
  apply (@for_n_invariant _ I _ (fun a => y_sweep_body_keeps a Hh)).
  apply I_vy; [now right|]. apply I_vtheta, H.
Qed.

Lemma tiers_keep (l : Locals) :
  I l ->
  I (in_place_sweep env P x y theta vx vy vtheta acc_x acc_y acc_theta
       (strafe_sweeps env P x y theta vx vy vtheta acc_x acc_y acc_theta
          (translate_rotate_sweep env P x y theta vx vy vtheta
             acc_x acc_y acc_theta l))).
Proof.
  intros H.
  apply (@for_n_invariant _ I _ I_in_place).
  apply I_vy; [now left|]. apply I_vx, I_vtheta.
  assert (H1 : I (translate_rotate_sweep env P x y theta vx vy vtheta
                    acc_x acc_y acc_theta l))
    by apply (@for_n_invariant _ I _ x_sweep_body_keeps _ _ H).
  unfold strafe_sweeps.
  assert (Hcase : holonomic_robot_ (settings P) = true \/
                  holonomic_robot_ (settings P) = false)
    by (destruct (holonomic_robot_ (settings P)); auto).
  destruct Hcase as [Hh|Hh]; rewrite Hh; [|exact H1].
  apply (@for_n_invariant _ I _ (fun a => xy_sweep_body_keeps a Hh)).
  apply I_vx.
  apply (@for_n_invariant _ I _ (fun a => y_sweep_body_keeps a Hh)).
  apply I_vy; [now right|]. apply I_vx, I_vtheta, H1.
Qed.

End TierInduction.

Section SimulatedBest.

Variable env : Env.
Variable P : Planner.
Variables x y theta vx vy vtheta acc_x acc_y acc_theta : float.

Let inv := best_is_simulated env P x y theta vx vy vtheta
             acc_x acc_y acc_theta.

Lemma sampling_tiers_simulated :
  inv (sampling_tiers env P x y theta vx vy vtheta acc_x acc_y acc_theta).
Proof.
  unfold sampling_tiers. apply tiers_keep.
  - intros v l H. exact H.
  - intros v l _ H. exact H.
  - intros v l H. exact H.
  - intros l (Hne & Hsim).
    destruct (sample_step env P x y theta vx vy vtheta acc_x acc_y acc_theta
                l Hne) as [(Hb & Hc & Hbest)|(Hb & Hc & Hbest & _)].
    + split; [congruence|]. rewrite Hbest. exact Hsim.
    + split; [congruence|]. intros _. rewrite Hbest.
      exists (vx_samp l), (vy_samp l), (vtheta_samp l), (comp_of l).
      reflexivity.
  - intros l (Hne & Hsim).
    destruct (in_place_step env P x y theta vx vy vtheta acc_x acc_y
                acc_theta l Hne)
      as [(Hb & Hc & Hbest)|(Hb & Hc & (vth & Hbest) & _)].
    + split; [congruence|]. rewrite Hbest. exact Hsim.
    + split; [congruence|]. intros _. rewrite Hbest.
      exists (vx_samp l), (vy_samp l), vth, (comp_of l). reflexivity.
  - split; [discriminate|]. intros H. discriminate H.
Qed.

End SimulatedBest.

(** A trajectory the sampling tiers select is the simulation of its own
    velocity, into any trajectory. *)
Lemma selected_is_own_simulation (env : Env) (P : Planner)
    (x y theta vx vy vtheta acc_x acc_y acc_theta : float) (t : Trajectory) :
  let tiers :=
    sampling_tiers env P x y theta vx vy vtheta acc_x acc_y acc_theta in
  let r := snd (createTrajectories env P x y theta vx vy vtheta
                  acc_x acc_y acc_theta) in
  Cpp.geb (cost_ (best_of tiers)) 0 = true ->
  Cpp.geb (cost_ r) 0 = true /\
  generateTrajectory env P x y theta vx vy vtheta
    (xv_ r) (yv_ r) (thetav_ r) acc_x acc_y acc_theta
    (obstacleCosts (path_map_ P)) t = r.
Proof.
  intros tiers r Hlegal.
  assert (Hr : r = best_of tiers).
  { unfold r, createTrajectories. fold tiers. rewrite Hlegal. reflexivity. }
  destruct (sampling_tiers_simulated env P x y theta vx vy vtheta
              acc_x acc_y acc_theta) as (_ & Hsim).
  fold tiers in Hsim. destruct (Hsim Hlegal) as (a & b & c & buf & Hgen).
  rewrite <- Hr in Hgen, Hlegal.
  split; [exact Hlegal|].
  destruct (generateTrajectory_velocity env P x y theta vx vy vtheta a b c
              acc_x acc_y acc_theta (obstacleCosts (path_map_ P)) buf)
    as (Ha & Hb & Hc).
  rewrite <- Hgen in Ha, Hb, Hc. rewrite Ha, Hb, Hc.
  destruct (generateTrajectory_buffer env P x y theta vx vy vtheta a b c
              acc_x acc_y acc_theta (obstacleCosts (path_map_ P)) buf t)
    as (_ & _ & _ & _ & Hsame & _).
  rewrite <- Hgen in Hsame. rewrite (Hsame Hlegal). reflexivity.
Qed.

(** X5: a trajectory the sampling tiers select is the simulation of a
    sample, and is returned as simulated: simulating its own velocity once
    more, from the same pose and velocity and into any trajectory, gives it
    back.  When the call passes the stored acceleration limits, as
    [findBestPath] does, [scoreTrajectory] at that velocity is its cost and
    [checkTrajectory] accepts it. *)
Theorem selected_trajectory_rescored (env : Env) (P : Planner)
    (x y theta vx vy vtheta acc_x acc_y acc_theta : float) :
  let tiers :=
    sampling_tiers env P x y theta vx vy vtheta acc_x acc_y acc_theta in
  let r := snd (createTrajectories env P x y theta vx vy vtheta
                  acc_x acc_y acc_theta) in
  Cpp.geb (cost_ (best_of tiers)) 0 = true ->
  (forall t : Trajectory,
     generateTrajectory env P x y theta vx vy vtheta
       (xv_ r) (yv_ r) (thetav_ r) acc_x acc_y acc_theta
       (obstacleCosts (path_map_ P)) t = r) /\
  (acc_x = acc_lim_x_ (settings P) -> acc_y = acc_lim_y_ (settings P) ->
   acc_theta = acc_lim_theta_ (settings P) ->
   scoreTrajectory env P x y theta vx vy vtheta (xv_ r) (yv_ r) (thetav_ r)
   = cost_ r /\
   checkTrajectory env P x y theta vx vy vtheta (xv_ r) (yv_ r) (thetav_ r)
   = true).
Proof.
  intros tiers r Hlegal.
  assert (Hany : forall t : Trajectory,
    generateTrajectory env P x y theta vx vy vtheta
      (xv_ r) (yv_ r) (thetav_ r) acc_x acc_y acc_theta
      (obstacleCosts (path_map_ P)) t = r).
  { intros t.
    exact (proj2 (selected_is_own_simulation env P x y theta vx vy vtheta
                    acc_x acc_y acc_theta t Hlegal)). }
  assert (Hcost : Cpp.geb (cost_ r) 0 = true).
  { exact (proj1 (selected_is_own_simulation env P x y theta vx vy vtheta
                    acc_x acc_y acc_theta (fresh_trajectory env) Hlegal)). }
  split; [exact Hany|].
  intros -> -> ->.
  assert (Hscore : scoreTrajectory env P x y theta vx vy vtheta
                     (xv_ r) (yv_ r) (thetav_ r) = cost_ r).
  { unfold scoreTrajectory. rewrite Hany. reflexivity. }
  split; [exact Hscore|].
  unfold checkTrajectory. rewrite Hscore, Hcost. reflexivity.
Qed.

Lemma selected_trajectory_rescored_witness :
  let r := snd (Scenario.plan_at_rest Scenario.free_world Scenario.planner0
                  5.9375 1.5) in
  command_of r = (0.125, 0, -1, 4.5) /\
  checkTrajectory Scenario.free_world Scenario.planner0 5.9375 1.5 0 0 0 0
    (xv_ r) (yv_ r) (thetav_ r) = true.
Proof.
  split; [vm_compute; reflexivity|].
  apply (selected_trajectory_rescored Scenario.free_world Scenario.planner0
           5.9375 1.5 0 0 0 0 1 1 1); vm_compute; reflexivity.
Defined.

(** ** A plan of one pose under heading scoring *)

(** For a plan of one pose the scan of [headingDiff] has nothing to
    measure: the path distance is the 1000 it starts from, and the goal
    distance is the distance to the pose. *)
Lemma headingDiff_one_pose (env : Env) (P : Planner) (p : PoseStamped)
    (cell_x cell_y : Z) (x y heading : float) :
  global_plan_ P = [p] ->
  headingDiff env P cell_x cell_y x y heading
  = (Cpp.fabs (Cpp.fabs (shortest_angular_distance env heading
                           (getEulerYaw env (orientation p)))),
     hypot env (position_x p - x) (position_y p - y),
     1e3).
Proof.
  intros H. unfold headingDiff, plan_size, plan_at. rewrite H. reflexivity.
Qed.

Lemma sentinel_not_unset (c : Cause) : (sentinel c =? -1) = false.
Proof. destruct c; reflexivity. Qed.

Section OnePosePlan.

Variable env : Env.
Variable P : Planner.
Variable p : PoseStamped.

Hypothesis Hheading : heading_scoring_ (settings P) = true.
Hypothesis Hattractor : simple_attractor_ (settings P) = false.
Hypothesis Hplan : global_plan_ P = [p].
Hypothesis Hsteps :
  (0 <= Cpp.double_to_int
          (sim_time_ (settings P) / sim_granularity_ (settings P) + 0.5))%Z.

Lemma heading_num_steps (a b c : float) :
  (1 <= num_steps_of env P a b c)%Z.
Proof.
  unfold num_steps_of. rewrite Hheading. cbn [negb].
  destruct (Z.eqb_spec
              (Cpp.double_to_int
                 (sim_time_ (settings P) / sim_granularity_ (settings P)
                  + 0.5)) 0); lia.
Qed.

Lemma one_pose_last_point (imp : float) (n : Z) (s : Sim) :
  (imp <=? 1e3) = true ->
  failure_at env P imp n (n - 1) s <> None.
Proof.
  intros Himp. unfold failure_at, evaluated_distances.
  destruct (worldToMap env (x_i s) (y_i s)) as [[cx cy]|]; [|discriminate].
  destruct (footprintCost env (x_i s) (y_i s) (theta_i s) <? 0);
    [discriminate|].
  rewrite Hattractor, Hheading. cbn [negb]. rewrite Z.eqb_refl.
  rewrite (headingDiff_one_pose env P p cx cy _ _ _ Hplan).
  rewrite Himp, orb_true_r. discriminate.
Qed.

Lemma one_pose_rejected
    (x y theta vx vy vtheta a b c ax ay ath imp : float) (t : Trajectory) :
  (imp <=? 1e3) = true ->
  exists cause,
    cost_ (generateTrajectory env P x y theta vx vy vtheta a b c ax ay ath
             imp t) = sentinel cause.
Proof.
  intros Himp. unfold generateTrajectory, run_simulation.
  pose proof (heading_num_steps a b c) as Hn.
  set (n := num_steps_of env P a b c) in *.
  destruct (sim_loop_outcome env P a b c ax ay ath imp n
              (sim_time_ (settings P) / Cpp.int_to_double n)
              (Cpp.trip_count n)
              (initial_sim x y theta vx vy vtheta a b c t))
    as [(s & _ & _ & Hall)|(i & si & cause & _ & _ & _ & _ & _ & Hk)].
  - destruct (Hall (Cpp.trip_count n - 1)%nat) as (si & _ & Hf).
    { unfold Cpp.trip_count. lia. }
    replace (Z.of_nat (Cpp.trip_count n - 1)) with (n - 1)%Z in Hf
      by (unfold Cpp.trip_count; lia).
    now elim (one_pose_last_point imp n si Himp).
  - rewrite Hk. exists cause. reflexivity.
Qed.

End OnePosePlan.

(** X6: under heading scoring (and not in simple-attractor mode), with
    a plan of one pose, a step count that is not negative and a path grid
    whose obstacle cost is at most 1000, no trajectory is ever legal,
    whatever the costmap and the pose:
    [headingDiff] reports the path distance 1000, which reaches the
    impossible cost at the last point of every simulation.  So
    [checkTrajectory] rejects every velocity, and [createTrajectories]
    returns the backup trajectory with the negative cost of its
    failure. *)
Theorem one_pose_plan_heading_scoring (env : Env) (P : Planner)
    (p : PoseStamped)
    (x y theta vx vy vtheta acc_x acc_y acc_theta : float) :
  let r := snd (createTrajectories env P x y theta vx vy vtheta
                  acc_x acc_y acc_theta) in
  heading_scoring_ (settings P) = true ->
  simple_attractor_ (settings P) = false ->
  global_plan_ P = [p] ->
  (0 <= Cpp.double_to_int
          (sim_time_ (settings P) / sim_granularity_ (settings P) + 0.5))%Z ->
  (obstacleCosts (path_map_ P) <=? 1e3) = true ->
  (forall a b c,
     checkTrajectory env P x y theta vx vy vtheta a b c = false) /\
  (exists cause, cost_ r = sentinel cause) /\
  Cpp.geb (cost_ r) 0 = false /\
  (xv_ r, yv_ r, thetav_ r) = (backup_vel_ (settings P), 0, 0).
Proof.
  intros r Hh Ha Hplan Hsteps Himp.
  pose proof (fun ax ay ath a b c t =>
    one_pose_rejected env P p Hh Ha Hplan Hsteps x y theta vx vy vtheta
      a b c ax ay ath (obstacleCosts (path_map_ P)) t Himp) as Hrej.
  split.
  { intros a b c. unfold checkTrajectory, scoreTrajectory.
    destruct (Hrej (acc_lim_x_ (settings P)) (acc_lim_y_ (settings P))
                (acc_lim_theta_ (settings P)) a b c (fresh_trajectory env))
      as (cause & Hc).
    rewrite Hc, sentinel_not_legal. reflexivity. }
  set (tiers := sampling_tiers env P x y theta vx vy vtheta
                  acc_x acc_y acc_theta).
  assert (Hneg : Cpp.geb (cost_ (best_of tiers)) 0 = false).
  { destruct (Cpp.geb (cost_ (best_of tiers)) 0) eqn:E; [|reflexivity].
    destruct (sampling_tiers_simulated env P x y theta vx vy vtheta
                acc_x acc_y acc_theta) as (_ & Hsim).
    destruct (Hsim E) as (a & b & c & buf & Hgen).
    destruct (Hrej acc_x acc_y acc_theta a b c buf) as (cause & Hc).
    fold tiers in Hgen. rewrite <- Hgen in Hc.
    rewrite Hc, sentinel_not_legal in E. discriminate. }
  pose proof (createTrajectories_backup env P x y theta vx vy vtheta
                acc_x acc_y acc_theta Hneg) as Hr.
  cbv zeta in Hr. fold tiers in Hr. fold r in Hr.
  set (backup := generateTrajectory env P x y theta vx vy vtheta
                   (backup_vel_ (settings P)) 0 0 acc_x acc_y acc_theta
                   (obstacleCosts (path_map_ P)) (traj_two (bufs tiers)))
    in *.
  destruct (Hrej acc_x acc_y acc_theta (backup_vel_ (settings P)) 0 0
              (traj_two (bufs tiers))) as (cause & Hc).
  fold backup in Hc.
  rewrite Hc, sentinel_not_legal, sentinel_not_unset in Hr.
  rewrite Hr. split; [exists cause; exact Hc|].
  split; [rewrite Hc; apply sentinel_not_legal|].
  destruct (generateTrajectory_velocity env P x y theta vx vy vtheta
              (backup_vel_ (settings P)) 0 0 acc_x acc_y acc_theta
              (obstacleCosts (path_map_ P)) (traj_two (bufs tiers)))
    as (H1 & H2 & H3).
  fold backup in H1, H2, H3. rewrite H1, H2, H3. reflexivity.
Qed.

Lemma one_pose_plan_heading_scoring_witness :
  let r := snd (Scenario.plan_at_rest Scenario.free_world
                  ModeScenario.planner_heading 5.9375 1.5) in
  command_of r = (-0.125, 0, 0, -2) /\
  checkTrajectory Scenario.free_world ModeScenario.planner_heading
    5.9375 1.5 0 0 0 0 0.5 0 0 = false.
Proof.
  destruct (one_pose_plan_heading_scoring Scenario.free_world
              ModeScenario.planner_heading Scenario.goal_pose
              5.9375 1.5 0 0 0 0 1 1 1)
    as (Hcheck & _); try reflexivity.
  { vm_compute. discriminate. }
  split; [vm_compute; reflexivity|apply Hcheck].
Defined.

(** ** The trajectory [generateTrajectory] writes *)

Section OutputFacts.

Variable env : Env.
Variable P : Planner.
Variables vxs vys vths ax ay ath imp : float.
Variable n : Z.
Variable dt : float.

Let body := sim_body env P vxs vys vths ax ay ath imp n dt.
Let loop := sim_loop env P vxs vys vths ax ay ath imp n dt.

(** An iteration that goes on records the pose it started from; one that
    returns records nothing. *)
Lemma sim_body_points (i : Z) (s : Sim) :
  match body i s with
  | Next s' =>
      points_ (traj s') = points_ (traj s) ++ [(x_i s, y_i s, theta_i s)]
  | Return t => points_ t = points_ (traj s)
  end.
Proof.
  unfold body, sim_body.
  destruct (worldToMap env (x_i s) (y_i s)) as [[cx cy]|]; [|reflexivity].
  destruct (headingDiff env P cx cy (x_i s) (y_i s) (theta_i s))
    as [[h gd] pd].
  destruct (footprintCost env (x_i s) (y_i s) (theta_i s) <? 0);
    [reflexivity|].
  destruct (simple_attractor_ (settings P)); [reflexivity|].
  destruct (heading_scoring_ (settings P)), (i =? n - 1)%Z; simpl;
    repeat match goal with
    | |- context [if ?b then _ else _] => destruct b
    end; reflexivity.
Qed.

Lemma sim_loop_points (k : nat) (i : Z) (s : Sim) :
  exists l,
    (l = [] \/ exists rest, l = (x_i s, y_i s, theta_i s) :: rest) /\
    match loop k i s with
    | Next s' =>
        points_ (traj s') = points_ (traj s) ++ l /\ List.length l = k
    | Return t =>
        points_ t = points_ (traj s) ++ l /\ (List.length l < k)%nat
    end.
Proof.
  revert i s. induction k as [|k IH]; intros i s.
  - exists []. split; [now left|]. cbn. rewrite app_nil_r. split; reflexivity.
  - unfold loop. cbn [sim_loop]. fold body. fold loop.
    pose proof (sim_body_points i s) as Hb.
    destruct (body i s) as [s'|t].
    + destruct (IH (i + 1)%Z s') as (l & _ & Hl).
      exists ((x_i s, y_i s, theta_i s) :: l).
      split; [right; now exists l|].
      destruct (loop k (i + 1)%Z s') as [s''|t]; destruct Hl as (Hp & Hlen);
        rewrite Hp, Hb, <- app_assoc; cbn [app List.length];
        split; try reflexivity; lia.
    + exists []. split; [now left|]. rewrite app_nil_r.
      split; [exact Hb|cbn; lia].
Qed.

(** Without meter scoring no iteration writes [path_dist_traj_]. *)
Lemma sim_body_path_dist_traj (i : Z) (s : Sim) :
  meter_scoring_ (settings P) = false ->
  match body i s with
  | Next s' => path_dist_traj_ (traj s') = path_dist_traj_ (traj s)
  | Return t => path_dist_traj_ t = path_dist_traj_ (traj s)
  end.
Proof.
  intros Hm. unfold body, sim_body. rewrite Hm.
  destruct (worldToMap env (x_i s) (y_i s)) as [[cx cy]|]; [|reflexivity].
  destruct (headingDiff env P cx cy (x_i s) (y_i s) (theta_i s))
    as [[h gd] pd].
  destruct (footprintCost env (x_i s) (y_i s) (theta_i s) <? 0);
    [reflexivity|].
  destruct (simple_attractor_ (settings P)); [reflexivity|].
  destruct (heading_scoring_ (settings P)), (i =? n - 1)%Z; simpl;
    repeat match goal with
    | |- context [if ?b then _ else _] => destruct b
    end; reflexivity.
Qed.

Lemma sim_loop_path_dist_traj (k : nat) (i : Z) (s : Sim) :
  meter_scoring_ (settings P) = false ->
  match loop k i s with
  | Next s' => path_dist_traj_ (traj s') = path_dist_traj_ (traj s)
  | Return t => path_dist_traj_ t = path_dist_traj_ (traj s)
  end.
Proof.
  intros Hm. revert i s. induction k as [|k IH]; intros i s; [reflexivity|].
  unfold loop. cbn [sim_loop]. fold body. fold loop.
  pose proof (sim_body_path_dist_traj i s Hm) as Hb.
  destruct (body i s) as [s'|t]; [|exact Hb].
  specialize (IH (i + 1)%Z s').
  destruct (loop k (i + 1)%Z s'); congruence.
Qed.

(** No iteration writes [goal_cost_traj_]. *)
Lemma sim_body_goal_cost_traj (i : Z) (s : Sim) :
  match body i s with
  | Next s' => goal_cost_traj_ (traj s') = goal_cost_traj_ (traj s)
  | Return t => goal_cost_traj_ t = goal_cost_traj_ (traj s)
  end.
Proof.
  unfold body, sim_body.
  destruct (worldToMap env (x_i s) (y_i s)) as [[cx cy]|]; [|reflexivity].
  destruct (headingDiff env P cx cy (x_i s) (y_i s) (theta_i s))
    as [[h gd] pd].
  destruct (footprintCost env (x_i s) (y_i s) (theta_i s) <? 0);
    [reflexivity|].
  destruct (simple_attractor_ (settings P)); [reflexivity|].
  destruct (heading_scoring_ (settings P)), (i =? n - 1)%Z; simpl;
    repeat match goal with
    | |- context [if ?b then _ else _] => destruct b
    end; reflexivity.
Qed.

Lemma sim_loop_goal_cost_traj (k : nat) (i : Z) (s : Sim) :
  match loop k i s with
  | Next s' => goal_cost_traj_ (traj s') = goal_cost_traj_ (traj s)
  | Return t => goal_cost_traj_ t = goal_cost_traj_ (traj s)
  end.
Proof.
  revert i s. induction k as [|k IH]; intros i s; [reflexivity|].
  unfold loop. cbn [sim_loop]. fold body. fold loop.
  pose proof (sim_body_goal_cost_traj i s) as Hb.
  destruct (body i s) as [s'|t]; [|exact Hb].
  specialize (IH (i + 1)%Z s').
  destruct (loop k (i + 1)%Z s'); congruence.
Qed.

End OutputFacts.

(** X7: the poses of the trajectory [generateTrajectory] writes are
    those of this simulation alone, whatever the trajectory held before:
    the first, if there is one, is the pose the call is made from; a
    simulation that reaches its end records one pose for each of its
    [num_steps] steps, and one that is given up records fewer.  A
    trajectory of legal cost holds one pose for each step. *)
Theorem generateTrajectory_points (env : Env) (P : Planner)
    (x y theta vx vy vtheta vxs vys vths ax ay ath imp : float)
    (t : Trajectory) :
  let r := generateTrajectory env P x y theta vx vy vtheta vxs vys vths
             ax ay ath imp t in
  let n := Cpp.trip_count (num_steps_of env P vxs vys vths) in
  (points_ r = [] \/ exists rest, points_ r = (x, y, theta) :: rest) /\
  match run_simulation env P x y theta vx vy vtheta vxs vys vths
          ax ay ath imp t with
  | Next _ => List.length (points_ r) = n
  | Return _ => (List.length (points_ r) < n)%nat
  end /\
  (Cpp.geb (cost_ r) 0 = true -> List.length (points_ r) = n).
Proof.
  intros r n.
  destruct (sim_loop_points env P vxs vys vths ax ay ath imp
              (num_steps_of env P vxs vys vths)
              (sim_time_ (settings P)
               / Cpp.int_to_double (num_steps_of env P vxs vys vths))
              n 0%Z (initial_sim x y theta vx vy vtheta vxs vys vths t))
    as (l & Hhead & Hl).
  unfold r, generateTrajectory.
  pose proof (run_simulation_return env P x y theta vx vy vtheta vxs vys vths
                ax ay ath imp t) as Hret.
  revert Hret Hl. unfold run_simulation. fold n.
  destruct (sim_loop _ _ _ _ _ _ _ _ _ _ _ _ _) as [s|u];
    intros Hret (Hp & Hlen); cbn [points_ traj initial_sim x_i y_i theta_i
      set_cost set_velocity resetPoints set_path_dist_traj app] in Hp, Hhead.
  - assert (Hfin : points_ (finish_trajectory P s) = l) by exact Hp.
    rewrite Hfin. split; [exact Hhead|]. split; [exact Hlen|].
    intros _. exact Hlen.
  - rewrite Hp. split; [exact Hhead|]. split; [exact Hlen|].
    intros Hlegal. destruct (Hret u eq_refl) as (c & Hc).
    rewrite Hc, sentinel_not_legal in Hlegal. discriminate.
Qed.

(** X8: what [generateTrajectory] writes to the other fields of the
    output trajectory.  The velocity is the sample.  Without meter scoring
    [path_dist_traj_] is left at the -2 it is given before the loop.  The
    cost and [goal_cost_traj_] are written together when the simulation
    reaches its end; when it is given up the cost is the sentinel of the
    cause and [goal_cost_traj_] is what the trajectory held before the
    call. *)
Theorem generateTrajectory_fields (env : Env) (P : Planner)
    (x y theta vx vy vtheta vxs vys vths ax ay ath imp : float)
    (t : Trajectory) :
  let r := generateTrajectory env P x y theta vx vy vtheta vxs vys vths
             ax ay ath imp t in
  (xv_ r, yv_ r, thetav_ r) = (vxs, vys, vths) /\
  (meter_scoring_ (settings P) = false -> path_dist_traj_ r = -2) /\
  match run_simulation env P x y theta vx vy vtheta vxs vys vths
          ax ay ath imp t with
  | Next s =>
      cost_ r = final_cost P s /\
      goal_cost_traj_ r = goal_dist s * gdist_scale_ (settings P)
  | Return _ =>
      (exists c, cost_ r = sentinel c) /\
      goal_cost_traj_ r = goal_cost_traj_ t
  end.
Proof.
  intros r.
  destruct (generateTrajectory_velocity env P x y theta vx vy vtheta
              vxs vys vths ax ay ath imp t) as (H1 & H2 & H3).
  fold r in H1, H2, H3.
  split; [rewrite H1, H2, H3; reflexivity|].
  pose proof (run_simulation_return env P x y theta vx vy vtheta vxs vys vths
                ax ay ath imp t) as Hret.
  pose proof (sim_loop_goal_cost_traj env P vxs vys vths ax ay ath imp
                (num_steps_of env P vxs vys vths)
                (sim_time_ (settings P)
                 / Cpp.int_to_double (num_steps_of env P vxs vys vths))
                (Cpp.trip_count (num_steps_of env P vxs vys vths)) 0%Z
                (initial_sim x y theta vx vy vtheta vxs vys vths t)) as Hg.
  pose proof (sim_loop_path_dist_traj env P vxs vys vths ax ay ath imp
                (num_steps_of env P vxs vys vths)
                (sim_time_ (settings P)
                 / Cpp.int_to_double (num_steps_of env P vxs vys vths))
                (Cpp.trip_count (num_steps_of env P vxs vys vths)) 0%Z
                (initial_sim x y theta vx vy vtheta vxs vys vths t)) as Hp.
  revert Hret Hg Hp. unfold r, generateTrajectory, run_simulation.
  destruct (sim_loop _ _ _ _ _ _ _ _ _ _ _ _ _) as [s|u];
    intros Hret Hg Hp.
  - split; [intros Hm; exact (Hp Hm)|].
    split; reflexivity.
  - split; [intros Hm; exact (Hp Hm)|].
    split; [exact (Hret u eq_refl)|exact Hg].
Qed.

(** ** Simple-attractor mode *)

Lemma sim_body_attractor (env : Env) (P : Planner) (pm gm : MapGrid)
    (vxs vys vths ax ay ath imp imp' : float) (n : Z) (dt : float)
    (i : Z) (s : Sim) :
  simple_attractor_ (settings P) = true ->
  sim_body env (set_maps pm gm P) vxs vys vths ax ay ath imp' n dt i s
  = sim_body env P vxs vys vths ax ay ath imp n dt i s.
Proof.
  intros H. unfold sim_body.
  change (settings (set_maps pm gm P)) with (settings P).
  rewrite H.
  destruct (worldToMap env (x_i s) (y_i s)) as [[cx cy]|]; reflexivity.
Qed.

Lemma sim_loop_attractor (env : Env) (P : Planner) (pm gm : MapGrid)
    (vxs vys vths ax ay ath imp imp' : float) (n : Z) (dt : float)
    (k : nat) (i : Z) (s : Sim) :
  simple_attractor_ (settings P) = true ->
  sim_loop env (set_maps pm gm P) vxs vys vths ax ay ath imp' n dt k i s
  = sim_loop env P vxs vys vths ax ay ath imp n dt k i s.
Proof.
  intros H. revert i s. induction k as [|k IH]; intros i s; [reflexivity|].
  cbn [sim_loop].
  rewrite (sim_body_attractor env P pm gm vxs vys vths ax ay ath imp imp'
             n dt i s H).
  destruct (sim_body env P vxs vys vths ax ay ath imp n dt i s);
    [apply IH|reflexivity].
Qed.

(** X9: in simple-attractor mode [generateTrajectory] consults neither
    distance grid and not the impossible cost: with other grids and another
    impossible cost it writes the same trajectory.  A simulation is then
    given up only for a pose off the map or in collision, never for the
    lack of a path. *)
Theorem simple_attractor_ignores_grids (env : Env) (P : Planner)
    (pm gm : MapGrid)
    (x y theta vx vy vtheta vxs vys vths ax ay ath imp imp' : float)
    (t : Trajectory) :
  simple_attractor_ (settings P) = true ->
  generateTrajectory env (set_maps pm gm P) x y theta vx vy vtheta
    vxs vys vths ax ay ath imp' t
  = generateTrajectory env P x y theta vx vy vtheta vxs vys vths
      ax ay ath imp t /\
  forall u,
    run_simulation env P x y theta vx vy vtheta vxs vys vths ax ay ath imp t
    = Return u ->
    cost_ u = sentinel OffMap \/ cost_ u = sentinel Collision.
Proof.
  intros H. split.
  - unfold generateTrajectory, run_simulation.
    change (num_steps_of env (set_maps pm gm P) vxs vys vths)
      with (num_steps_of env P vxs vys vths).
    change (settings (set_maps pm gm P)) with (settings P).
    rewrite (sim_loop_attractor env P pm gm vxs vys vths ax ay ath imp imp'
               _ _ _ _ _ H).
    destruct (sim_loop _ _ _ _ _ _ _ _ _ _ _ _ _); reflexivity.
  - intros u. unfold run_simulation.
    destruct (sim_loop_outcome env P vxs vys vths ax ay ath imp
                (num_steps_of env P vxs vys vths)
                (sim_time_ (settings P)
                 / Cpp.int_to_double (num_steps_of env P vxs vys vths))
                (Cpp.trip_count (num_steps_of env P vxs vys vths))
                (initial_sim x y theta vx vy vtheta vxs vys vths t))
      as [(s & Hs & _)|(i & si & c & _ & _ & _ & Hf & _ & Hk)].
    + rewrite Hs. discriminate.
    + rewrite Hk. intros Hu. injection Hu as <-. cbn [cost_ set_cost].
      revert Hf. unfold failure_at, evaluated_distances.
      destruct (worldToMap env (x_i si) (y_i si)) as [[cx cy]|].
      * rewrite H.
        destruct (footprintCost env (x_i si) (y_i si) (theta_i si) <? 0);
          [|discriminate].
        intros Hc. injection Hc as <-. now right.
      * intros Hc. injection Hc as <-. now left.
Qed.

Lemma simple_attractor_ignores_grids_witness :
  generateTrajectory Scenario.free_world
    (set_maps Scenario.band_grid Scenario.flat_grid
       ModeScenario.planner_attractor)
    5.9375 1.5 0 0 0 0 0.5 0 0 1 1 1 0 Scenario.zero_trajectory
  = generateTrajectory Scenario.free_world ModeScenario.planner_attractor
      5.9375 1.5 0 0 0 0 0.5 0 0 1 1 1 100 Scenario.zero_trajectory.
Proof.
  apply (simple_attractor_ignores_grids Scenario.free_world
           ModeScenario.planner_attractor Scenario.band_grid
           Scenario.flat_grid 5.9375 1.5 0 0 0 0 0.5 0 0 1 1 1 100 0
           Scenario.zero_trajectory).
  reflexivity.
Defined.


(** ** What a call depends on *)

Section UnreadSettings.

Variable env : Env.
Variable P : Planner.
Variables min_vel_y heading_lookahead heading_scoring_timestep : float.
Variable y_vels : list float.
Variable stop_time_buffer : float.
Variables x y theta vx vy vtheta acc_x acc_y acc_theta : float.

Let P' :=
  set_settings
    (with_unread min_vel_y heading_lookahead heading_scoring_timestep
       y_vels stop_time_buffer (settings P)) P.

Lemma unread_generateTrajectory (a b c imp : float) (t : Trajectory) :
  generateTrajectory env P' x y theta vx vy vtheta a b c
    acc_x acc_y acc_theta imp t
  = generateTrajectory env P x y theta vx vy vtheta a b c
      acc_x acc_y acc_theta imp t.
Proof. reflexivity. Qed.

Lemma unread_sampling_tiers :
  sampling_tiers env P' x y theta vx vy vtheta acc_x acc_y acc_theta
  = sampling_tiers env P x y theta vx vy vtheta acc_x acc_y acc_theta.
Proof. reflexivity. Qed.

Lemma unread_backup_tier (l : Locals) :
  backup_tier env P' x y theta vx vy vtheta acc_x acc_y acc_theta l
  = backup_tier env P x y theta vx vy vtheta acc_x acc_y acc_theta l.
Proof. reflexivity. Qed.

Lemma unread_createTrajectories :
  let r := createTrajectories env P x y theta vx vy vtheta
             acc_x acc_y acc_theta in
  let r' := createTrajectories env P' x y theta vx vy vtheta
              acc_x acc_y acc_theta in
  snd r' = snd r /\ guard (fst r') = guard (fst r) /\
  buffers (fst r') = buffers (fst r).
Proof.
  cbv zeta. unfold createTrajectories.
  rewrite unread_sampling_tiers.
  destruct (Cpp.geb _ 0).
  - repeat split.
  - rewrite unread_backup_tier. repeat split.
Qed.

End UnreadSettings.

(** X10: the five members [min_vel_y_], [heading_lookahead_],
    [heading_scoring_timestep_], [y_vels_] and [stop_time_buffer_] are read
    by none of [createTrajectories], [scoreTrajectory] and
    [checkTrajectory]: with other values in them the trajectory returned,
    the guard and the buffers after the call, the score and the check are
    the same. *)
Theorem unread_settings (env : Env) (P : Planner)
    (min_vel_y heading_lookahead heading_scoring_timestep : float)
    (y_vels : list float) (stop_time_buffer : float)
    (x y theta vx vy vtheta acc_x acc_y acc_theta : float) :
  let P' :=
    set_settings
      (with_unread min_vel_y heading_lookahead heading_scoring_timestep
         y_vels stop_time_buffer (settings P)) P in
  let r := createTrajectories env P x y theta vx vy vtheta
             acc_x acc_y acc_theta in
  let r' := createTrajectories env P' x y theta vx vy vtheta
              acc_x acc_y acc_theta in
  snd r' = snd r /\
  guard (fst r') = guard (fst r) /\
  buffers (fst r') = buffers (fst r) /\
  (forall a b c,
     scoreTrajectory env P' x y theta vx vy vtheta a b c
     = scoreTrajectory env P x y theta vx vy vtheta a b c) /\
  (forall a b c,
     checkTrajectory env P' x y theta vx vy vtheta a b c
     = checkTrajectory env P x y theta vx vy vtheta a b c).
Proof.
  intros P' r r'.
  destruct (unread_createTrajectories env P min_vel_y heading_lookahead
              heading_scoring_timestep y_vels stop_time_buffer
              x y theta vx vy vtheta acc_x acc_y acc_theta)
    as (H1 & H2 & H3).
  split; [exact H1|]. split; [exact H2|]. split; [exact H3|].
  split; intros a b c; reflexivity.
Qed.

(** X11: the command a call returns (velocity and cost) does not depend
    on what the guard and the two buffers hold when the call is made,
    unless the call ends in the backup tier with a backup trajectory of
    legal cost: when the sampling tiers select a trajectory, or when the
    backup trajectory is illegal too, a planner with any other guard and
    buffers returns the same command. *)
Theorem command_ignores_state (env : Env) (P : Planner)
    (g' : Guard) (b' : Buffers)
    (x y theta vx vy vtheta acc_x acc_y acc_theta : float) :
  let r := snd (createTrajectories env P x y theta vx vy vtheta
                  acc_x acc_y acc_theta) in
  let r' := snd (createTrajectories env (with_state g' b' P)
                   x y theta vx vy vtheta acc_x acc_y acc_theta) in
  let tiers :=
    sampling_tiers env P x y theta vx vy vtheta acc_x acc_y acc_theta in
  let backup :=
    generateTrajectory env P x y theta vx vy vtheta
      (backup_vel_ (settings P)) 0 0 acc_x acc_y acc_theta
      (obstacleCosts (path_map_ P)) (traj_two (bufs tiers)) in
  Cpp.geb (cost_ (best_of tiers)) 0 = true \/
  Cpp.geb (cost_ backup) 0 = false ->
  command_of r' = command_of r.
Proof.
  intros r r' tiers backup H.
  destruct (createTrajectories_other_buffers env P g' b' x y theta vx vy
              vtheta acc_x acc_y acc_theta) as (Hsel & Hbad & _).
  fold tiers in Hsel, Hbad. fold backup in Hbad. fold r r' in Hsel, Hbad.
  destruct (Cpp.geb (cost_ (best_of tiers)) 0) eqn:E.
  - rewrite (Hsel eq_refl). reflexivity.
  - destruct H as [H|H]; [discriminate|]. exact (Hbad eq_refl H).
Qed.

Lemma command_ignores_state_witness :
  command_of
    (snd (Scenario.plan_at_rest Scenario.free_world
            (with_state (set_rotating_left true (Scenario.quiet_guard 1 1))
               (mkBuffers (mkTrajectory 1 1 1 7 0 0 [])
                  (mkTrajectory 0 0 0 3 9 0 []))
               Scenario.planner0)
            5.9375 1.5))
  = command_of
      (snd (Scenario.plan_at_rest Scenario.free_world Scenario.planner0
              5.9375 1.5)).
Proof.
  apply (command_ignores_state Scenario.free_world Scenario.planner0
           (set_rotating_left true (Scenario.quiet_guard 1 1))
           (mkBuffers (mkTrajectory 1 1 1 7 0 0 [])
              (mkTrajectory 0 0 0 3 9 0 []))
           5.9375 1.5 0 0 0 0 1 1 1).
  left. vm_compute. reflexivity.
Defined.

(** X12: what a call returns when the sampling tiers select nothing.
    One more trajectory is simulated, at [backup_vel_] with no lateral and
    no angular velocity.  If its cost is legal the call returns, with the
    cost 1, the trajectory the first buffer held before the call, and not
    the one just simulated; otherwise it returns the simulated one, with
    its negative cost (1 in place of -1).  The anchor of the guard is left
    where it was, and the flags are kept, or all cleared when the position
    is farther from the anchor than the reset distance. *)
Theorem backup_tier_outcome (env : Env) (P : Planner)
    (x y theta vx vy vtheta acc_x acc_y acc_theta : float) :
  let tiers :=
    sampling_tiers env P x y theta vx vy vtheta acc_x acc_y acc_theta in
  let call :=
    createTrajectories env P x y theta vx vy vtheta acc_x acc_y acc_theta in
  let backup :=
    generateTrajectory env P x y theta vx vy vtheta
      (backup_vel_ (settings P)) 0 0 acc_x acc_y acc_theta
      (obstacleCosts (path_map_ P)) (traj_two (bufs tiers)) in
  Cpp.geb (cost_ (best_of tiers)) 0 = false ->
  (xv_ backup, yv_ backup, thetav_ backup) = (backup_vel_ (settings P), 0, 0)
  /\
  snd call
  = (if Cpp.geb (cost_ backup) 0 then set_cost 1 (traj_one (buffers P))
     else if cost_ backup =? -1 then set_cost 1 backup
     else backup) /\
  anchor_of (guard (fst call)) = anchor_of (guard P) /\
  flags_of (guard (fst call))
  = (if Cpp.gtb (hypot env (x - prev_x_ (guard P)) (y - prev_y_ (guard P)))
          (oscillation_reset_dist_ (settings P))
     then [false; false; false; false; false; false; false; false]
     else flags_of (guard P)).
Proof.
  intros tiers call backup Hneg.
  destruct (generateTrajectory_velocity env P x y theta vx vy vtheta
              (backup_vel_ (settings P)) 0 0 acc_x acc_y acc_theta
              (obstacleCosts (path_map_ P)) (traj_two (bufs tiers)))
    as (H1 & H2 & H3).
  fold backup in H1, H2, H3.
  split; [rewrite H1, H2, H3; reflexivity|].
  split; [exact (createTrajectories_backup env P x y theta vx vy vtheta
                   acc_x acc_y acc_theta Hneg)|].
  exact (backup_return_keeps_guard env P x y theta vx vy vtheta
           acc_x acc_y acc_theta Hneg).
Qed.

Lemma backup_tier_outcome_witness :
  let call :=
    createTrajectories Scenario.free_world
      (set_buffers (mkBuffers (mkTrajectory 1 0 1 7 0 0 [])
                      Scenario.zero_trajectory) Scenario.planner0)
      1.5 1.5 0 0 0 0 1 1 1 in
  command_of (snd call) = (1, 0, 1, 1) /\
  anchor_of (guard (fst call)) = (0, 0).
Proof.
  destruct (backup_tier_outcome Scenario.free_world
              (set_buffers (mkBuffers (mkTrajectory 1 0 1 7 0 0 [])
                              Scenario.zero_trajectory) Scenario.planner0)
              1.5 1.5 0 0 0 0 1 1 1) as (_ & Hr & Ha & _).
  { vm_compute. reflexivity. }
  cbv zeta. split.
  - rewrite Hr. vm_compute. reflexivity.
  - rewrite Ha. reflexivity.
Defined.

(** X13: a call made again and again with the same arguments, each time
    on the planner the call before left, returns the same command every
    time. *)
Theorem repeated_calls_agree (env : Env) (P : Planner)
    (x y theta vx vy vtheta acc_x acc_y acc_theta : float) (n : nat) :
  command_of (snd (repeated_calls env P x y theta vx vy vtheta
                     acc_x acc_y acc_theta n))
  = command_of (snd (createTrajectories env P x y theta vx vy vtheta
                       acc_x acc_y acc_theta)).
Proof.
  induction n as [|n IH]; [reflexivity|].
  rewrite <- IH. cbn [repeated_calls].
  destruct n as [|n].
  - apply (back_to_back_calls_agree env P).
  - cbn [repeated_calls].
    apply (back_to_back_calls_agree env
             (fst (repeated_calls env P x y theta vx vy vtheta
                     acc_x acc_y acc_theta n))).
Qed.

(** ** The guard over the life of a planner *)

Lemma commit_direction_escaping (best : Trajectory) (x y : float)
    (g : Guard) :
  escaping_ (commit_direction best x y g) = escaping_ g.
Proof.
  unfold commit_direction.
  repeat match goal with
  | |- context [if ?b then _ else _] => destruct b
  end; reflexivity.
Qed.

Lemma commit_direction_stuck (best : Trajectory) (x y : float) (g : Guard) :
  stuck_implies_committed g ->
  stuck_implies_committed (commit_direction best x y g).
Proof.
  unfold commit_direction, stuck_implies_committed.
  intros (H1 & H2 & H3 & H4).
  destruct (negb (Cpp.gtb (xv_ best) 0)); [|tauto].
  destruct (thetav_ best <? 0).
  { destruct (rotating_right g) eqn:E; cbn; rewrite ?E; tauto. }
  destruct (Cpp.gtb (thetav_ best) 0).
  { destruct (rotating_left g) eqn:E; cbn; rewrite ?E; tauto. }
  destruct (Cpp.gtb (yv_ best) 0).
  { destruct (strafe_right g) eqn:E; cbn; rewrite ?E; tauto. }
  destruct (yv_ best <? 0).
  { destruct (strafe_left g) eqn:E; cbn; rewrite ?E; tauto. }
  cbn. tauto.
Qed.

Lemma reset_oscillation_guard (env : Env) (cfg : Settings) (x y : float)
    (g : Guard) :
  escaping_ (reset_oscillation env cfg x y g) = escaping_ g /\
  (stuck_implies_committed g ->
   stuck_implies_committed (reset_oscillation env cfg x y g)).
Proof.
  unfold reset_oscillation. destruct (Cpp.gtb _ _); split; try reflexivity;
    try tauto.
  intros _. repeat split; discriminate.
Qed.

Lemma reset_escaping_guard (env : Env) (cfg : Settings) (x y theta : float)
    (g : Guard) :
  (escaping_ (reset_escaping env cfg x y theta g) = true ->
   escaping_ g = true) /\
  (stuck_implies_committed g ->
   stuck_implies_committed (reset_escaping env cfg x y theta g)).
Proof.
  unfold reset_escaping. destruct (_ || _)%bool; split; try tauto.
  discriminate.
Qed.

(** [createTrajectories] does not set [escaping_], and keeps each stuck
    flag under its committed flag. *)
Lemma createTrajectories_guard (env : Env) (P : Planner)
    (x y theta vx vy vtheta acc_x acc_y acc_theta : float) :
  let g' := guard (fst (createTrajectories env P x y theta vx vy vtheta
                          acc_x acc_y acc_theta)) in
  (escaping_ g' = true -> escaping_ (guard P) = true) /\
  (stuck_implies_committed (guard P) -> stuck_implies_committed g').
Proof.
  cbv zeta. unfold createTrajectories.
  set (l := sampling_tiers env P x y theta vx vy vtheta acc_x acc_y acc_theta).
  destruct (Cpp.geb (cost_ (best_of l)) 0).
  - cbn [fst guard set_buffers set_guard].
    set (g1 := commit_direction (best_of l) x y (guard P)).
    set (g2 := reset_oscillation env (settings P) x y g1).
    destruct (reset_escaping_guard env (settings P) x y theta g2)
      as (He & Hs).
    destruct (reset_oscillation_guard env (settings P) x y g1)
      as (He2 & Hs2).
    fold g2 in He2, Hs2. split.
    + intros H. apply He in H. rewrite He2 in H. unfold g1 in H.
      rewrite commit_direction_escaping in H. exact H.
    + intros H. apply Hs, Hs2. unfold g1.
      apply commit_direction_stuck, H.
  - unfold backup_epilogue. cbn [fst guard set_buffers set_guard].
    set (b := backup_tier env P x y theta vx vy vtheta acc_x acc_y acc_theta l).
    set (g1 := reset_oscillation env (settings P) x y (guard P)).
    set (g2 := if (negb (escaping_ g1)
                   && Cpp.gtb (cost_ (best_of b)) (-2))%bool
               then set_escape x y theta g1 else g1).
    destruct (reset_escaping_guard env (settings P) x y theta g2)
      as (He & Hs).
    destruct (reset_oscillation_guard env (settings P) x y (guard P))
      as (He1 & Hs1).
    fold g1 in He1, Hs1.
    assert (He2 : escaping_ g2 = escaping_ g1)
      by (unfold g2; destruct (_ && _)%bool; reflexivity).
    assert (Hs2 : stuck_implies_committed g1 -> stuck_implies_committed g2)
      by (unfold g2; destruct (_ && _)%bool; tauto).
    split.
    + intros H. apply He in H. congruence.
    + intros H. apply Hs, Hs2, Hs1, H.
Qed.

Lemma findBestPath_planner (env : Env) (P : Planner)
    (px py pth vx vy vth : float) :
  fst (fst (findBestPath env P (px, py, pth) (vx, vy, vth)))
  = fst (createTrajectories env
           (refresh_grids env P (to_single env px) (to_single env py)
              (to_single env pth))
           (to_single env px) (to_single env py) (to_single env pth)
           (to_single env vx) (to_single env vy) (to_single env vth)
           (acc_lim_x_ (settings P)) (acc_lim_y_ (settings P))
           (acc_lim_theta_ (settings P))).
Proof.
  unfold findBestPath.
  change (settings (refresh_grids env P (to_single env px) (to_single env py)
                      (to_single env pth))) with (settings P).
  destruct (createTrajectories _ _ _ _ _ _ _ _ _ _ _) as [P2 best].
  destruct (cost_ best <? 0); reflexivity.
Qed.

Lemma reconfigure_frame (env : Env) (P : Planner)
    (config : BaseLocalPlannerConfig.t) :
  fst (reconfigure env P config)
  = set_settings (settings (fst (reconfigure env P config))) P.
Proof.
  unfold reconfigure. destruct (_ <=? 0)%Z, (_ <=? 0)%Z; reflexivity.
Qed.

Lemma updatePlan_frame (env : Env) (P : Planner)
    (new_plan : list PoseStamped) (compute_dists : bool) :
  let P' := updatePlan env P new_plan compute_dists in
  settings P' = settings P /\ guard P' = guard P /\ buffers P' = buffers P /\
  global_plan_ P' = new_plan.
Proof.
  cbv zeta. unfold updatePlan.
  destruct (rev new_plan), compute_dists; repeat split.
Qed.

(** What a call leaves of the guard and of the settings. *)
Lemma after_call_guard (env : Env) (P : Planner) (c : Call) :
  (escaping_ (guard (after_call env P c)) = true ->
   escaping_ (guard P) = true) /\
  (stuck_implies_committed (guard P) ->
   stuck_implies_committed (guard (after_call env P c))).
Proof.
  destruct c as [config|plan dists|[[px py] pth] [[vx vy] vth]|
                 x y theta vx vy vtheta acc_x acc_y acc_theta];
    cbn [after_call].
  - rewrite reconfigure_frame. split; intros H; exact H.
  - pose proof (updatePlan_frame env P plan dists) as Hf. cbv zeta in Hf.
    destruct Hf as (_ & Hg & _). rewrite Hg. split; intros H; exact H.
  - rewrite findBestPath_planner.
    apply (createTrajectories_guard env
             (refresh_grids env P (to_single env px) (to_single env py)
                (to_single env pth))).
  - apply createTrajectories_guard.
Qed.

Lemma after_call_settings (env : Env) (P : Planner) (c : Call) :
  meter_scoring_ (settings (after_call env P c)) = meter_scoring_ (settings P)
  /\
  stop_time_buffer_ (settings (after_call env P c))
  = stop_time_buffer_ (settings P) /\
  sim_period_ (settings (after_call env P c)) = sim_period_ (settings P) /\
  (match c with
   | call_reconfigure _ => True
   | _ => settings (after_call env P c) = settings P
   end).
Proof.
  destruct c as [config|plan dists|[[px py] pth] [[vx vy] vth]|
                 x y theta vx vy vtheta acc_x acc_y acc_theta];
    cbn [after_call].
  - unfold reconfigure.
    destruct (_ <=? 0)%Z, (_ <=? 0)%Z; repeat split.
  - pose proof (updatePlan_frame env P plan dists) as Hf. cbv zeta in Hf.
    destruct Hf as (Hs & _). rewrite Hs. repeat split.
  - rewrite findBestPath_planner.
    destruct (createTrajectories_frame env
                (refresh_grids env P (to_single env px) (to_single env py)
                   (to_single env pth))
                (to_single env px) (to_single env py) (to_single env pth)
                (to_single env vx) (to_single env vy) (to_single env vth)
                (acc_lim_x_ (settings P)) (acc_lim_y_ (settings P))
                (acc_lim_theta_ (settings P))) as (Hs & _).
    cbv zeta in Hs. rewrite Hs. repeat split.
  - destruct (createTrajectories_frame env P x y theta vx vy vtheta
                acc_x acc_y acc_theta) as (Hs & _).
    cbv zeta in Hs. rewrite Hs. repeat split.
Qed.

Section PlannerLife.

Variable env : Env.
Variable grid : MapGrid.
Variable u : Unassigned.
Variables acc_lim_x acc_lim_y acc_lim_theta sim_time sim_granularity : float.
Variables vx_samples vtheta_samples : Z.
Variables pdist_scale gdist_scale occdist_scale hdiff_scale
  heading_lookahead oscillation_reset_dist escape_reset_dist
  escape_reset_theta : float.
Variable holonomic_robot : bool.
Variables max_vel_x min_vel_x max_vel_th min_vel_th min_in_place_vel_th
  backup_vel : float.
Variables dwa heading_scoring : bool.
Variable heading_scoring_timestep : float.
Variables meter_scoring simple_attractor : bool.
Variable y_vels : list float.
Variables stop_time_buffer sim_period angular_sim_granularity
  path_distance_max : float.

(** X14: from its construction on, whatever calls are made on it, a
    planner is never escaping: nothing sets [escaping_].  And each of the
    four stuck flags is set only while the committed flag of its direction
    is set. *)
Theorem escape_never_entered (calls : list Call) :
  let P :=
    after_calls env
      (TrajectoryPlanner env grid u
         acc_lim_x acc_lim_y acc_lim_theta sim_time sim_granularity
         vx_samples vtheta_samples
         pdist_scale gdist_scale occdist_scale hdiff_scale heading_lookahead
         oscillation_reset_dist escape_reset_dist escape_reset_theta
         holonomic_robot
         max_vel_x min_vel_x max_vel_th min_vel_th min_in_place_vel_th
         backup_vel dwa heading_scoring heading_scoring_timestep
         meter_scoring simple_attractor y_vels stop_time_buffer sim_period
         angular_sim_granularity path_distance_max)
      calls in
  escaping_ (guard P) = false /\ stuck_implies_committed (guard P).
Proof.
  cbv zeta. unfold after_calls.
  set (P0 := TrajectoryPlanner _ _ _ _ _ _ _ _ _ _ _ _ _ _ _ _ _ _ _ _ _ _ _
               _ _ _ _ _ _ _ _ _ _ _ _).
  assert (H0 : escaping_ (guard P0) = false /\
               stuck_implies_committed (guard P0)).
  { split; [reflexivity|]. repeat split; discriminate. }
  revert H0. generalize P0. clear P0.
  induction calls as [|c calls IH]; intros P0 H0; [exact H0|].
  cbn [fold_left]. apply IH.
  destruct (after_call_guard env P0 c) as (He & Hs).
  destruct H0 as (H1 & H2). split; [|exact (Hs H2)].
  destruct (escaping_ (guard (after_call env P0 c))); [|reflexivity].
  rewrite (He eq_refl) in H1. discriminate.
Qed.

(** X15: the argument [meter_scoring] of the constructor reaches no
    member, and no call assigns [meter_scoring_]: whatever calls are made,
    the member holds what it held, unassigned, after construction.
    [stop_time_buffer_] and [sim_period_] keep the values the constructor
    gave them, and only [reconfigure] changes any setting. *)
Theorem meter_scoring_never_assigned (calls : list Call) :
  let P0 :=
    TrajectoryPlanner env grid u
      acc_lim_x acc_lim_y acc_lim_theta sim_time sim_granularity
      vx_samples vtheta_samples
      pdist_scale gdist_scale occdist_scale hdiff_scale heading_lookahead
      oscillation_reset_dist escape_reset_dist escape_reset_theta
      holonomic_robot
      max_vel_x min_vel_x max_vel_th min_vel_th min_in_place_vel_th
      backup_vel dwa heading_scoring heading_scoring_timestep
      meter_scoring simple_attractor y_vels stop_time_buffer sim_period
      angular_sim_granularity path_distance_max in
  let P := after_calls env P0 calls in
  meter_scoring_ (settings P) = unassigned_meter_scoring u /\
  stop_time_buffer_ (settings P) = stop_time_buffer /\
  sim_period_ (settings P) = sim_period /\
  ((forall config, ~ In (call_reconfigure config) calls) ->
   settings P = settings P0).
Proof.
  cbv zeta. unfold after_calls.
  set (P0 := TrajectoryPlanner _ _ _ _ _ _ _ _ _ _ _ _ _ _ _ _ _ _ _ _ _ _ _
               _ _ _ _ _ _ _ _ _ _ _ _).
  change (unassigned_meter_scoring u) with (meter_scoring_ (settings P0)).
  change stop_time_buffer with (stop_time_buffer_ (settings P0)).
  change sim_period with (sim_period_ (settings P0)).
  generalize P0. clear P0.
  induction calls as [|c calls IH]; intros P0; [repeat split|].
  cbn [fold_left].
  destruct (IH (after_call env P0 c)) as (H1 & H2 & H3 & H4).
  destruct (after_call_settings env P0 c) as (K1 & K2 & K3 & K4).
  rewrite H1, H2, H3, K1, K2, K3. repeat split.
  intros Hno. rewrite H4.
  - destruct c; try exact K4. elim (Hno config). now left.
  - intros config Hin. apply (Hno config). now right.
Qed.

End PlannerLife.

(** ** [reconfigure] and [updatePlan] *)

(** X16: [reconfigure] replaces the settings and nothing else, and the
    settings it leaves depend on the configuration and on the three
    members it keeps ([meter_scoring_], [stop_time_buffer_], [sim_period_])
    only: made after any other reconfiguration it leaves the same settings,
    so that the scaling by the resolution does not add up.  The forward
    and angular sample counts are the configured ones raised to 1, with one
    warning for each count that was raised; the lateral count is stored as
    configured. *)
Theorem reconfigure_last_wins (env : Env) (P : Planner)
    (config config0 : BaseLocalPlannerConfig.t) :
  let r := reconfigure env P config in
  let s := settings (fst r) in
  fst r = set_settings s P /\
  settings (fst (reconfigure env (fst (reconfigure env P config0)) config))
  = s /\
  vx_samples_ s = Z.max 1 (BaseLocalPlannerConfig.vx_samples config) /\
  vtheta_samples_ s = Z.max 1 (BaseLocalPlannerConfig.vtheta_samples config)
  /\
  vy_samples_ s = BaseLocalPlannerConfig.vy_samples config /\
  snd r
  = (if (BaseLocalPlannerConfig.vx_samples config <=? 0)%Z
     then [warn_vx_samples] else [])
    ++ (if (BaseLocalPlannerConfig.vtheta_samples config <=? 0)%Z
        then [warn_vtheta_samples] else []).
Proof.
  cbv zeta. split; [apply reconfigure_frame|].
  unfold reconfigure.
  destruct (Z.leb_spec (BaseLocalPlannerConfig.vx_samples config) 0),
    (Z.leb_spec (BaseLocalPlannerConfig.vtheta_samples config) 0),
    (BaseLocalPlannerConfig.vx_samples config0 <=? 0)%Z,
    (BaseLocalPlannerConfig.vtheta_samples config0 <=? 0)%Z;
    cbn [fst snd settings set_settings vx_samples_ vy_samples_
         vtheta_samples_ meter_scoring_ stop_time_buffer_ sim_period_];
    repeat split; lia.
Qed.

Lemma rev_head_is_last {A : Type} (l r : list A) (a d : A) :
  rev l = a :: r -> nth (List.length l - 1) l d = a.
Proof.
  intros H. apply (f_equal (@rev A)) in H. rewrite rev_involutive in H.
  subst l. cbn [rev]. rewrite length_app, length_rev. cbn [List.length].
  replace (List.length r + 1 - 1)%nat with (List.length (rev r))
    by (rewrite length_rev; lia).
  rewrite app_nth2 by lia. rewrite Nat.sub_diag. reflexivity.
Qed.

(** X17: [updatePlan] stores the plan and touches neither the settings,
    nor the guard, nor the buffers; the grids only when asked to compute
    the distances.  The final goal is valid exactly when the plan is not
    empty, and is then the position of its last pose, the pose that the
    simple-attractor scoring measures the goal distance to; for an empty
    plan the final goal stays where it was. *)
Theorem updatePlan_final_goal (env : Env) (P : Planner)
    (new_plan : list PoseStamped) (compute_dists : bool) :
  let P' := updatePlan env P new_plan compute_dists in
  global_plan_ P' = new_plan /\
  settings P' = settings P /\ guard P' = guard P /\ buffers P' = buffers P /\
  (compute_dists = false ->
   path_map_ P' = path_map_ P /\ goal_map_ P' = goal_map_ P) /\
  (new_plan = [] ->
   final_goal_position_valid_ P' = false /\
   final_goal_x_ P' = final_goal_x_ P /\ final_goal_y_ P' = final_goal_y_ P)
  /\
  (new_plan <> [] ->
   final_goal_position_valid_ P' = true /\
   final_goal_x_ P' = position_x (plan_at P' (plan_size P' - 1)) /\
   final_goal_y_ P' = position_y (plan_at P' (plan_size P' - 1))).
Proof.
  intros P'.
  pose proof (updatePlan_frame env P new_plan compute_dists) as Hf.
  cbv zeta in Hf. fold P' in Hf. destruct Hf as (Hs & Hg & Hb & Hp).
  split; [exact Hp|]. split; [exact Hs|]. split; [exact Hg|].
  split; [exact Hb|]. split; [|split].
  - intros ->. unfold P', updatePlan. destruct (rev new_plan); split;
      reflexivity.
  - intros ->. unfold P', updatePlan. cbn [rev].
    destruct compute_dists; repeat split.
  - intros Hne. unfold plan_at, plan_size. rewrite Hp.
    replace (Z.to_nat (Z.of_nat (List.length new_plan) - 1))
      with (List.length new_plan - 1)%nat by lia.
    unfold P', updatePlan.
    destruct (rev new_plan) as [|a r] eqn:E.
    + apply (f_equal (@rev PoseStamped)) in E.
      rewrite rev_involutive in E. now elim Hne.
    + rewrite (rev_head_is_last new_plan r a default_pose E).
      destruct compute_dists; repeat split.
Qed.

Lemma updatePlan_final_goal_witness :
  let P' := updatePlan Scenario.free_world Scenario.planner0
              [Scenario.goal_pose; mkPoseStamped 3 4 (mkQuaternion 1 0 0 0)]
              false in
  final_goal_position_valid_ P' = true /\
  final_goal_x_ P' = 3 /\ final_goal_y_ P' = 4.
Proof.
  destruct (updatePlan_final_goal Scenario.free_world Scenario.planner0
              [Scenario.goal_pose; mkPoseStamped 3 4 (mkQuaternion 1 0 0 0)]
              false) as (_ & _ & _ & _ & _ & _ & H).
  destruct (H ltac:(discriminate)) as (Hv & Hx & Hy).
  cbv zeta. rewrite Hv, Hx, Hy. repeat split.
Defined.


(** ** The planning cycle *)

Lemma geb_not_ltb (a : float) : Cpp.geb a 0 = true -> (a <? 0) = false.
Proof.
  intros H. destruct (a <? 0) eqn:E; [|reflexivity].
  rewrite (ltb_not_geb _ _ E) in H. discriminate.
Qed.

Lemma checkTrajectory_with_state (env : Env) (P : Planner) (g : Guard)
    (b : Buffers) (x y theta vx vy vtheta a b' c : float) :
  checkTrajectory env (with_state g b P) x y theta vx vy vtheta a b' c
  = checkTrajectory env P x y theta vx vy vtheta a b' c.
Proof. reflexivity. Qed.

(** X19: the drive velocities of [findBestPath] are zero when the
    trajectory it returns has a negative cost, and the velocity of that
    trajectory otherwise.  When the sampling tiers select a trajectory on
    the grids of the cycle, it is the one returned, the drive velocities
    are its velocity, and [checkTrajectory], asked on the planner the cycle
    leaves for the pose and velocity as narrowed to single precision,
    accepts them.  The cycle leaves the settings and the plan as they
    were. *)
Theorem findBestPath_drive (env : Env) (P : Planner)
    (px py pth vx vy vth : float) :
  let r := findBestPath env P (px, py, pth) (vx, vy, vth) in
  let P' := fst (fst r) in
  let best := snd (fst r) in
  let drive := snd r in
  let x := to_single env px in
  let y := to_single env py in
  let theta := to_single env pth in
  let tiers :=
    sampling_tiers env (refresh_grids env P x y theta) x y theta
      (to_single env vx) (to_single env vy) (to_single env vth)
      (acc_lim_x_ (settings P)) (acc_lim_y_ (settings P))
      (acc_lim_theta_ (settings P)) in
  drive = (if cost_ best <? 0 then (0, 0, 0)
           else (xv_ best, yv_ best, thetav_ best)) /\
  settings P' = settings P /\ global_plan_ P' = global_plan_ P /\
  (Cpp.geb (cost_ (best_of tiers)) 0 = true ->
   best = best_of tiers /\
   drive = (xv_ best, yv_ best, thetav_ best) /\
   checkTrajectory env P' x y theta
     (to_single env vx) (to_single env vy) (to_single env vth)
     (xv_ best) (yv_ best) (thetav_ best) = true).
Proof.
  intros r P' best drive x y theta tiers.
  set (P1 := refresh_grids env P x y theta).
  set (call := createTrajectories env P1 x y theta
                 (to_single env vx) (to_single env vy) (to_single env vth)
                 (acc_lim_x_ (settings P)) (acc_lim_y_ (settings P))
                 (acc_lim_theta_ (settings P))).
  assert (Hr : r = (if cost_ (snd call) <? 0
                    then (fst call, snd call, (0, 0, 0))
                    else (fst call, snd call,
                          (xv_ (snd call), yv_ (snd call),
                           thetav_ (snd call))))).
  { unfold r, findBestPath. fold x y theta. fold P1.
    change (settings P1) with (settings P). fold call.
    destruct call as [P2 b]. reflexivity. }
  assert (HP : P' = fst call)
    by (unfold P'; rewrite Hr; destruct (_ <? 0); reflexivity).
  assert (Hb : best = snd call)
    by (unfold best; rewrite Hr; destruct (_ <? 0); reflexivity).
  assert (Hd : drive = (if cost_ best <? 0 then (0, 0, 0)
                        else (xv_ best, yv_ best, thetav_ best))).
  { unfold drive. rewrite Hb, Hr. destruct (_ <? 0); reflexivity. }
  pose proof (createTrajectories_frame env P1 x y theta
                (to_single env vx) (to_single env vy) (to_single env vth)
                (acc_lim_x_ (settings P)) (acc_lim_y_ (settings P))
                (acc_lim_theta_ (settings P))) as Hf.
  cbv zeta in Hf. fold call in Hf. destruct Hf as (Hs & Hpl & _).
  split; [exact Hd|].
  split; [rewrite HP, Hs; reflexivity|].
  split; [rewrite HP, Hpl; reflexivity|].
  intros Hlegal.
  destruct (selected_is_own_simulation env P1 x y theta
              (to_single env vx) (to_single env vy) (to_single env vth)
              (acc_lim_x_ (settings P)) (acc_lim_y_ (settings P))
              (acc_lim_theta_ (settings P)) (fresh_trajectory env) Hlegal)
    as (Hok & Hsim).
  fold call in Hok, Hsim. rewrite <- Hb in Hok, Hsim.
  assert (Hc : checkTrajectory env P1 x y theta
                 (to_single env vx) (to_single env vy) (to_single env vth)
                 (xv_ best) (yv_ best) (thetav_ best) = true).
  { unfold checkTrajectory, scoreTrajectory.
    change (settings P1) with (settings P). rewrite Hsim, Hok.
    reflexivity. }
  assert (Hbest : best = best_of tiers).
  { rewrite Hb.
    destruct (backup_tier_generation env P1 x y theta
                (to_single env vx) (to_single env vy) (to_single env vth)
                (acc_lim_x_ (settings P)) (acc_lim_y_ (settings P))
                (acc_lim_theta_ (settings P))) as (Hsel & _).
    exact (proj2 (Hsel Hlegal)). }
  split; [exact Hbest|].
  assert (Hcost : (cost_ best <? 0) = false).
  { apply geb_not_ltb. rewrite Hbest. exact Hlegal. }
  split; [rewrite Hd, Hcost; reflexivity|].
  rewrite HP.
  pose proof (createTrajectories_with_state env P1 x y theta
                (to_single env vx) (to_single env vy) (to_single env vth)
                (acc_lim_x_ (settings P)) (acc_lim_y_ (settings P))
                (acc_lim_theta_ (settings P))) as Hw.
  cbv zeta in Hw. fold call in Hw.
  rewrite Hw, checkTrajectory_with_state. exact Hc.
Qed.

Lemma findBestPath_drive_witness :
  let r := findBestPath Scenario.free_world Scenario.planner0
             (5.9375, 1.5, 0) (0, 0, 0) in
  snd r = (0.125, 0, -1) /\
  checkTrajectory Scenario.free_world (fst (fst r)) 5.9375 1.5 0 0 0 0
    0.125 0 (-1) = true.
Proof.
  destruct (findBestPath_drive Scenario.free_world Scenario.planner0
              5.9375 1.5 0 0 0 0) as (_ & _ & _ & H).
  destruct H as (_ & Hd & Hc); [vm_compute; reflexivity|].
  split; [rewrite Hd; vm_compute; reflexivity|].
  exact Hc.
Defined.

(** ** A base that is not holonomic *)

Section NoLateralVelocity.

Variable env : Env.
Variable P : Planner.
Variables x y theta vx vy vtheta acc_x acc_y acc_theta : float.

Hypothesis Hnh : holonomic_robot_ (settings P) = false.

Lemma sample_keeps_samples (l : Locals) :
  vy_samp (sample env P x y theta vx vy vtheta acc_x acc_y acc_theta l)
  = vy_samp l.
Proof. unfold sample. destruct (is_better _ _ _ _ _ _ _ _ _ _ _ _ _); reflexivity. Qed.

Lemma in_place_body_keeps_samples (l : Locals) :
  vy_samp (in_place_body env P x y theta vx vy vtheta acc_x acc_y acc_theta l)
  = vy_samp l.
Proof.
  unfold in_place_body.
  destruct (is_better_in_place _ _ _ _ _ _ _ _ _ _ _ _ _ _); reflexivity.
Qed.

Lemma sampling_tiers_no_lateral :
  no_lateral_sample
    (sampling_tiers env P x y theta vx vy vtheta acc_x acc_y acc_theta).
Proof.
  unfold sampling_tiers. apply tiers_keep.
  - intros v l H. exact H.
  - intros v l [->|Hh] (H1 & H2); [|congruence].
    split; [reflexivity|exact H2].
  - intros v l H. exact H.
  - intros l (Hvy & Hne & Hy).
    split; [rewrite sample_keeps_samples; exact Hvy|].
    destruct (sample_step env P x y theta vx vy vtheta acc_x acc_y acc_theta
                l Hne) as [(Hb & Hc & Hbest)|(Hb & Hc & Hbest & _)].
    + split; [congruence|]. rewrite Hbest. exact Hy.
    + split; [congruence|]. intros _. rewrite Hbest.
      destruct (generateTrajectory_velocity env P x y theta vx vy vtheta
                  (vx_samp l) (vy_samp l) (vtheta_samp l)
                  acc_x acc_y acc_theta (impossible_cost P) (comp_of l))
        as (_ & H & _).
      rewrite H. exact Hvy.
  - intros l (Hvy & Hne & Hy).
    split; [rewrite in_place_body_keeps_samples; exact Hvy|].
    destruct (in_place_step env P x y theta vx vy vtheta acc_x acc_y
                acc_theta l Hne)
      as [(Hb & Hc & Hbest)|(Hb & Hc & (vth & Hbest) & _)].
    + split; [congruence|]. rewrite Hbest. exact Hy.
    + split; [congruence|]. intros _. rewrite Hbest.
      destruct (generateTrajectory_velocity env P x y theta vx vy vtheta
                  (vx_samp l) (vy_samp l) vth
                  acc_x acc_y acc_theta (impossible_cost P) (comp_of l))
        as (_ & H & _).
      rewrite H. exact Hvy.
  - split; [reflexivity|]. split; [discriminate|].
    intros H. discriminate H.
Qed.

End NoLateralVelocity.

(** X20: for a base that is not holonomic, the trajectory a call
    returns has no lateral velocity, whether the sampling tiers select it
    or it is the backup trajectory returned with its illegal cost.  (In the
    one case left, a backup trajectory of legal cost, the call returns what
    the first buffer held before.) *)
Theorem no_lateral_velocity (env : Env) (P : Planner)
    (x y theta vx vy vtheta acc_x acc_y acc_theta : float) :
  let tiers :=
    sampling_tiers env P x y theta vx vy vtheta acc_x acc_y acc_theta in
  let backup :=
    generateTrajectory env P x y theta vx vy vtheta
      (backup_vel_ (settings P)) 0 0 acc_x acc_y acc_theta
      (obstacleCosts (path_map_ P)) (traj_two (bufs tiers)) in
  holonomic_robot_ (settings P) = false ->
  Cpp.geb (cost_ (best_of tiers)) 0 = true \/
  Cpp.geb (cost_ backup) 0 = false ->
  yv_ (snd (createTrajectories env P x y theta vx vy vtheta
              acc_x acc_y acc_theta)) = 0.
Proof.
  intros tiers backup Hnh H.
  destruct (Cpp.geb (cost_ (best_of tiers)) 0) eqn:E.
  - destruct (backup_tier_generation env P x y theta vx vy vtheta
                acc_x acc_y acc_theta) as (Hsel & _).
    fold tiers in Hsel. rewrite (proj2 (Hsel E)).
    destruct (sampling_tiers_no_lateral env P x y theta vx vy vtheta
                acc_x acc_y acc_theta Hnh) as (_ & _ & Hy).
    fold tiers in Hy. exact (Hy E).
  - destruct H as [H|H]; [discriminate|].
    rewrite (createTrajectories_backup env P x y theta vx vy vtheta
               acc_x acc_y acc_theta E).
    fold tiers. fold backup. rewrite H.
    destruct (generateTrajectory_velocity env P x y theta vx vy vtheta
                (backup_vel_ (settings P)) 0 0 acc_x acc_y acc_theta
                (obstacleCosts (path_map_ P)) (traj_two (bufs tiers)))
      as (_ & Hy & _).
    fold backup in Hy.
    destruct (cost_ backup =? -1); exact Hy.
Qed.

Lemma no_lateral_velocity_witness :
  yv_ (snd (Scenario.plan_at_rest Scenario.free_world Scenario.planner0
              5.9375 1.5)) = 0.
Proof.
  apply (no_lateral_velocity Scenario.free_world Scenario.planner0
           5.9375 1.5 0 0 0 0 1 1 1).
  - reflexivity.
  - left. vm_compute. reflexivity.
Defined.

(** ** [getCellCosts] *)

Lemma byte_leb_table :
  forallb (fun a =>
    forallb (fun b =>
      Bool.eqb (Cpp.int_to_double a <=? Cpp.int_to_double b) (a <=? b)%Z)
      bytes) bytes = true.
Proof. vm_compute. reflexivity. Qed.

Lemma byte_leb (a b : Z) :
  (0 <= a <= 255)%Z -> (0 <= b <= 255)%Z ->
  (Cpp.int_to_double a <=? Cpp.int_to_double b) = (a <=? b)%Z.
Proof.
  intros Ha Hb. pose proof byte_leb_table as H.
  rewrite forallb_forall in H. specialize (H a (in_bytes a Ha)).
  rewrite forallb_forall in H. specialize (H b (in_bytes b Hb)).
  apply Bool.eqb_prop in H. exact H.
Qed.

(** X21: a cell that [getCellCosts] accepts is one that [pointCost]
    accepts too.  On a costmap of [unsigned char] values, with
    the inscribed value the least of the three reserved ones and a
    narrowing to single precision that is exact on these values, a cell
    that [getCellCosts] accepts is not under the robot, [pointCost] gives
    its value (which is not negative), and the four results are the path
    and goal distances of the cell, its value and their weighted sum.  When
    [getCellCosts] refuses a cell, the path cost, the goal cost and the
    total cost are left as they were. *)
Theorem getCellCosts_accepts_scorable (env : Env) (cv : CostValues)
    (unreachableCellCosts : float) (P : Planner) (cx cy : Z)
    (path_cost goal_cost occ_cost total_cost : float) :
  (forall x y, (0 <= getCost env x y <= 255)%Z) ->
  (forall c, (0 <= c <= 255)%Z ->
     to_single env (Cpp.int_to_double c) = Cpp.int_to_double c) ->
  (0 <= INSCRIBED_INFLATED_OBSTACLE cv <= LETHAL_OBSTACLE cv)%Z ->
  (INSCRIBED_INFLATED_OBSTACLE cv <= NO_INFORMATION cv <= 255)%Z ->
  (LETHAL_OBSTACLE cv <= 255)%Z ->
  let r := getCellCosts env cv unreachableCellCosts P cx cy
             path_cost goal_cost occ_cost total_cost in
  let '(pc, gc, oc, tc) := snd r in
  (fst r = true ->
   within_robot (cell (path_map_ P) cx cy) = false /\
   pointCost env cv cx cy = Cpp.int_to_double (getCost env cx cy) /\
   (pointCost env cv cx cy <? 0) = false /\
   pc = to_single env (target_dist (cell (path_map_ P) cx cy)) /\
   gc = to_single env (target_dist (cell (goal_map_ P) cx cy)) /\
   oc = Cpp.int_to_double (getCost env cx cy) /\
   tc = to_single env
          (pdist_scale_ (settings P) * pc + gdist_scale_ (settings P) * gc
           + occdist_scale_ (settings P) * oc)) /\
  (fst r = false ->
   pc = path_cost /\ gc = goal_cost /\ tc = total_cost).
Proof.
  intros Hbyte Hsingle Hl Hn Hl255.
  cbv zeta. unfold getCellCosts.
  destruct (within_robot (cell (path_map_ P) cx cy)) eqn:Ew.
  { cbn [fst snd]. split; [discriminate|].
    intros _. repeat split. }
  destruct (_ || _ || _)%bool eqn:E; cbn [fst snd].
  { split; [discriminate|]. intros _. repeat split. }
  split; [|discriminate]. intros _.
  pose proof (Hbyte cx cy) as Hc.
  apply orb_false_elim in E as (_ & E).
  rewrite (Hsingle _ Hc) in E |- *.
  unfold Cpp.geb in E. rewrite byte_leb in E by lia.
  apply Z.leb_gt in E.
  assert (Hp : pointCost env cv cx cy = Cpp.int_to_double (getCost env cx cy)).
  { unfold pointCost.
    destruct (Z.eqb_spec (getCost env cx cy) (LETHAL_OBSTACLE cv)); [lia|].
    destruct (Z.eqb_spec (getCost env cx cy)
                (INSCRIBED_INFLATED_OBSTACLE cv)); [lia|].
    destruct (Z.eqb_spec (getCost env cx cy) (NO_INFORMATION cv)); [lia|].
    reflexivity. }
  split; [reflexivity|]. split; [exact Hp|].
  split; [rewrite Hp; apply byte_not_negative, Hc|].
  repeat split.
Qed.

Lemma getCellCosts_accepts_scorable_witness :
  getCellCosts CostmapScenario.world CostmapScenario.cost_values 101
    Scenario.planner0 1 0 9 9 9 9
  = (true, (1, 3, 50, 16)) /\
  pointCost CostmapScenario.world CostmapScenario.cost_values 1 0 = 50.
Proof.
  split; [vm_compute; reflexivity|].
  assert (Hbyte : forall x y,
            (0 <= getCost CostmapScenario.world x y <= 255)%Z).
  { intros x y. cbn. unfold CostmapScenario.cell_cost.
    destruct (_ && _)%bool; [lia|]. destruct (_ || _)%bool; lia. }
  pose proof (getCellCosts_accepts_scorable CostmapScenario.world
                CostmapScenario.cost_values 101 Scenario.planner0 1 0
                9 9 9 9 Hbyte (fun c _ => eq_refl)
                ltac:(cbn; lia) ltac:(cbn; lia) ltac:(cbn; lia)) as H.
  cbv zeta in H.
  destruct (snd (getCellCosts CostmapScenario.world
                   CostmapScenario.cost_values 101 Scenario.planner0 1 0
                   9 9 9 9)) as [[[pc gc] oc] tc].
  destruct H as (H & _).
  destruct (H ltac:(vm_compute; reflexivity)) as (_ & Hp & _).
  rewrite Hp. vm_compute. reflexivity.
Defined.

(** ** The cells under the robot *)

Lemma mark_within_robot_fold (cells : list (Z * Z)) (g : MapGrid) (a b : Z) :
  let marked := fold_left mark_within_robot cells g in
  within_robot (cell marked a b)
  = (existsb (fun c => ((a =? fst c) && (b =? snd c))%Z%bool) cells
     || within_robot (cell g a b))%bool /\
  target_dist (cell marked a b) = target_dist (cell g a b) /\
  obstacleCosts marked = obstacleCosts g /\
  goal_x_ marked = goal_x_ g /\ goal_y_ marked = goal_y_ g.
Proof.
  cbv zeta. revert g. induction cells as [|c cells IH]; intros g.
  - cbn. repeat split.
  - cbn [fold_left existsb].
    destruct (IH (mark_within_robot g c)) as (H1 & H2 & H3 & H4 & H5).
    rewrite H1, H2, H3, H4, H5. unfold mark_within_robot.
    cbn [cell within_robot target_dist obstacleCosts goal_x_ goal_y_].
    destruct ((a =? fst c)%Z && (b =? snd c)%Z)%bool;
      cbn [within_robot target_dist orb]; repeat split.
    apply orb_true_r.
Qed.

(** X22: at the start of a cycle [findBestPath] resets both grids, and
    before the path grid is seeded from the plan its loop over the
    footprint cells marks these cells, and no other, as lying under the
    robot, changing no distance: a cell is marked after the loop exactly
    when it is a footprint cell or was marked in the grid as reset.  The
    goal grid is reset and given the local goal, without marks of its
    own. *)
Theorem footprint_cells_marked (env : Env) (P : Planner)
    (px py pth : float) (a b : Z) :
  let cells := getFootprintCells env px py pth in
  let reset := resetPathDist env (path_map_ P) in
  let marked := fold_left mark_within_robot cells reset in
  let P' := refresh_grids env P px py pth in
  path_map_ P' = setTargetCells env (global_plan_ P) marked /\
  goal_map_ P'
  = setLocalGoal env (global_plan_ P) (resetPathDist env (goal_map_ P)) /\
  within_robot (cell marked a b)
  = (existsb (fun c => ((a =? fst c) && (b =? snd c))%Z%bool) cells
     || within_robot (cell reset a b))%bool /\
  target_dist (cell marked a b) = target_dist (cell reset a b) /\
  obstacleCosts marked = obstacleCosts reset.
Proof.
  intros cells reset marked P'.
  split; [reflexivity|]. split; [reflexivity|].
  destruct (mark_within_robot_fold cells reset a b) as (H1 & H2 & H3 & _).
  repeat split; assumption.
Qed.

(** ** The guard after a forward selection *)

(** X23: when the sampling tiers select a trajectory that moves forward
    (a positive forward velocity), the call returns it, commits to no
    direction and leaves the anchor of the guard where it was; the eight
    flags are kept, or all cleared when the position is farther from the
    anchor than [oscillation_reset_dist_]. *)
Theorem forward_selection_keeps_guard (env : Env) (P : Planner)
    (x y theta vx vy vtheta acc_x acc_y acc_theta : float) :
  let best :=
    best_of (sampling_tiers env P x y theta vx vy vtheta
               acc_x acc_y acc_theta) in
  let r :=
    createTrajectories env P x y theta vx vy vtheta acc_x acc_y acc_theta in
  let g := guard P in
  let g' := guard (fst r) in
  Cpp.geb (cost_ best) 0 = true ->
  Cpp.gtb (xv_ best) 0 = true ->
  snd r = best /\
  anchor_of g' = anchor_of g /\
  flags_of g'
  = (if Cpp.gtb (hypot env (x - prev_x_ g) (y - prev_y_ g))
          (oscillation_reset_dist_ (settings P))
     then [false; false; false; false; false; false; false; false]
     else flags_of g).
Proof.
  intros best r g g' Hlegal Hx.
  assert (Hr : r = (set_buffers
                      (bufs (sampling_tiers env P x y theta vx vy vtheta
                               acc_x acc_y acc_theta))
                      (set_guard
                         (reset_escaping env (settings P) x y theta
                            (reset_oscillation env (settings P) x y g)) P),
                    best)).
  { unfold r, createTrajectories. fold best. rewrite Hlegal.
    unfold commit_direction. rewrite Hx. reflexivity. }
  unfold g'. rewrite Hr. cbn [fst snd guard set_buffers set_guard].
  split; [reflexivity|].
  destruct (reset_escaping_keeps env (settings P) x y theta
              (reset_oscillation env (settings P) x y g)) as (Hf & Ha).
  rewrite Hf, Ha, reset_oscillation_anchor, reset_oscillation_flags.
  split; reflexivity.
Qed.

Lemma forward_selection_keeps_guard_witness :
  let r := Scenario.plan_at_rest Scenario.free_world
             Scenario.planner_reversing 5.9375 1.5 in
  xv_ (snd r) = 0.4375 /\
  anchor_of (guard (fst r)) = (5.9375, 1.5) /\
  rotating_right (guard (fst r)) = true.
Proof.
  destruct (forward_selection_keeps_guard Scenario.free_world
              Scenario.planner_reversing 5.9375 1.5 0 0 0 0 1 1 1)
    as (Hr & Ha & Hf); try (vm_compute; reflexivity).
  cbv zeta. unfold Scenario.plan_at_rest.
  split; [rewrite Hr; vm_compute; reflexivity|].
  split; [rewrite Ha; reflexivity|].
  apply (f_equal (fun l => nth 1 l false)) in Hf.
  cbn [flags_of nth] in Hf. rewrite Hf. vm_compute. reflexivity.
Defined.
